(** * ZapDrop: the chunked peer-to-peer transfer protocol

    A shallow embedding of the transfer core of ZapDrop:

    - [MemoryOptimizedFileProcessor] (src/utils/memoryOptimizedProcessor.ts):
      chunk-size policy, streaming chunker, digest-of-digests fingerprint;
    - [FileUploader] (src/components/FileUploader.tsx): [sendFileInChunks],
      the stop-and-wait sender;
    - [FileDownloader] (second document of src/components/ResponsiveLayout.tsx):
      [downloadFile], [handleFileChunk], [completeFileDownload];
    - [LargeFileStorage] and [TransferSessionManager]
      (largeFileStorage.ts and transferSessionManager.ts): persisted
      sessions and [resumeTransfer];
    - [ProcessorChecks], [StoredFiles], [LargeFileProcessing] and
      [Sessions]: the checks around the chunker, the whole-file operations
      of the store, [processLargeFile], and the session operations around
      [resumeTransfer];
    - [Sharing] and [Lobby]: what the two components do on a connection
      before a transfer, from [onDrop] to the password exchange.

    Conventions.  JavaScript numbers that hold sizes, indices and counts are
    integers below 2^53, on which [+], [*], [Math.min], [Math.ceil (a / b)]
    and the comparisons are exact; they are modelled in [Z].  Byte buffers
    ([ArrayBuffer], [Uint8Array], [Blob]) are [list byte].  Every
    [Date.now()] stamp is dropped from records and messages: no code path
    modelled here reads one back.  [console.log] and React progress setters
    that only drive the display are dropped as well. *)

From Stdlib Require Import ZArith Lia List Bool Ascii String Strings.Byte Sorting.Sorted.
From stdpp Require Import base gmap strings list pretty sorting.
Import ListNotations.

Abbreviation byte := Byte.byte.

(* ================================================================== *)
(** * Platform primitives *)
(* ================================================================== *)

Module JS.

Local Open Scope Z_scope.

(** [Math.ceil(a / b)] on integers, [b <> 0].  (For [b = 0] JavaScript
    yields [Infinity] or [NaN]; no caller modelled here passes it, and
    every statement below assumes a positive divisor.) *)
Definition ceil_div (a b : Z) : Z := - ((- a) / b).

(** [Blob.prototype.slice(start, end)] followed by [arrayBuffer()], for
    [0 <= start]: both bounds are clamped to the size and an empty range
    yields an empty buffer. *)
Definition slice {A} (l : list A) (start stop : Z) : list A :=
  firstn (Z.to_nat (stop - start)) (skipn (Z.to_nat start) l).

(** [blob.size], [buffer.byteLength] *)
Definition size {A} (l : list A) : Z := Z.of_nat (length l).

Definition byte_val (b : byte) : Z := Z.of_N (Byte.to_N b).

Definition byte_of_Z (z : Z) : byte :=
  match Byte.of_N (Z.to_N (z mod 256)) with
  | Some b => b
  | None => Byte.x00
  end.

(** [(d).toString(16)] for one hexadecimal digit *)
Definition hex_digit (d : Z) : ascii :=
  match d with
  | 0 => "0" | 1 => "1" | 2 => "2" | 3 => "3" | 4 => "4"
  | 5 => "5" | 6 => "6" | 7 => "7" | 8 => "8" | 9 => "9"
  | 10 => "a" | 11 => "b" | 12 => "c" | 13 => "d" | 14 => "e"
  | _ => "f"
  end%char.

(** [b.toString(16).padStart(2, '0')] for a byte [b] *)
Definition hex_byte (b : byte) : string :=
  String (hex_digit (byte_val b / 16))
    (String (hex_digit (byte_val b mod 16)) EmptyString).

(** [Array.from(new Uint8Array(buf)).map(b => b.toString(16).padStart(2,'0')).join('')] *)
Definition hex_string (buf : list byte) : string :=
  fold_right (fun b acc => hex_byte b +:+ acc) EmptyString buf.

End JS.

(** ** [crypto.subtle.digest('SHA-256', _)]

    The platform digest is SHA-256 as FIPS 180-4 defines it, on 32-bit
    words held in [Z]. *)
Module SHA256.

Local Open Scope Z_scope.

Definition mask32 : Z := 0xFFFFFFFF.
Definition wrap (x : Z) : Z := Z.land x mask32.
Definition add32 (x y : Z) : Z := wrap (x + y).

Definition rotr (n x : Z) : Z :=
  Z.lor (Z.shiftr x n) (wrap (Z.shiftl x (32 - n))).
Definition shr (n x : Z) : Z := Z.shiftr x n.

Definition Ch (x y z : Z) : Z :=
  Z.lxor (Z.land x y) (Z.land (Z.lxor x mask32) z).
Definition Maj (x y z : Z) : Z :=
  Z.lxor (Z.lxor (Z.land x y) (Z.land x z)) (Z.land y z).

Definition Sum0 (x : Z) : Z := Z.lxor (Z.lxor (rotr 2 x) (rotr 13 x)) (rotr 22 x).
Definition Sum1 (x : Z) : Z := Z.lxor (Z.lxor (rotr 6 x) (rotr 11 x)) (rotr 25 x).
Definition sig0 (x : Z) : Z := Z.lxor (Z.lxor (rotr 7 x) (rotr 18 x)) (shr 3 x).
Definition sig1 (x : Z) : Z := Z.lxor (Z.lxor (rotr 17 x) (rotr 19 x)) (shr 10 x).

(** The constants of FIPS 180-4, sections 4.2.2 and 5.3.3, from their
    definition: the first 32 bits of the fractional parts of the cube
    roots (for [K]) and of the square roots (for [H0]) of the first primes. *)
Definition primes : list Z :=
  [2; 3; 5; 7; 11; 13; 17; 19; 23; 29; 31; 37; 41; 43; 47; 53;
   59; 61; 67; 71; 73; 79; 83; 89; 97; 101; 103; 107; 109; 113; 127; 131;
   137; 139; 149; 151; 157; 163; 167; 173; 179; 181; 191; 193; 197; 199;
   211; 223; 227; 229; 233; 239; 241; 251; 257; 263; 269; 271; 277; 281;
   283; 293; 307; 311].

(** The integer cube root, one bit at a time from [bit] down. *)
Fixpoint cube_root (fuel : nat) (bit root n : Z) : Z :=
  match fuel with
  | O => root
  | S fuel' =>
      let candidate := root + bit in
      cube_root fuel' (bit / 2)
                (if candidate * candidate * candidate <=? n then candidate else root)
                n
  end.

Definition cube_root_fraction (p : Z) : Z :=
  wrap (cube_root 36 (2 ^ 35) 0 (p * 2 ^ 96)).

Definition square_root_fraction (p : Z) : Z :=
  wrap (Z.sqrt (p * 2 ^ 64)).

Definition K : list Z := Eval vm_compute in map cube_root_fraction primes.

(** The eight working variables / the intermediate hash value. *)
Record regs := Regs { ra : Z; rb : Z; rc : Z; rd : Z; re : Z; rf : Z; rg : Z; rh : Z }.

Definition H0 : regs :=
  Eval vm_compute in
  match map square_root_fraction (firstn 8 primes) with
  | [a; b; c; d; e; f; g; h] => Regs a b c d e f g h
  | _ => Regs 0 0 0 0 0 0 0 0
  end.

(** Padding: a [0x80] byte, zero bytes up to 56 modulo 64, then the bit
    length as a 64-bit big-endian integer. *)
Definition be_bytes (n : nat) (x : Z) : list Z :=
  map (fun i => Z.land (Z.shiftr x (8 * Z.of_nat i)) 255) (rev (seq 0 n)).

Definition pad (msg : list Z) : list Z :=
  let len := Z.of_nat (length msg) in
  let zeros := Z.to_nat ((55 - len) mod 64) in
  msg ++ [0x80] ++ repeat 0 zeros ++ be_bytes 8 (8 * len).

Definition word_of (b0 b1 b2 b3 : Z) : Z :=
  Z.lor (Z.lor (Z.shiftl b0 24) (Z.shiftl b1 16)) (Z.lor (Z.shiftl b2 8) b3).

Fixpoint words (bs : list Z) : list Z :=
  match bs with
  | b0 :: b1 :: b2 :: b3 :: rest => word_of b0 b1 b2 b3 :: words rest
  | _ => []
  end.

(** Message schedule: sixteen block words extended to sixty-four. *)
Fixpoint extend (n : nat) (w : list Z) : list Z :=
  match n with
  | O => w
  | S n' =>
      let t := length w in
      let at_ k := nth (t - k) w 0 in
      extend n' (w ++ [add32 (add32 (sig1 (at_ 2%nat)) (at_ 7%nat))
                             (add32 (sig0 (at_ 15%nat)) (at_ 16%nat))])
  end.

Definition round (s : regs) (kw : Z * Z) : regs :=
  let t1 := add32 (add32 (add32 (rh s) (Sum1 (re s))) (Ch (re s) (rf s) (rg s)))
                  (add32 (fst kw) (snd kw)) in
  let t2 := add32 (Sum0 (ra s)) (Maj (ra s) (rb s) (rc s)) in
  Regs (add32 t1 t2) (ra s) (rb s) (rc s) (add32 (rd s) t1) (re s) (rf s) (rg s).

Definition compress (h : regs) (block : list Z) : regs :=
  let w := extend 48 (words block) in
  let s := fold_left round (combine K w) h in
  Regs (add32 (ra h) (ra s)) (add32 (rb h) (rb s)) (add32 (rc h) (rc s))
       (add32 (rd h) (rd s)) (add32 (re h) (re s)) (add32 (rf h) (rf s))
       (add32 (rg h) (rg s)) (add32 (rh h) (rh s)).

(** One 64-byte block per unit of fuel. *)
Fixpoint blocks (fuel : nat) (h : regs) (bs : list Z) : regs :=
  match fuel with
  | O => h
  | S fuel' => blocks fuel' (compress h (firstn 64 bs)) (skipn 64 bs)
  end.

Definition digest_words (h : regs) : list Z :=
  [ra h; rb h; rc h; rd h; re h; rf h; rg h; rh h].

(** [new Uint8Array(await crypto.subtle.digest('SHA-256', buf))] *)
Definition digest (buf : list byte) : list byte :=
  let padded := pad (map JS.byte_val buf) in
  let h := blocks (Nat.div (length padded) 64) H0 padded in
  map JS.byte_of_Z (concat (map (be_bytes 4) (digest_words h))).

(** The hexadecimal rendering every caller applies to a digest. *)
Definition hex (buf : list byte) : string := JS.hex_string (digest buf).

End SHA256.

(** A [Promise] that has settled. *)
Inductive outcome (A : Type) : Type :=
| Resolved (a : A)
| Rejected (message : string).
Arguments Resolved {A} a.
Arguments Rejected {A} message.

(** A browser [File]: name, MIME type and content. *)
Record File := MkFile { name : string; type : string; content : list byte }.

(* ================================================================== *)
(** * src/utils/memoryOptimizedProcessor.ts *)
(* ================================================================== *)

Module MemoryOptimizedFileProcessor.

Local Open Scope Z_scope.

Definition getOptimalChunkSize (fileSize : Z) : Z :=
  if fileSize <? 10 * 1024 * 1024 then 256 * 1024
  else if fileSize <? 100 * 1024 * 1024 then 512 * 1024
  else if fileSize <? 1024 * 1024 * 1024 then 1024 * 1024
  else if fileSize <? 10 * 1024 * 1024 * 1024 then 2 * 1024 * 1024
  else 4 * 1024 * 1024.

(** [onChunkProcessed] is optional: the field says whether one is
    supplied, and a supplied one is taken to return normally.
    [onProgress] only receives a percentage and is left out.  [signal],
    when present, tells for each chunk index what [signal.aborted] reads
    at the top of that iteration. *)
Record ProcessingOptions := MkOptions {
  chunkSize : Z;
  onChunkProcessed : bool;
  signal : option (Z -> bool)
}.

Record FileStreamResult := MkResult {
  fileHash : string;
  totalChunks : Z;
  fileSize : Z
}.

(** The loop variables of [processFileStream], with the calls made to
    [onChunkProcessed] in order. *)
Record loop_state := MkLoop {
  combinedHashes : list (list byte);
  processedChunks : Z;
  delivered : list (Z * list byte)
}.

Definition aborted (sg : option (Z -> bool)) (chunkIndex : Z) : bool :=
  match sg with
  | Some f => f chunkIndex
  | None => false
  end.

(** [readFileChunk(file, chunkIndex, chunkSize)] *)
Definition readFileChunk (file : File) (chunkIndex chunkSize : Z) : list byte :=
  let start := chunkIndex * chunkSize in
  let stop := Z.min (start + chunkSize) (JS.size (content file)) in
  JS.slice (content file) start stop.

(** [target.set(source, offset)] on a [Uint8Array].  (It raises a
    [RangeError] when the source does not fit; [combine_hashes] calls it
    only with 32-byte sources at offsets that fit.) *)
Definition typed_array_set (target source : list byte) (offset : nat) : list byte :=
  firstn offset target ++ source ++ skipn (offset + length source) target.

(** Lines 93-96: a zeroed buffer of [32 * n] bytes, each digest written
    at [index * 32]. *)
Definition combine_hashes (hashes : list (list byte)) : list byte :=
  fold_left
    (fun buffer entry => typed_array_set buffer (snd entry) (fst entry * 32)%nat)
    (combine (seq 0 (length hashes)) hashes)
    (replicate (length hashes * 32) Byte.x00).

Section ProcessFileStream.

Variable file : File.
Variable options : ProcessingOptions.

(** One iteration of the [for] loop, past the abort check. *)
Definition process_chunk (st : loop_state) (chunkIndex : Z) : loop_state :=
  let start := chunkIndex * chunkSize options in
  let stop := Z.min (start + chunkSize options) (JS.size (content file)) in
  let chunkBuffer := JS.slice (content file) start stop in
  let chunkHashBuffer := SHA256.digest chunkBuffer in
  {| combinedHashes := combinedHashes st ++ [chunkHashBuffer];
     processedChunks := processedChunks st + 1;
     delivered :=
       if onChunkProcessed options
       then delivered st ++ [(chunkIndex, chunkBuffer)]
       else delivered st |}.

(** The loop over the chunk indices; the second component is the
    message of the [Error] thrown, if any. *)
Fixpoint chunk_loop (indices : list Z) (st : loop_state)
  : loop_state * option string :=
  match indices with
  | [] => (st, None)
  | chunkIndex :: rest =>
      if aborted (signal options) chunkIndex
      then (st, Some "File processing aborted"%string)
      else chunk_loop rest (process_chunk st chunkIndex)
  end.

Definition processFileStream
  : outcome FileStreamResult * list (Z * list byte) :=
  let totalChunks := JS.ceil_div (JS.size (content file)) (chunkSize options) in
  let '(st, thrown) :=
    chunk_loop (seqZ 0 totalChunks) (MkLoop [] 0 []) in
  match thrown with
  | Some message => (Rejected message, delivered st)
  | None =>
      let combinedHashBuffer := combine_hashes (combinedHashes st) in
      let fileHash := SHA256.hex combinedHashBuffer in
      (Resolved (MkResult fileHash totalChunks (JS.size (content file))),
       delivered st)
  end.

End ProcessFileStream.

End MemoryOptimizedFileProcessor.

(* ================================================================== *)
(** * Wire messages *)
(* ================================================================== *)

Module Wire.

(** The [data] field of a [file-chunk] as the receiver sees it: one of
    the byte-carrying encodings it accepts ([ArrayBuffer], [Uint8Array],
    a serialized [Buffer], a plain array), or anything else, of which
    only [typeof data] is used. *)
Inductive payload :=
| Bytes (data : list byte)
| Unexpected (typeOf : string).

Inductive message :=
| request_info
| file_list (files : list (string * Z * string)) (passwordRequired : bool)
| password (password : string)
| auth_failed
| auth_success
| request_file (fileName : string)
| file_start (fileName : string) (fileSize : Z) (fileType : string)
             (totalChunks : Z) (fileHash : string)
| file_chunk (fileName : string) (chunkIndex totalChunks : Z)
             (data : payload) (isLast : bool)
| chunk_ack (fileName : string) (chunkIndex : Z)
| file_complete (fileName : string) (verified : bool) (fileSize : Z)
                (fileHash : string) (chunksReceived : Z)
                (integrityVerified : bool)
| file_error (fileName error : string)
| transfer_error (fileName error : string)
| large_file_chunk (fileId fileName : string) (chunkIndex totalChunks : Z)
                   (data : list byte) (chunkSize : Z) (fileHash : string)
| large_file_chunk_ack (fileId : string) (chunkIndex : Z) (success : bool)
                       (error : string).

End Wire.

(* ================================================================== *)
(** * src/components/FileUploader.tsx: [sendFileInChunks] *)
(* ================================================================== *)

(** One activation of [sendFileInChunks(conn, file)], started by the
    ['request-file'] branch of the connection's data handler, as a state
    machine over the events of the browser's event loop.  Between two
    events the code runs to its next [await]; the phases are these
    suspension points.  Timers fire no earlier than their deadline on the
    millisecond clock. *)
Module FileUploader.

Import Wire.
Local Open Scope Z_scope.

Definition CHUNK_SIZE : Z := 256 * 1024.

Inductive timer :=
| AckTimer     (* setTimeout(..., 5000), line 506 *)
| PollTimer    (* setTimeout(checkAck, 50), line 517 *)
| DelayTimer   (* setTimeout(resolve, 10), line 524 *)
| FinalTimer.  (* setTimeout(..., 10000), line 529 *)

Inductive event :=
| Advance (ms : Z)       (* time passes *)
| Data (m : message)     (* the connection emits 'data' *)
| IoDone                 (* the pending read or digest completes *)
| Fires (t : timer)      (* a timer callback is run *)
| Closed.                (* the connection closes: conn.open is false *)

Inductive phase :=
| Hashing
| ReadingChunk (i : Z)
| AwaitingAck (i : Z) (ackDeadline pollDeadline : Z)
| Pausing (i : Z) (deadline : Z)
| AwaitingFinal (deadline : Z)
| Settled (result : outcome unit).

Record state := MkState {
  at_ : phase;
  sentBytes : Z;
  acknowledgedChunks : Z;
  pendingChunks : gset Z;
  clock : Z;
  open : bool;
  outbox : list message;
  transferErrors : gmap string string;
  completedTransfers : gmap string bool
}.

Definition goto (p : phase) (s : state) : state :=
  MkState p (sentBytes s) (acknowledgedChunks s) (pendingChunks s)
          (clock s) (open s) (outbox s) (transferErrors s) (completedTransfers s).

(** [conn.send(m)] *)
Definition send (m : message) (s : state) : state :=
  MkState (at_ s) (sentBytes s) (acknowledgedChunks s) (pendingChunks s)
          (clock s) (open s) (outbox s ++ [m]) (transferErrors s)
          (completedTransfers s).

Definition setTransferErrors (fileName error : string) (s : state) : state :=
  MkState (at_ s) (sentBytes s) (acknowledgedChunks s) (pendingChunks s)
          (clock s) (open s) (outbox s) (<[fileName := error]> (transferErrors s))
          (completedTransfers s).

Definition setCompletedTransfers (fileName : string) (s : state) : state :=
  MkState (at_ s) (sentBytes s) (acknowledgedChunks s) (pendingChunks s)
          (clock s) (open s) (outbox s) (transferErrors s)
          (<[fileName := true]> (completedTransfers s)).

Section SendFileInChunks.

Variable file : File.

Definition totalChunks : Z := JS.ceil_div (JS.size (content file)) CHUNK_SIZE.

Definition file_start_message : message :=
  file_start (name file) (JS.size (content file)) (type file) totalChunks
             (SHA256.hex (content file)).

Definition chunk_bytes (i : Z) : list byte :=
  let start := i * CHUNK_SIZE in
  let stop := Z.min (start + CHUNK_SIZE) (JS.size (content file)) in
  JS.slice (content file) start stop.

Definition chunk_message (i : Z) : message :=
  file_chunk (name file) i totalChunks (Bytes (chunk_bytes i))
             (i =? totalChunks - 1).

(** The state in which the activation starts: suspended on the read of
    the whole file, nothing sent yet. *)
Definition start : state :=
  MkState Hashing 0 0 ∅ 0 true [] ∅ ∅.

(** An [Error(message)] thrown inside the [try]: the [catch] block
    notifies the peer and rethrows; the caller's [catch] records the
    message and notifies the peer again (lines 544-563, 309-320). *)
Definition throw (message : string) (s : state) : state :=
  let s := send (transfer_error (name file) ("Transfer failed: " +:+ message)) s in
  let s := setTransferErrors (name file) message s in
  let s := send (transfer_error (name file) message) s in
  goto (Settled (Rejected message)) s.

(** The promise resolves; the caller marks the transfer completed
    (line 307). *)
Definition finish (s : state) : state :=
  goto (Settled (Resolved tt)) (setCompletedTransfers (name file) s).

Definition chunk_timeout (i : Z) : string :=
  "Chunk " +:+ pretty i +:+ " acknowledgment timeout".

(** The head of the [for] loop at index [i] (lines 439-443), or the
    code after the loop (lines 527-531). *)
Definition iteration (i : Z) (s : state) : state :=
  if i <? totalChunks then
    if open s then goto (ReadingChunk i) s
    else throw "Connection lost during transfer" s
  else goto (AwaitingFinal (clock s + 10000)) s.

(** The data handler installed by [startSharing] (lines 322-331). *)
Definition connectionData (m : message) (s : state) : state :=
  match m with
  | file_complete fileName _ _ _ _ _ => setCompletedTransfers fileName s
  | file_error fileName error => setTransferErrors fileName error s
  | _ => s
  end.

(** [handleChunkAck] (lines 357-374) *)
Definition handleChunkAck (m : message) (s : state) : state :=
  match m with
  | chunk_ack fileName chunkIndex =>
      if String.eqb fileName (name file) then
        MkState (at_ s) (sentBytes s) (acknowledgedChunks s + 1)
                (pendingChunks s ∖ {[chunkIndex]})
                (clock s) (open s) (outbox s) (transferErrors s)
                (completedTransfers s)
      else s
  | _ => s
  end.

(** [checkComplete] (lines 533-539) *)
Definition checkComplete (m : message) (s : state) : state :=
  match m with
  | file_complete fileName verified _ _ _ _ =>
      if String.eqb fileName (name file) && verified then finish s else s
  | _ => s
  end.

(** Chunk [i] has been read: lines 488-520 up to the first poll. *)
Definition sendChunk (i : Z) (s : state) : state :=
  let s :=
    MkState (at_ s) (sentBytes s) (acknowledgedChunks s)
            ({[i]} ∪ pendingChunks s)
            (clock s) (open s) (outbox s) (transferErrors s)
            (completedTransfers s) in
  let s := send (chunk_message i) s in
  let s :=
    MkState (at_ s) (sentBytes s + JS.size (chunk_bytes i))
            (acknowledgedChunks s) (pendingChunks s)
            (clock s) (open s) (outbox s) (transferErrors s)
            (completedTransfers s) in
  goto (AwaitingAck i (clock s + 5000) (clock s + 50)) s.

Definition step (s : state) (e : event) : state :=
  match e with
  | Advance ms =>
      MkState (at_ s) (sentBytes s) (acknowledgedChunks s) (pendingChunks s)
              (clock s + Z.max 0 ms) (open s) (outbox s) (transferErrors s)
              (completedTransfers s)
  | Closed =>
      MkState (at_ s) (sentBytes s) (acknowledgedChunks s) (pendingChunks s)
              (clock s) false (outbox s) (transferErrors s)
              (completedTransfers s)
  | Data m =>
      let s := connectionData m s in
      match at_ s with
      | Hashing | Settled _ => s
      | AwaitingFinal _ => checkComplete m (handleChunkAck m s)
      | _ => handleChunkAck m s
      end
  | IoDone =>
      match at_ s with
      | Hashing => iteration 0 (send file_start_message s)
      | ReadingChunk i => sendChunk i s
      | _ => s
      end
  | Fires AckTimer =>
      match at_ s with
      | AwaitingAck i ackDeadline _ =>
          if (ackDeadline <=? clock s) && bool_decide (i ∈ pendingChunks s)
          then throw (chunk_timeout i) s
          else s
      | _ => s
      end
  | Fires PollTimer =>
      match at_ s with
      | AwaitingAck i ackDeadline pollDeadline =>
          if pollDeadline <=? clock s then
            if bool_decide (i ∈ pendingChunks s)
            then goto (AwaitingAck i ackDeadline (clock s + 50)) s
            else goto (Pausing i (clock s + 10)) s
          else s
      | _ => s
      end
  | Fires DelayTimer =>
      match at_ s with
      | Pausing i deadline =>
          if deadline <=? clock s then iteration (i + 1) s else s
      | _ => s
      end
  | Fires FinalTimer =>
      match at_ s with
      | AwaitingFinal deadline =>
          if deadline <=? clock s
          then throw "Final confirmation timeout" s
          else s
      | _ => s
      end
  end.

Definition run (s : state) (events : list event) : state :=
  fold_left step events s.

End SendFileInChunks.

End FileUploader.

(* ================================================================== *)
(** * src/components/ResponsiveLayout.tsx, second document: [FileDownloader] *)
(* ================================================================== *)

(** The receiving component.  [window.currentDownloadHandler] is one
    global slot holding the closure that the latest [downloadFile] call
    installed; the closure's variables are the record [download].  The
    MIME type only labels the [Blob] and is dropped;
    [completeFileDownload] awaits the platform (reading the [Blob],
    digesting it) only after its checks on [fileChunks], and is run as
    one step. *)
Module FileDownloader.

Import Wire.
Local Open Scope Z_scope.

(** The variables captured by the handler of [downloadFile(fileName)]
    (lines 301-305). *)
Record download := MkDownload {
  fileName : string;
  fileChunks : gmap Z (list byte);
  totalChunks : Z;
  expectedFileSize : Z;
  expectedFileHash : string;
  receivedChunks : Z
}.

Record state := MkState {
  connection : bool;
  outbox : list message;
  currentDownloadHandler : option download;
  isDownloading : bool;
  downloadedFiles : gmap string (list byte);
  downloadErrors : gmap string string;
  verifiedFiles : gmap string bool
}.

(** [connection.send(m)] *)
Definition send (m : message) (s : state) : state :=
  MkState (connection s) (outbox s ++ [m]) (currentDownloadHandler s)
          (isDownloading s) (downloadedFiles s) (downloadErrors s)
          (verifiedFiles s).

Definition setDownloadErrors (file error : string) (s : state) : state :=
  MkState (connection s) (outbox s) (currentDownloadHandler s)
          (isDownloading s) (downloadedFiles s)
          (<[file := error]> (downloadErrors s)) (verifiedFiles s).

Definition setIsDownloading (b : bool) (s : state) : state :=
  MkState (connection s) (outbox s) (currentDownloadHandler s)
          b (downloadedFiles s) (downloadErrors s) (verifiedFiles s).

Definition setHandler (d : download) (s : state) : state :=
  MkState (connection s) (outbox s) (Some d)
          (isDownloading s) (downloadedFiles s) (downloadErrors s)
          (verifiedFiles s).

(** [numbers.join(', ')] *)
Definition join (numbers : list Z) : string :=
  String.concat ", " (map pretty numbers).

(** The first loop of [completeFileDownload] (lines 421-436). *)
Record scan := MkScan {
  missingChunks : list Z;
  corruptedChunks : list Z;
  totalSize : Z
}.

Definition scan_chunk (chunks : gmap Z (list byte)) (acc : scan) (i : Z) : scan :=
  match chunks !! i with
  | None => MkScan (missingChunks acc ++ [i]) (corruptedChunks acc) (totalSize acc)
  | Some chunk =>
      if JS.size chunk =? 0
      then MkScan (missingChunks acc) (corruptedChunks acc ++ [i]) (totalSize acc)
      else MkScan (missingChunks acc) (corruptedChunks acc)
                  (totalSize acc + JS.size chunk)
  end.

(** The second loop (lines 474-483): the chunks in index order, or the
    index at which ["Chunk i is missing during reconstruction"] is thrown. *)
Fixpoint reconstruct (chunks : gmap Z (list byte)) (indices : list Z)
  : list (list byte) + Z :=
  match indices with
  | [] => inl []
  | i :: rest =>
      match chunks !! i with
      | None => inr i
      | Some chunk =>
          match reconstruct chunks rest with
          | inl ordered => inl (chunk :: ordered)
          | inr missing => inr missing
          end
      end
  end.

Definition missing_summary (missing : list Z) : string :=
  "Missing " +:+ pretty (JS.size missing) +:+ " chunks: "
  +:+ join (firstn 5 missing)
  +:+ (if 5 <? JS.size missing then "..." else EmptyString).

Definition completeFileDownload
           (fileName : string) (fileChunks : gmap Z (list byte))
           (totalChunks expectedFileSize : Z) (expectedFileHash : string)
           (s : state) : state :=
  let found :=
    fold_left (scan_chunk fileChunks) (seqZ 0 totalChunks) (MkScan [] [] 0) in
  if 0 <? JS.size (missingChunks found) then
    let s := setDownloadErrors fileName (missing_summary (missingChunks found)) s in
    let s := send (file_error fileName
                     ("Missing chunks: " +:+ join (missingChunks found))) s in
    setIsDownloading false s
  else if 0 <? JS.size (corruptedChunks found) then
    let s := setDownloadErrors fileName
               ("Corrupted " +:+ pretty (JS.size (corruptedChunks found))
                +:+ " chunks: " +:+ join (corruptedChunks found)) s in
    let s := send (file_error fileName
                     ("Corrupted chunks: " +:+ join (corruptedChunks found))) s in
    setIsDownloading false s
  else
    match reconstruct fileChunks (seqZ 0 totalChunks) with
    | inr i =>
        (* the [catch] block, lines 633-653 *)
        let thrown := "Chunk " +:+ pretty i +:+ " is missing during reconstruction" in
        let s := setDownloadErrors fileName ("Complete download error: " +:+ thrown) s in
        let s := send (file_error fileName
                         ("Download completion failed: " +:+ thrown)) s in
        setIsDownloading false s
    | inl orderedChunks =>
        if negb (totalSize found =? expectedFileSize) then
          let s := setDownloadErrors fileName
                     "File size mismatch - corrupted transfer" s in
          let s := send (file_error fileName
                           ("File size mismatch: expected " +:+ pretty expectedFileSize
                            +:+ ", got " +:+ pretty (totalSize found))) s in
          setIsDownloading false s
        else
          let blob := concat orderedChunks in
          if negb (JS.size blob =? expectedFileSize) then
            let s := setDownloadErrors fileName
                       ("Blob size mismatch: expected " +:+ pretty expectedFileSize
                        +:+ ", got " +:+ pretty (JS.size blob)) s in
            setIsDownloading false s
          else
            let receivedHash := SHA256.hex blob in
            if negb (String.eqb receivedHash expectedFileHash) then
              let s := setDownloadErrors fileName
                         "File integrity verification failed - corrupted during transfer" s in
              let s := send (file_error fileName
                               "File integrity verification failed - corrupted during transfer") s in
              setIsDownloading false s
            else
              let s := send (file_complete fileName true (JS.size blob) receivedHash
                                           totalChunks true) s in
              MkState (connection s) (outbox s) (currentDownloadHandler s)
                      false
                      (<[fileName := blob]> (downloadedFiles s))
                      (delete fileName (downloadErrors s))
                      (<[fileName := true]> (verifiedFiles s))
        end.

(** The closure installed by [downloadFile] (lines 308-403), called with
    a [file-start] or [file-chunk] message. *)
Definition handler (d : download) (data : message) (s : state) : state :=
  match data with
  | file_start name fileSize _ total fileHash =>
      if String.eqb name (fileName d) then
        setHandler (MkDownload (fileName d) (fileChunks d) total fileSize fileHash
                               (receivedChunks d)) s
      else s
  | file_chunk name chunkIndex _ payload isLast =>
      if String.eqb name (fileName d) then
        match payload with
        | Unexpected typeOf =>
            setDownloadErrors (fileName d)
                              ("Invalid chunk data type: " +:+ typeOf) s
        | Bytes chunkData =>
            if JS.size chunkData =? 0 then
              setDownloadErrors (fileName d)
                                ("Empty chunk received: " +:+ pretty chunkIndex) s
            else
              let d' :=
                MkDownload (fileName d) (<[chunkIndex := chunkData]> (fileChunks d))
                           (totalChunks d) (expectedFileSize d) (expectedFileHash d)
                           (receivedChunks d + 1) in
              let s := setHandler d' s in
              let s := send (chunk_ack (fileName d) chunkIndex) s in
              if isLast || (receivedChunks d' =? totalChunks d') then
                completeFileDownload (fileName d') (fileChunks d') (totalChunks d')
                                     (expectedFileSize d') (expectedFileHash d') s
              else s
        end
      else s
  | _ => s
  end.

(** [handleFileChunk] (lines 661-666) *)
Definition handleFileChunk (data : message) (s : state) : state :=
  match currentDownloadHandler s with
  | Some d => handler d data s
  | None => s
  end.

(** The connection's data handler (lines 250-269), for the messages of a
    transfer. *)
Definition connectionData (data : message) (s : state) : state :=
  match data with
  | file_start _ _ _ _ _ | file_chunk _ _ _ _ _ => handleFileChunk data s
  | transfer_error name error =>
      setIsDownloading false (setDownloadErrors name error s)
  | _ => s
  end.

(** [downloadFile(fileName)] (lines 294-407) *)
Definition downloadFile (name : string) (s : state) : state :=
  if connection s then
    let s := setIsDownloading true s in
    let s := setHandler (MkDownload name ∅ 0 0 EmptyString 0) s in
    send (request_file name) s
  else s.

(** The "Download All Files" button (line 910):
    [files.forEach(file => downloadFile(file.fileName))]. *)
Definition downloadAllFiles (files : list string) (s : state) : state :=
  fold_left (fun s name => downloadFile name s) files s.

(** The component once connected: nothing requested yet. *)
Definition connected : state :=
  MkState true [] None false ∅ ∅ ∅.

End FileDownloader.

(* ================================================================== *)
(** * largeFileStorage.ts: [LargeFileStorage] *)
(* ================================================================== *)

(** The two IndexedDB object stores as finite maps.  A record read from
    a store is a copy: changing it does not change the store until it is
    put back.  Request errors of IndexedDB itself are not modelled; the
    only failure is a store that was never opened. *)
Module LargeFileStorage.

Local Open Scope Z_scope.

Record FileTransferSession := MkSession {
  fileId : string;
  fileName : string;
  fileSize : Z;
  fileType : string;
  totalChunks : Z;
  completedChunks : list Z;
  fileHash : string;
  isComplete : bool
}.

Record store := MkStore {
  db : bool;
  chunks : gmap (string * Z) (list byte);
  sessions : gmap string FileTransferSession
}.

Definition storeChunk (file : string) (chunkIndex : Z) (data : list byte)
           (st : store) : outcome store :=
  if db st
  then Resolved (MkStore (db st) (<[(file, chunkIndex) := data]> (chunks st))
                         (sessions st))
  else Rejected "Database not initialized".

Definition getChunk (file : string) (chunkIndex : Z) (st : store)
  : outcome (option (list byte)) :=
  if db st
  then Resolved (chunks st !! (file, chunkIndex))
  else Rejected "Database not initialized".

Definition saveSession (session : FileTransferSession) (st : store)
  : outcome store :=
  if db st
  then Resolved (MkStore (db st) (chunks st)
                         (<[fileId session := session]> (sessions st)))
  else Rejected "Database not initialized".

Definition getSession (file : string) (st : store)
  : outcome (option FileTransferSession) :=
  if db st
  then Resolved (sessions st !! file)
  else Rejected "Database not initialized".

End LargeFileStorage.

(* ================================================================== *)
(** * transferSessionManager.ts: [TransferSessionManager] *)
(* ================================================================== *)

(** [resumeTransfer] with the peer and the user as an environment: for
    each chunk index, what settles the promise of [transferChunk] (the
    matching acknowledgement, positive or negative, or the 30 s timer),
    and whether [pauseTransfer] has aborted the controller by the time the
    loop checks before that chunk.  [progress], [transferSpeed],
    [estimatedTimeRemaining] and [lastActivity] of [TransferState] are
    floating-point or clock values and are dropped. *)
Module TransferSessionManager.

Import Wire.
Local Open Scope Z_scope.

Inductive Status :=
| idle | processing | connecting | transferring | paused | complete | error.

Record TransferState := MkTransferState {
  fileId : string;
  status : Status;
  transferredChunks : Z;
  totalChunks : Z;
  canResume : bool;
  errorMessage : option string
}.

(** [onProgress], [onComplete], [onError] are optional: each field says
    whether one is supplied, and a supplied one is taken to return
    normally. *)
Record ResumeOptions := MkResumeOptions {
  resumeFileId : string;
  onProgress : bool;
  onComplete : bool;
  onError : bool
}.

Inductive callback :=
| progressed (snapshot : TransferState)
| completed
| failed (message : string).

Inductive reply :=
| AckSuccess
| AckFailure (message : string)
| SendTimeout.

Record environment := MkEnvironment {
  replies : Z -> reply;
  pausedBefore : Z -> bool
}.

Record manager := MkManager {
  storage : LargeFileStorage.store;
  activeSessions : gmap string TransferState;
  transferControllers : gset string;
  outbox : list message;
  calls : list callback
}.

Definition send (m : message) (mgr : manager) : manager :=
  MkManager (storage mgr) (activeSessions mgr) (transferControllers mgr)
            (outbox mgr ++ [m]) (calls mgr).

Definition call (present : bool) (c : callback) (mgr : manager) : manager :=
  if present
  then MkManager (storage mgr) (activeSessions mgr) (transferControllers mgr)
                 (outbox mgr) (calls mgr ++ [c])
  else mgr.

Definition withStorage (st : LargeFileStorage.store) (mgr : manager) : manager :=
  MkManager st (activeSessions mgr) (transferControllers mgr)
            (outbox mgr) (calls mgr).

(** A write to the [TransferState] object held in [activeSessions]. *)
Definition setState (ts : TransferState) (mgr : manager) : manager :=
  MkManager (storage mgr) (<[fileId ts := ts]> (activeSessions mgr))
            (transferControllers mgr) (outbox mgr) (calls mgr).

Definition setController (file : string) (present : bool) (mgr : manager) : manager :=
  MkManager (storage mgr) (activeSessions mgr)
            (if present
             then {[file]} ∪ transferControllers mgr
             else transferControllers mgr ∖ {[file]})
            (outbox mgr) (calls mgr).

Definition withCompleted (session : LargeFileStorage.FileTransferSession)
           (completed : list Z) (isComplete : bool)
  : LargeFileStorage.FileTransferSession :=
  LargeFileStorage.MkSession
    (LargeFileStorage.fileId session) (LargeFileStorage.fileName session)
    (LargeFileStorage.fileSize session) (LargeFileStorage.fileType session)
    (LargeFileStorage.totalChunks session) completed
    (LargeFileStorage.fileHash session) isComplete.

Definition withStatus (ts : TransferState) (st : Status) (transferred : Z)
           (resumable : bool) (message : option string) : TransferState :=
  MkTransferState (fileId ts) st transferred (totalChunks ts) resumable message.

Section ResumeTransfer.

Variable options : ResumeOptions.
Variable env : environment.

(** [transferChunk(fileId, chunkIndex, connection)] (lines 206-262): the
    manager afterwards, and the message of the rejection if any. *)
Definition transferChunk (chunkIndex : Z) (mgr : manager)
  : manager * option string :=
  match LargeFileStorage.getSession (resumeFileId options) (storage mgr) with
  | Rejected message => (mgr, Some message)
  | Resolved None => (mgr, Some "Session not found"%string)
  | Resolved (Some session) =>
      match LargeFileStorage.getChunk (resumeFileId options) chunkIndex
                                      (storage mgr) with
      | Rejected message => (mgr, Some message)
      | Resolved None =>
          (mgr,
           Some "Chunk data not available - file may need to be reprocessed"%string)
      | Resolved (Some data) =>
          let chunkMessage :=
            large_file_chunk (LargeFileStorage.fileId session)
                             (LargeFileStorage.fileName session)
                             chunkIndex
                             (LargeFileStorage.totalChunks session)
                             data (JS.size data)
                             (LargeFileStorage.fileHash session) in
          let mgr := send chunkMessage mgr in
          match replies env chunkIndex with
          | AckSuccess => (mgr, None)
          | AckFailure message =>
              (mgr, Some ("Chunk " +:+ pretty chunkIndex +:+ " failed: " +:+ message))
          | SendTimeout =>
              (mgr, Some ("Chunk " +:+ pretty chunkIndex +:+ " send timeout"))
          end
      end
  end.

(** The variables of the [for ... of remainingChunks] loop. *)
Record loop := MkLoop {
  mgr_ : manager;
  session_ : LargeFileStorage.FileTransferSession;
  transferState_ : TransferState;
  thrown : option string
}.

(** Lines 122-148. *)
Fixpoint transfer_loop (remainingChunks : list Z) (mgr : manager)
         (session : LargeFileStorage.FileTransferSession)
         (transferState : TransferState) : loop :=
  match remainingChunks with
  | [] => MkLoop mgr session transferState None
  | chunkIndex :: rest =>
      if pausedBefore env chunkIndex then
        (* [pauseTransfer] has run: lines 177, 181-182, then line 124 *)
        let transferState :=
          withStatus transferState paused (transferredChunks transferState)
                     true (errorMessage transferState) in
        MkLoop (setState transferState mgr) session transferState
               (Some "Transfer aborted"%string)
      else
        match transferChunk chunkIndex mgr with
        | (mgr, Some message) => MkLoop mgr session transferState (Some message)
        | (mgr, None) =>
            let transferState :=
              withStatus transferState (status transferState)
                         (transferredChunks transferState + 1)
                         (canResume transferState) (errorMessage transferState) in
            let mgr := setState transferState mgr in
            let session :=
              withCompleted session
                            (LargeFileStorage.completedChunks session ++ [chunkIndex])
                            (LargeFileStorage.isComplete session) in
            match LargeFileStorage.saveSession session (storage mgr) with
            | Rejected message => MkLoop mgr session transferState (Some message)
            | Resolved st =>
                let mgr := withStorage st mgr in
                let mgr := call (onProgress options) (progressed transferState) mgr in
                transfer_loop rest mgr session transferState
            end
        end
  end.

(** [remainingChunks] (lines 110-117). *)
Definition remainingChunks (session : LargeFileStorage.FileTransferSession)
  : list Z :=
  let completedChunkSet : gset Z :=
    list_to_set (LargeFileStorage.completedChunks session) in
  List.filter (fun i => negb (bool_decide (i ∈ completedChunkSet)))
              (seqZ 0 (LargeFileStorage.totalChunks session)).

(** The [catch] block (lines 160-166). *)
Definition caught (message : string) (transferState : TransferState)
           (mgr : manager) : manager :=
  let transferState :=
    withStatus transferState error (transferredChunks transferState)
               (canResume transferState) (Some message) in
  call (onError options) (failed message) (setState transferState mgr).

Definition resumeTransfer (mgr : manager) : outcome unit * manager :=
  match LargeFileStorage.getSession (resumeFileId options) (storage mgr) with
  | Rejected message => (Rejected message, mgr)
  | Resolved None => (Rejected "Session not found for resume", mgr)
  | Resolved (Some session) =>
      match activeSessions mgr !! resumeFileId options with
      | None => (Rejected "Transfer state not initialized", mgr)
      | Some transferState =>
          let mgr := setController (resumeFileId options) true mgr in
          let transferState :=
            withStatus transferState transferring (transferredChunks transferState)
                       (canResume transferState) (errorMessage transferState) in
          let mgr := setState transferState mgr in
          let after := transfer_loop (remainingChunks session) mgr session
                                     transferState in
          let mgr :=
            match thrown after with
            | Some message => caught message (transferState_ after) (mgr_ after)
            | None =>
                let transferState :=
                  withStatus (transferState_ after) complete
                             (transferredChunks (transferState_ after))
                             (canResume (transferState_ after))
                             (errorMessage (transferState_ after)) in
                let mgr := setState transferState (mgr_ after) in
                let session :=
                  withCompleted (session_ after)
                                (LargeFileStorage.completedChunks (session_ after))
                                true in
                match LargeFileStorage.saveSession session (storage mgr) with
                | Rejected message => caught message transferState mgr
                | Resolved st =>
                    call (onComplete options) completed (withStorage st mgr)
                end
            end in
          (Resolved tt, setController (resumeFileId options) false mgr)
      end
  end.

End ResumeTransfer.

End TransferSessionManager.

(* ================================================================== *)
(** * memoryOptimizedProcessor.ts: the checks around the chunker *)
(* ================================================================== *)

(** [verifyChunkHash], [getMemoryRequirement] and [canProcessFile]
    (lines 124-188).  [performance.memory.jsHeapSizeLimit] is a byte
    count where the browser has it and is absent elsewhere. *)
Module ProcessorChecks.

Local Open Scope Z_scope.

(** [verifyChunkHash(chunkData, expectedHash?)]: [!expectedHash] holds of
    [undefined] and of the empty string. *)
Definition verifyChunkHash (chunkData : list byte) (expectedHash : option string)
  : bool :=
  match expectedHash with
  | None => true
  | Some expected =>
      if String.eqb expected EmptyString then true
      else String.eqb (SHA256.hex chunkData) expected
  end.

Record MemoryRequirement := MkRequirement {
  chunkMemory : Z;
  totalChunks : Z;
  estimatedPeakUsage : Z
}.

Definition getMemoryRequirement (fileSize chunkSize : Z) : MemoryRequirement :=
  let totalChunks := JS.ceil_div fileSize chunkSize in
  let chunkMemory := chunkSize in
  let estimatedPeakUsage := chunkMemory + totalChunks * 32 + 1024 * 1024 in
  MkRequirement chunkMemory totalChunks estimatedPeakUsage.

Record Capability := MkCapability {
  canProcess : bool;
  recommendedChunkSize : Z;
  estimatedMemoryUsage : Z
}.

(** [canProcessFile(fileSize)].  The test
    [estimatedPeakUsage < availableMemory * 0.5] compares a byte count
    with half of a byte count; halving is exact, so the test is
    [2 * estimatedPeakUsage < availableMemory]. *)
Definition canProcessFile (jsHeapSizeLimit : option Z) (fileSize : Z) : Capability :=
  let chunkSize := MemoryOptimizedFileProcessor.getOptimalChunkSize fileSize in
  let memoryReq := getMemoryRequirement fileSize chunkSize in
  let availableMemory :=
    match jsHeapSizeLimit with
    | Some limit => limit
    | None => 512 * 1024 * 1024
    end in
  let canProcess := 2 * estimatedPeakUsage memoryReq <? availableMemory in
  MkCapability canProcess chunkSize (estimatedPeakUsage memoryReq).

End ProcessorChecks.

(* ================================================================== *)
(** * largeFileStorage.ts: whole-file operations *)
(* ================================================================== *)

(** [getAllChunks], [getAllSessions], [deleteFileData] and
    [assembleFile] (lines 90-105, 133-172, 198-217) on the store of
    [LargeFileStorage].  A stored chunk record is its [chunkIndex] and its
    [data].  [cleanupOldSessions] compares time stamps, which the store
    does not keep, and is not modelled. *)
Module StoredFiles.

Import LargeFileStorage.
Local Open Scope Z_scope.

(** The comparison [(a, b) => a.chunkIndex - b.chunkIndex]. *)
Definition by_index : relation (Z * list byte) :=
  fun a b => a.1 <= b.1.

#[global] Instance by_index_dec (a b : Z * list byte) : Decision (by_index a b).
Proof. unfold by_index. apply _. Defined.

(** [index.getAll(fileId)]: the chunk records stored under [fileId]. *)
Definition records (file : string) (st : store) : list (Z * list byte) :=
  omap (fun entry : string * Z * list byte =>
          if decide (entry.1.1 = file) then Some (entry.1.2, entry.2) else None)
       (map_to_list (chunks st)).

Definition getAllChunks (file : string) (st : store)
  : outcome (list (Z * list byte)) :=
  if db st
  then Resolved (merge_sort by_index (records file st))
  else Rejected "Database not initialized".

(** [store.getAll()] on the session store.  IndexedDB yields the records
    in key order; the list here holds the same records in the order of the
    finite map, and the statements below speak of membership only. *)
Definition getAllSessions (st : store) : outcome (list FileTransferSession) :=
  if db st
  then Resolved ((map_to_list (sessions st)).*2)
  else Rejected "Database not initialized".

(** [deleteFileData(fileId)]: one transaction that deletes every chunk
    record under [fileId] and the session. *)
Definition deleteFileData (file : string) (st : store) : outcome store :=
  if db st
  then Resolved (MkStore (db st)
                         (filter (fun entry : string * Z * list byte =>
                                    entry.1.1 <> file) (chunks st))
                         (delete file (sessions st)))
  else Rejected "Database not initialized".

(** [assembleFile(fileId)]: the bytes of the [Blob] and its type. *)
Definition assembleFile (file : string) (st : store)
  : outcome (list byte * string) :=
  match getAllChunks file st with
  | Rejected message => Rejected message
  | Resolved chunks =>
      match getSession file st with
      | Rejected message => Rejected message
      | Resolved None => Rejected "Session not found for file assembly"
      | Resolved (Some session) =>
          let expectedChunks := totalChunks session in
          if negb (JS.size chunks =? expectedChunks) then
            Rejected ("Missing chunks: expected " +:+ pretty expectedChunks
                      +:+ ", got " +:+ pretty (JS.size chunks))
          else
            let chunks := merge_sort by_index chunks in
            let buffers := map snd chunks in
            Resolved (concat buffers, fileType session)
      end
  end.

End StoredFiles.

(* ================================================================== *)
(** * src/components/FileUploader.tsx: [processLargeFile] *)
(* ================================================================== *)

(** [processLargeFile(file)] (lines 148-214), for a [File] as its
    signature declares.  [fileId] is the result of [uuidv4()].
    [processingFiles] maps a file name to a progress percentage that only
    drives the display; its keys are kept. *)
Module LargeFileProcessing.

Import LargeFileStorage.
Local Open Scope Z_scope.

Record state := MkState {
  storage : store;
  processingFiles : gset string;
  transferErrors : gmap string string
}.

(** The calls of [onChunkProcessed] (lines 168-176), in order: each
    stores one chunk; the first rejection ends the stream. *)
Fixpoint store_chunks (fileId : string) (delivered : list (Z * list byte))
         (st : store) : store * option string :=
  match delivered with
  | [] => (st, None)
  | (chunkIndex, chunkData) :: rest =>
      match storeChunk fileId chunkIndex chunkData st with
      | Rejected message => (st, Some message)
      | Resolved st => store_chunks fileId rest st
      end
  end.

(** [Math.round(bytes / 1024 / 1024)] on a byte count: both divisions
    are exact, and [Math.round] rounds a half upwards. *)
Definition megabytes (bytes : Z) : Z := (bytes + 524288) / 1048576.

(** The [catch] block (lines 202-213). *)
Definition caught (file : File) (message : string) (st : store) (s : state)
  : outcome string * state :=
  (Rejected message,
   MkState st (processingFiles s ∖ {[name file]})
           (<[name file := message]> (transferErrors s))).

Definition processLargeFile (jsHeapSizeLimit : option Z) (fileId : string)
           (file : File) (s : state) : outcome string * state :=
  let s := MkState (storage s) ({[name file]} ∪ processingFiles s)
                   (transferErrors s) in
  let canProcess :=
    ProcessorChecks.canProcessFile jsHeapSizeLimit (JS.size (content file)) in
  if negb (ProcessorChecks.canProcess canProcess) then
    caught file
           ("File too large for this device. Estimated memory needed: "
            +:+ pretty (megabytes (ProcessorChecks.estimatedMemoryUsage canProcess))
            +:+ "MB")
           (storage s) s
  else
    let chunkSize := ProcessorChecks.recommendedChunkSize canProcess in
    let '(result, delivered) :=
      MemoryOptimizedFileProcessor.processFileStream
        file (MemoryOptimizedFileProcessor.MkOptions chunkSize true None) in
    match store_chunks fileId delivered (storage s) with
    | (st, Some message) => caught file message st s
    | (st, None) =>
        match result with
        | Rejected message => caught file message st s
        | Resolved result =>
            let session :=
              MkSession fileId (name file) (JS.size (content file)) (type file)
                        (MemoryOptimizedFileProcessor.totalChunks result)
                        (seqZ 0 (MemoryOptimizedFileProcessor.totalChunks result))
                        (MemoryOptimizedFileProcessor.fileHash result)
                        true in
            match saveSession session st with
            | Rejected message => caught file message st s
            | Resolved st =>
                (Resolved fileId,
                 MkState st (processingFiles s ∖ {[name file]}) (transferErrors s))
            end
        end
    end.

End LargeFileProcessing.

(* ================================================================== *)
(** * transferSessionManager.ts: sessions *)
(* ================================================================== *)

(** [initializeSession], [pauseTransfer], [cancelTransfer],
    [getTransferState] and [getResumableTransfers] (lines 35-86, 172-204,
    296-307), called while no [resumeTransfer] is running: the abort
    controller of a file exists only during its [resumeTransfer], where
    [pausedBefore] stands for [pauseTransfer].
    [speedCalculationHistory] feeds the speed estimate only and is
    dropped with it. *)
Module Sessions.

Import TransferSessionManager.
Local Open Scope Z_scope.

Definition initializeSession (file_id : string) (file : File) (mgr : manager)
  : outcome TransferState * manager :=
  match LargeFileStorage.getSession file_id (storage mgr) with
  | Rejected message => (Rejected message, mgr)
  | Resolved found =>
      let created :=
        match found with
        | Some session => Resolved (session, storage mgr)
        | None =>
            let chunkSize :=
              MemoryOptimizedFileProcessor.getOptimalChunkSize
                (JS.size (content file)) in
            let totalChunks := JS.ceil_div (JS.size (content file)) chunkSize in
            let session :=
              LargeFileStorage.MkSession
                file_id (name file) (JS.size (content file)) (type file)
                totalChunks [] EmptyString false in
            match LargeFileStorage.saveSession session (storage mgr) with
            | Rejected message => Rejected message
            | Resolved st => Resolved (session, st)
            end
        end in
      match created with
      | Rejected message => (Rejected message, mgr)
      | Resolved (session, st) =>
          let completed := JS.size (LargeFileStorage.completedChunks session) in
          let transferState :=
            MkTransferState file_id idle completed
                            (LargeFileStorage.totalChunks session)
                            (0 <? completed) None in
          (Resolved transferState,
           MkManager st (<[file_id := transferState]> (activeSessions mgr))
                     (transferControllers mgr) (outbox mgr) (calls mgr))
      end
  end.

Definition pauseTransfer (file_id : string) (mgr : manager) : manager :=
  match activeSessions mgr !! file_id with
  | Some transferState =>
      MkManager (storage mgr)
                (<[file_id := withStatus transferState paused
                                         (transferredChunks transferState) true
                                         (errorMessage transferState)]>
                   (activeSessions mgr))
                (transferControllers mgr) (outbox mgr) (calls mgr)
  | None => mgr
  end.

Definition cancelTransfer (file_id : string) (deleteData : bool) (mgr : manager)
  : outcome unit * manager :=
  let mgr :=
    MkManager (storage mgr) (delete file_id (activeSessions mgr))
              (transferControllers mgr ∖ {[file_id]}) (outbox mgr) (calls mgr) in
  if deleteData then
    match StoredFiles.deleteFileData file_id (storage mgr) with
    | Rejected message => (Rejected message, mgr)
    | Resolved st => (Resolved tt, withStorage st mgr)
    end
  else (Resolved tt, mgr).

Definition getTransferState (file_id : string) (mgr : manager)
  : option TransferState :=
  activeSessions mgr !! file_id.

Definition getResumableTransfers (mgr : manager)
  : outcome (list LargeFileStorage.FileTransferSession) :=
  match StoredFiles.getAllSessions (storage mgr) with
  | Rejected message => Rejected message
  | Resolved sessions =>
      Resolved
        (List.filter
           (fun session =>
              negb (LargeFileStorage.isComplete session)
              && (0 <? JS.size (LargeFileStorage.completedChunks session)))
           sessions)
  end.

End Sessions.

(* ================================================================== *)
(** * src/components/FileUploader.tsx: the shared files and the connection *)
(* ================================================================== *)

(** [onDrop] and the data handler that [startSharing] installs on each
    connection (lines 101-145, 282-332).

    [onDrop] stores [{...file, id, preview, size, name, type}].  Spreading
    a [File] copies its own enumerable properties; the bytes are not among
    them, and the copy's prototype is [Object.prototype].  What [files]
    holds is therefore a plain object with these five fields: not a [File],
    not a [Blob], without [arrayBuffer] and without [slice]. *)
Module Sharing.

Local Open Scope Z_scope.

Record UploadedFile := MkUploaded {
  id : string;
  preview : option string;
  size : Z;
  name : string;
  type : string
}.




(** The uploader while sharing, seen from one connection: [files] and
    [password] are those of the render in which [startSharing] ran. *)
Record state := MkState {
  files : list UploadedFile;
  password : string;
  outbox : list Wire.message;
  transferErrors : gmap string string;
  completedTransfers : gmap string bool
}.

Definition send (m : Wire.message) (s : state) : state :=
  MkState (files s) (password s) (outbox s ++ [m]) (transferErrors s)
          (completedTransfers s).

Definition setTransferErrors (fileName error : string) (s : state) : state :=
  MkState (files s) (password s) (outbox s)
          (<[fileName := error]> (transferErrors s)) (completedTransfers s).

Definition setCompletedTransfers (fileName : string) (s : state) : state :=
  MkState (files s) (password s) (outbox s) (transferErrors s)
          (<[fileName := true]> (completedTransfers s)).

(** [sendFileInChunks(conn, file)] on such an object (lines 376-389,
    421-424, 544-563): [file instanceof File] and [file instanceof Blob]
    are false, so the validation throws before anything is read or sent;
    the inner [catch] wraps the message, the outer one notifies the peer
    and rethrows. *)
Definition sendFileInChunks (file : UploadedFile) (s : state)
  : outcome unit * state :=
  let thrown :=
    "File hash generation failed: " +:+ "Parameter is not a File or Blob object" in
  (Rejected thrown,
   send (Wire.transfer_error (name file) ("Transfer failed: " +:+ thrown)) s).

(** [conn.on('data', ...)] (lines 282-332). *)
Definition connectionData (data : Wire.message) (s : state) : state :=
  match data with
  | Wire.request_info =>
      let fileList := map (fun f => (name f, size f, type f)) (files s) in
      send (Wire.file_list fileList (negb (String.eqb (password s) EmptyString))) s
  | Wire.password supplied =>
      if negb (String.eqb (password s) EmptyString)
         && negb (String.eqb supplied (password s))
      then send Wire.auth_failed s
      else send Wire.auth_success s
  | Wire.request_file fileName =>
      match List.find (fun f => String.eqb (name f) fileName) (files s) with
      | Some file =>
          match sendFileInChunks file s with
          | (Resolved _, s) => setCompletedTransfers (name file) s
          | (Rejected errorMessage, s) =>
              let s := setTransferErrors (name file) errorMessage s in
              send (Wire.transfer_error (name file) errorMessage) s
          end
      | None => s
      end
  | Wire.file_complete fileName _ _ _ _ _ => setCompletedTransfers fileName s
  | Wire.file_error fileName error => setTransferErrors fileName error s
  | _ => s
  end.

End Sharing.

(* ================================================================== *)
(** * src/components/ResponsiveLayout.tsx, second document: the file list *)
(* ================================================================== *)

(** What [FileDownloader] does before a download: the connection's
    [open] handler, the branches of its data handler for the file list and
    the password exchange (lines 241-260), [submitPassword] (lines
    288-292) and the condition under which the file list and its download
    buttons are rendered (line 844). *)
Module Lobby.

Local Open Scope Z_scope.

Record state := MkState {
  connection : bool;
  outbox : list Wire.message;
  files : list (string * Z * string);
  passwordRequired : bool;
  password : string;
  authError : string
}.

Definition send (m : Wire.message) (s : state) : state :=
  MkState (connection s) (outbox s ++ [m]) (files s) (passwordRequired s)
          (password s) (authError s).

(** [conn.on('open', ...)] *)
Definition connectionOpen (s : state) : state :=
  send Wire.request_info
       (MkState true (outbox s) (files s) (passwordRequired s) (password s)
                (authError s)).

Definition connectionData (data : Wire.message) (s : state) : state :=
  match data with
  | Wire.file_list fileList required =>
      MkState (connection s) (outbox s) fileList required (password s)
              (authError s)
  | Wire.auth_failed =>
      MkState (connection s) (outbox s) (files s) (passwordRequired s)
              (password s) "Incorrect password"
  | Wire.auth_success =>
      MkState (connection s) (outbox s) (files s) false (password s) EmptyString
  | _ => s
  end.

(** The password input's [onChange]. *)
Definition setPassword (typed : string) (s : state) : state :=
  MkState (connection s) (outbox s) (files s) (passwordRequired s) typed
          (authError s).

Definition submitPassword (s : state) : state :=
  if connection s then send (Wire.password (password s)) s else s.

(** [files.length > 0 && !passwordRequired] *)
Definition fileListShown (s : state) : bool :=
  (0 <? JS.size (files s)) && negb (passwordRequired s).

(** The component as mounted: no connection yet. *)
Definition mounted : state :=
  MkState false [] [] false EmptyString EmptyString.

End Lobby.

(* ================================================================== *)
(** * Properties *)
(* ================================================================== *)

(** Split a conjunction into its conjuncts, and nothing else. *)
Ltac conjuncts := repeat match goal with |- _ /\ _ => split end.

Module JSFacts.

Import JS.
Local Open Scope Z_scope.

(** [ceil_div a b] is the least [q] with [a <= q * b]. *)
Lemma ceil_div_bounds (a b : Z) :
  0 < b -> (ceil_div a b - 1) * b < a <= ceil_div a b * b.
Proof.
  intros Hb. unfold ceil_div.
  pose proof (Z.div_mod (- a) b ltac:(lia)) as Hdm.
  pose proof (Z.mod_pos_bound (- a) b Hb) as Hr.
  nia.
Qed.

Lemma ceil_div_unique (a b q : Z) :
  0 < b -> (q - 1) * b < a <= q * b -> ceil_div a b = q.
Proof.
  intros Hb Hq. pose proof (ceil_div_bounds a b Hb). nia.
Qed.

Lemma ceil_div_nonneg (a b : Z) : 0 < b -> 0 <= a -> 0 <= ceil_div a b.
Proof. intros Hb Ha. pose proof (ceil_div_bounds a b Hb). nia. Qed.

(** A slice whose upper bound is clamped by [Math.min(start + c, size)]
    is the next [c] bytes, or what is left of them. *)
Lemma slice_clamped {A} (l : list A) (start c : Z) :
  0 <= start -> 0 < c ->
  slice l start (Z.min (start + c) (size l))
  = take (Z.to_nat c) (drop (Z.to_nat start) l).
Proof.
  intros Hs Hc. unfold slice, size.
  destruct (Z.le_ge_cases (start + c) (Z.of_nat (length l))) as [Hle | Hge].
  - rewrite Z.min_l by lia. f_equal. lia.
  - rewrite Z.min_r by lia.
    rewrite !take_ge; [reflexivity | |]; rewrite length_drop; lia.
Qed.

(** The first [k] clamped slices of width [c] concatenate to the first
    [k * c] bytes. *)
Lemma concat_slices {A} (l : list A) (c : Z) (k : nat) :
  0 < c ->
  concat (map (fun i => slice l (i * c) (Z.min ((i + 1) * c) (size l)))
              (seqZ 0 (Z.of_nat k)))
  = take (k * Z.to_nat c) l.
Proof.
  intros Hc. induction k as [| k IH].
  - reflexivity.
  - replace (Z.of_nat (S k)) with (Z.of_nat k + 1) by lia.
    rewrite seqZ_app by lia. rewrite map_app, concat_app, IH.
    cbn [seqZ]. simpl. rewrite app_nil_r.
    replace (Z.of_nat 0 + (0 + Z.of_nat k)) with (Z.of_nat k) by lia.
    replace ((Z.of_nat k + 1) * c) with (Z.of_nat k * c + c) by ring.
    rewrite slice_clamped by lia.
    replace (Z.to_nat (Z.of_nat k * c)) with (k * Z.to_nat c)%nat by nia.
    rewrite take_take_drop. f_equal. lia.
Qed.

Lemma length_concat_uniform {A} (n : nat) (ls : list (list A)) :
  Forall (fun l => length l = n) ls ->
  length (concat ls) = (length ls * n)%nat.
Proof.
  induction 1 as [| l ls Hl _ IH]; simpl.
  - reflexivity.
  - rewrite length_app, IH, Hl. reflexivity.
Qed.

Lemma hex_byte_length (b : byte) : String.length (hex_byte b) = 2%nat.
Proof. reflexivity. Qed.

End JSFacts.

Module SHA256Facts.

Import SHA256.

(** A digest is 32 bytes, whatever the input. *)
Lemma digest_length (buf : list byte) : length (digest buf) = 32%nat.
Proof. unfold digest. rewrite length_map. reflexivity. Qed.

(** FIPS 180-4 test vectors: the empty message and ["abc"]. *)
Example digest_empty :
  hex [] = "e3b0c44298fc1c149afbf4c8996fb92427ae41e4649b934ca495991b7852b855"%string.
Proof. vm_compute. reflexivity. Qed.

Example digest_abc :
  hex [Byte.x61; Byte.x62; Byte.x63]
  = "ba7816bf8f01cfea414140de5dae2223b00361a396177a9cb410ff61f20015ad"%string.
Proof. vm_compute. reflexivity. Qed.

End SHA256Facts.

Module ChunkerFacts.

Import JS JSFacts MemoryOptimizedFileProcessor.
Local Open Scope Z_scope.

Definition MiB : Z := 1024 * 1024.
Definition GiB : Z := 1024 * 1024 * 1024.
Definition KiB : Z := 1024.

Lemma getOptimalChunkSize_monotone (a b : Z) :
  a <= b -> getOptimalChunkSize a <= getOptimalChunkSize b.
Proof.
  intros Hab. unfold getOptimalChunkSize.
  repeat match goal with
         | |- context [?x <? ?y] => destruct (Z.ltb_spec x y)
         end; lia.
Qed.

(** C7: [getOptimalChunkSize] is the five-step policy of the chunker:
    256 KiB below 10 MiB, 512 KiB below 100 MiB, 1 MiB below 1 GiB,
    2 MiB below 10 GiB and 4 MiB from 10 GiB on; it never decreases when
    the file grows. *)
Theorem getOptimalChunkSize_steps (fileSize : Z) :
  0 <= fileSize ->
  (fileSize < 10 * MiB -> getOptimalChunkSize fileSize = 256 * KiB) /\
  (10 * MiB <= fileSize < 100 * MiB -> getOptimalChunkSize fileSize = 512 * KiB) /\
  (100 * MiB <= fileSize < 1 * GiB -> getOptimalChunkSize fileSize = 1 * MiB) /\
  (1 * GiB <= fileSize < 10 * GiB -> getOptimalChunkSize fileSize = 2 * MiB) /\
  (10 * GiB <= fileSize -> getOptimalChunkSize fileSize = 4 * MiB) /\
  (forall smaller, 0 <= smaller <= fileSize ->
     getOptimalChunkSize smaller <= getOptimalChunkSize fileSize).
Proof.
  intros _. unfold MiB, GiB, KiB.
  repeat split; intros;
    try (apply getOptimalChunkSize_monotone; lia);
    unfold getOptimalChunkSize;
    repeat match goal with
           | |- context [?x <? ?y] => destruct (Z.ltb_spec x y)
           end; lia.
Qed.

Lemma getOptimalChunkSize_steps_witness :
  getOptimalChunkSize (50 * MiB) = 512 * KiB /\
  getOptimalChunkSize (3 * MiB) <= getOptimalChunkSize (50 * MiB).
Proof.
  destruct (getOptimalChunkSize_steps (50 * MiB) ltac:(unfold MiB; lia))
    as (_ & H512 & _ & _ & _ & Hmono).
  split.
  - apply H512. unfold MiB. lia.
  - apply Hmono. unfold MiB. lia.
Defined.

(** C8, as the code has it: a file of exactly 260 MiB falls in the
    100 MiB - 1 GiB step, so its chunk size is 1 MiB (1048576 bytes) and
    it is cut into ceil(260 MiB / 1 MiB) = 260 chunks. *)
Theorem chunking_260MiB :
  getOptimalChunkSize (260 * 1024 * 1024) = 1048576 /\
  ceil_div (260 * 1024 * 1024) (getOptimalChunkSize (260 * 1024 * 1024)) = 260.
Proof. split; reflexivity. Qed.

(** C8 as stated fails: neither is 512 KiB selected for 260 MiB, nor is
    521 the chunk count (not even at 512 KiB, where it would be 520). *)
Lemma chunking_260MiB_not_512KiB :
  ~ (getOptimalChunkSize (260 * 1024 * 1024) = 524288 /\
     ceil_div (260 * 1024 * 1024) 524288 = 521) /\
  getOptimalChunkSize (260 * 1024 * 1024) <> 524288 /\
  ceil_div (260 * 1024 * 1024) 524288 <> 521 /\
  ceil_div (260 * 1024 * 1024) (getOptimalChunkSize (260 * 1024 * 1024)) <> 521.
Proof.
  repeat split; try (intros [H _]; revert H); vm_compute; discriminate.
Qed.

Section Loop.

Variable file : File.
Variable c : Z.
Variable cb : bool.
Variable sg : option (Z -> bool).

Let options := MkOptions c cb sg.

Hypothesis never_aborted : forall i, aborted sg i = false.

Lemma chunk_loop_completes (indices : list Z) (st : loop_state) :
  chunk_loop file options indices st
  = (fold_left (process_chunk file options) indices st, None).
Proof.
  revert st. induction indices as [| i rest IH]; intros st; simpl.
  - reflexivity.
  - rewrite never_aborted. apply IH.
Qed.

Lemma fold_process_chunk (indices : list Z) (st : loop_state) :
  fold_left (process_chunk file options) indices st
  = {| combinedHashes :=
         combinedHashes st
         ++ map (fun i => SHA256.digest (readFileChunk file i c)) indices;
       processedChunks := processedChunks st + Z.of_nat (length indices);
       delivered :=
         if cb
         then delivered st ++ map (fun i => (i, readFileChunk file i c)) indices
         else delivered st |}.
Proof.
  revert st. induction indices as [| i rest IH]; intros [hs n log]; simpl.
  - rewrite !app_nil_r, Z.add_0_r. destruct cb; reflexivity.
  - rewrite IH. unfold process_chunk, readFileChunk. simpl.
    rewrite <- !app_assoc. simpl. f_equal; [lia |].
    destruct cb; [rewrite <- app_assoc |]; reflexivity.
Qed.

End Loop.

(** Writing 32-byte digests at [index * 32] into a zeroed buffer of
    [32 * n] bytes yields their concatenation. *)
Lemma combine_hashes_from (hs : list (list byte)) (pre : list byte) (k : nat) :
  Forall (fun h => length h = 32%nat) hs ->
  length pre = (k * 32)%nat ->
  fold_left
    (fun buffer entry => typed_array_set buffer (snd entry) (fst entry * 32)%nat)
    (combine (seq k (length hs)) hs)
    (pre ++ replicate (length hs * 32) Byte.x00)
  = pre ++ concat hs.
Proof.
  intros Hall. revert pre k.
  induction Hall as [| h hs Hh Hall IH]; intros pre k Hpre.
  - reflexivity.
  - cbn [length seq combine fold_left fst snd concat].
    replace (S (length hs) * 32)%nat with (32 + length hs * 32)%nat by lia.
    rewrite replicate_add. unfold typed_array_set at 2.
    rewrite take_app_length' by lia.
    rewrite (app_assoc pre (replicate 32 Byte.x00)).
    rewrite drop_app_length' by (rewrite length_app, length_replicate; lia).
    rewrite (app_assoc pre h).
    rewrite (IH (pre ++ h) (S k)) by (rewrite length_app; lia).
    rewrite <- app_assoc. reflexivity.
Qed.

Lemma combine_hashes_concat (hs : list (list byte)) :
  Forall (fun h => length h = 32%nat) hs -> combine_hashes hs = concat hs.
Proof.
  intros Hall. unfold combine_hashes.
  apply (combine_hashes_from hs [] 0 Hall). reflexivity.
Qed.

Lemma readFileChunk_slice (file : File) (i c : Z) :
  readFileChunk file i c
  = slice (content file) (i * c) (Z.min ((i + 1) * c) (size (content file))).
Proof.
  unfold readFileChunk. cbv zeta. do 2 f_equal. ring.
Qed.

(** What [processFileStream] returns when the signal never aborts it. *)
Lemma processFileStream_completes (file : File) (c : Z) (cb : bool)
      (sg : option (Z -> bool)) :
  (forall i, aborted sg i = false) ->
  let n := ceil_div (size (content file)) c in
  processFileStream file (MkOptions c cb sg)
  = (Resolved
       (MkResult
          (SHA256.hex
             (combine_hashes
                (map (fun i => SHA256.digest (readFileChunk file i c)) (seqZ 0 n))))
          n (size (content file))),
     if cb then map (fun i => (i, readFileChunk file i c)) (seqZ 0 n) else []).
Proof.
  intros Hsg n. unfold processFileStream.
  cbn [chunkSize signal onChunkProcessed]. fold n.
  rewrite chunk_loop_completes by exact Hsg.
  rewrite fold_process_chunk. cbn [combinedHashes delivered app].
  destruct cb; reflexivity.
Qed.


Definition notes_txt : File :=
  MkFile "notes.txt" "text/plain"
    [Byte.x7a; Byte.x61; Byte.x70; Byte.x64; Byte.x72;
     Byte.x6f; Byte.x70; Byte.x21; Byte.x21; Byte.x0a].


(** C6: the fingerprint [processFileStream] returns is the SHA-256
    digest (in hexadecimal) of the concatenation, in chunk-index order, of
    the 32-byte SHA-256 digests of the chunk payloads, a string of
    [totalChunks * 32] bytes. *)
Theorem fingerprint_is_digest_of_digests
        (file : File) (c : Z) (cb : bool) (sg : option (Z -> bool)) :
  0 < c ->
  (forall i, aborted sg i = false) ->
  let n := ceil_div (size (content file)) c in
  let chunks := map (fun i => readFileChunk file i c) (seqZ 0 n) in
  let rollup := concat (map SHA256.digest chunks) in
  size rollup = n * 32 /\
  Forall (fun d => length d = 32%nat) (map SHA256.digest chunks) /\
  exists log,
    processFileStream file (MkOptions c cb sg)
    = (Resolved (MkResult (SHA256.hex rollup) n (size (content file))), log).
Proof.
  intros Hc Hsg n chunks rollup.
  assert (Forall (fun d => length d = 32%nat) (map SHA256.digest chunks)) as Hall.
  { apply List.Forall_forall. intros d Hd. apply in_map_iff in Hd.
    destruct Hd as (x & <- & _). apply SHA256Facts.digest_length. }
  assert (0 <= n) as Hn0 by (apply ceil_div_nonneg; unfold size; lia).
  repeat split.
  - unfold rollup, size.
    rewrite (length_concat_uniform 32%nat) by exact Hall.
    unfold chunks. rewrite !length_map, length_seqZ. lia.
  - exact Hall.
  - eexists. rewrite processFileStream_completes by exact Hsg. fold n.
    rewrite <- map_map. fold chunks.
    rewrite combine_hashes_concat by exact Hall. reflexivity.
Qed.

Lemma fingerprint_is_digest_of_digests_witness :
  exists log,
    processFileStream notes_txt (MkOptions 4 false None)
    = (Resolved
         (MkResult
            (SHA256.hex
               (SHA256.digest [Byte.x7a; Byte.x61; Byte.x70; Byte.x64]
                ++ SHA256.digest [Byte.x72; Byte.x6f; Byte.x70; Byte.x21]
                ++ SHA256.digest [Byte.x21; Byte.x0a]))
            3 10),
       log).
Proof.
  destruct (fingerprint_is_digest_of_digests notes_txt 4 false None
              ltac:(lia) ltac:(reflexivity)) as (_ & _ & log & Hrun).
  exists log. rewrite Hrun. vm_compute. reflexivity.
Defined.

End ChunkerFacts.

Module SenderFacts.

Import JS JSFacts Wire FileUploader.
Local Open Scope Z_scope.

Section Activation.

Variable file : File.

Local Abbreviation run := (run file).
Local Abbreviation step := (step file).
Local Abbreviation start := FileUploader.start.
Local Abbreviation chunk_message := (chunk_message file).
Local Abbreviation total := (totalChunks file).




(** The chunk messages for the indices below [k], in order. *)
Definition sent_chunks (k : Z) : list message :=
  map chunk_message (seqZ 0 k).

(** The two notifications a failure sends to the peer. *)
Definition failure_notices (message : string) : list Wire.message :=
  [transfer_error (name file) ("Transfer failed: " +:+ message);
   transfer_error (name file) message].

(** An acknowledgement of chunk [j] has been received, after chunk [j]
    was sent. *)
Definition acked (events : list event) (j : Z) : Prop :=
  exists before after,
    events = before ++ Data (chunk_ack (name file) j) :: after /\
    In (chunk_message j) (outbox (run start before)).

Definition acked_below (events : list event) (k : Z) : Prop :=
  forall j, 0 <= j < k -> acked events j.

Lemma acked_later (events : list event) (e : event) (j : Z) :
  acked events j -> acked (events ++ [e]) j.
Proof.
  intros (before & after & -> & Hsent).
  exists before, (after ++ [e]). split; [| exact Hsent].
  rewrite <- app_assoc. reflexivity.
Qed.

Lemma acked_below_later (events : list event) (e : event) (k : Z) :
  acked_below events k -> acked_below (events ++ [e]) k.
Proof. intros H j Hj. apply acked_later, H, Hj. Qed.




(** What has been sent, and which acknowledgements have been received,
    at each suspension point. *)
Definition shape (events : list event) (s : state) : Prop :=
  match at_ s with
  | Hashing => outbox s = []
  | ReadingChunk i =>
      0 <= i < total /\
      outbox s = file_start_message file :: sent_chunks i /\
      acked_below events i
  | AwaitingAck i _ _ =>
      0 <= i < total /\
      outbox s = file_start_message file :: sent_chunks (i + 1) /\
      acked_below events i /\
      (i ∉ pendingChunks s -> acked events i)
  | Pausing i _ =>
      0 <= i < total /\
      outbox s = file_start_message file :: sent_chunks (i + 1) /\
      acked_below events (i + 1)
  | AwaitingFinal _ | Settled (Resolved _) =>
      outbox s = file_start_message file :: sent_chunks total /\
      acked_below events total
  | Settled (Rejected message) =>
      exists k,
        0 <= k <= total /\
        outbox s
        = file_start_message file :: sent_chunks k ++ failure_notices message /\
        acked_below events (k - 1)
  end.








Lemma shape_settled (events : list event) (e : event) (s s' : state)
      (r : outcome unit) :
  at_ s = Settled r -> at_ s' = at_ s -> outbox s' = outbox s ->
  shape events s -> shape (events ++ [e]) s'.
Proof.
  unfold shape. intros Hat -> ->. rewrite Hat.
  destruct r as [[] | message].
  - intros (Hout & Hack). eauto using acked_below_later.
  - intros (k & Hk & Hout & Hack). exists k. eauto using acked_below_later.
Qed.




(** ** Waiting for an acknowledgement *)







(** ** What the outbox holds *)



(** ** A run in which the receiver cooperates *)

(** What happens around chunk [i] when its acknowledgement arrives at
    once: read, send, acknowledgement, poll, pause. *)
Definition round (i : Z) : list event :=
  [IoDone; Data (chunk_ack (name file) i);
   Advance 50; Fires PollTimer; Advance 10; Fires DelayTimer].


Definition confirmation : message :=
  file_complete (name file) true (size (content file))
                (SHA256.hex (content file)) total true.











End Activation.







(** On the empty file the two fingerprints coincide: both are the digest
    of the empty string. *)
Lemma fingerprints_agree_on_empty_file (fileName fileType : string) (c : Z) :
  0 < c ->
  let file := MkFile fileName fileType [] in
  fst (MemoryOptimizedFileProcessor.processFileStream
         file (MemoryOptimizedFileProcessor.MkOptions c true None))
  = Resolved
      (MemoryOptimizedFileProcessor.MkResult (SHA256.hex (content file)) 0 0).
Proof.
  intros Hc file. unfold MemoryOptimizedFileProcessor.processFileStream.
  cbn [content MemoryOptimizedFileProcessor.chunkSize]. cbn [file content].
  change (size []) with 0.
  assert (ceil_div 0 c = 0) as -> by (apply ceil_div_unique; lia).
  reflexivity.
Qed.

End SenderFacts.

Module ReceiverFacts.

Import JS JSFacts Wire FileDownloader.
Local Open Scope Z_scope.

(** ** The scan and the reconstruction of [completeFileDownload] *)

Definition chunk_at (chunks : gmap Z (list byte)) (i : Z) : list byte :=
  default [] (chunks !! i).


(** The indices below [total] that have no stored chunk, in order. *)
Definition missing_indices (chunks : gmap Z (list byte)) (total : Z) : list Z :=
  List.filter (fun i => bool_decide (chunks !! i = None)) (seqZ 0 total).

(** The stored chunks concatenated in index order. *)
Definition reassembled (chunks : gmap Z (list byte)) (total : Z) : list byte :=
  concat (map (chunk_at chunks) (seqZ 0 total)).

Definition nonempty_chunks (chunks : gmap Z (list byte)) : Prop :=
  forall i chunk, chunks !! i = Some chunk -> chunk <> [].


Lemma size_zero {A} (l : list A) : (size l =? 0) = true <-> l = [].
Proof.
  unfold size. rewrite Z.eqb_eq. destruct l; simpl; split; intros H;
    try reflexivity; try discriminate; lia.
Qed.


Section Scan.

Variable chunks : gmap Z (list byte).






End Scan.

(** ** The three checks of [completeFileDownload] *)

Section Completion.

Variable name : string.
Variable chunks : gmap Z (list byte).
Variable total expectedFileSize : Z.
Variable expectedFileHash : string.
Variable s : state.

Let s' := completeFileDownload name chunks total expectedFileSize expectedFileHash s.
Let bytes := reassembled chunks total.
Let missing := missing_indices chunks total.




Definition failed_with (wire local : string) : Prop :=
  outbox s' = outbox s ++ [file_error name wire] /\
  downloadErrors s' !! name = Some local /\
  downloadedFiles s' = downloadedFiles s /\
  verifiedFiles s' = verifiedFiles s.


Hypothesis stored_nonempty : nonempty_chunks chunks.



End Completion.






(** ** The handler stores only non-empty chunks *)


Definition handler_nonempty (s : state) : Prop :=
  match currentDownloadHandler s with
  | Some d => nonempty_chunks (fileChunks d)
  | None => True
  end.

Lemma completeFileDownload_handler (name : string) (chunks : gmap Z (list byte))
      (total expectedFileSize : Z) (expectedFileHash : string) (s : state) :
  currentDownloadHandler
    (completeFileDownload name chunks total expectedFileSize expectedFileHash s)
  = currentDownloadHandler s.
Proof.
  unfold completeFileDownload. cbv zeta.
  repeat match goal with
         | |- context [if ?b then _ else _] => destruct b
         | |- context [match ?x with inl _ => _ | inr _ => _ end] => destruct x
         end; reflexivity.
Qed.

Lemma connectionData_nonempty (data : message) (s : state) :
  handler_nonempty s -> handler_nonempty (connectionData data s).
Proof.
  unfold handler_nonempty. intros Hs.
  destruct data; try exact Hs; cbn [connectionData]; unfold handleFileChunk.
  - destruct (currentDownloadHandler s) as [d |] eqn:Hd; [| rewrite Hd; exact I].
    cbn [handler]. destruct (String.eqb _ _); [exact Hs | rewrite Hd; exact Hs].
  - destruct (currentDownloadHandler s) as [d |] eqn:Hd; [| rewrite Hd; exact I].
    cbn [handler]. destruct (String.eqb _ _); [| rewrite Hd; exact Hs].
    destruct data as [chunkData | typeOf]; [| cbn; rewrite Hd; exact Hs].
    destruct (size chunkData =? 0) eqn:Hsize; [cbn; rewrite Hd; exact Hs |].
    assert (nonempty_chunks (<[chunkIndex := chunkData]> (fileChunks d))) as Hne.
    { intros i chunk Hi. apply lookup_insert_Some in Hi.
      destruct Hi as [[_ <-] | [_ Hi]]; [| exact (Hs i chunk Hi)].
      intros ->. discriminate Hsize. }
    destruct (_ || _); [rewrite completeFileDownload_handler |]; exact Hne.
Qed.

Lemma downloadFile_nonempty (name : string) (s : state) :
  handler_nonempty s -> handler_nonempty (downloadFile name s).
Proof.
  unfold handler_nonempty, downloadFile. intros Hs.
  destruct (connection s); [| exact Hs].
  cbn. intros i chunk Hi. rewrite lookup_empty in Hi. discriminate Hi.
Qed.

(** ** One handler slot for all downloads *)

(** A single download works: the chunk is stored in the handler's map and
    acknowledged. *)
Lemma single_download_stores_and_acks
      (A : string) (chunkIndex total : Z) (chunkData : list byte) (s : state) :
  connection s = true ->
  size chunkData <> 0 ->
  let requested := downloadFile A s in
  let s' := connectionData (file_chunk A chunkIndex total (Bytes chunkData) false)
                           requested in
  outbox s' = outbox requested ++ [chunk_ack A chunkIndex] /\
  exists d,
    currentDownloadHandler s' = Some d /\
    fileName d = A /\
    fileChunks d !! chunkIndex = Some chunkData.
Proof.
  intros Hconn Hsize requested s'. subst requested s'.
  unfold downloadFile. rewrite Hconn.
  cbn [connectionData]. unfold handleFileChunk.
  cbn [currentDownloadHandler send setHandler setIsDownloading handler fileName].
  rewrite String.eqb_refl.
  replace (size chunkData =? 0) with false
    by (symmetry; apply Z.eqb_neq; exact Hsize).
  cbn [receivedChunks totalChunks orb].
  change (0 + 1 =? 0) with false. cbv iota.
  cbn. split; [reflexivity |].
  eexists. conjuncts; try reflexivity. apply lookup_insert_eq.
Qed.

(** With downloads of two distinct files [A] and [B] requested over one
    connection, [A] first, an inbound [file-chunk] (or [file-start]) for
    [A] changes nothing: it is not stored, and no [chunk-ack] is sent.  The
    handler slot holds only [B]'s closure. *)
Lemma second_download_silences_first
        (A B : string) (chunkIndex total : Z) (data : payload) (isLast : bool)
        (fileSize : Z) (fileType fileHash : string) (s : state) :
  A <> B ->
  connection s = true ->
  let both := downloadFile B (downloadFile A s) in
  outbox both = outbox s ++ [request_file A; request_file B] /\
  (exists d, currentDownloadHandler both = Some d /\ fileName d = B) /\
  connectionData (file_chunk A chunkIndex total data isLast) both = both /\
  connectionData (file_start A fileSize fileType total fileHash) both = both.
Proof.
  intros Hne Hconn both. subst both.
  unfold downloadFile. rewrite Hconn.
  cbn [connection setIsDownloading setHandler send]. rewrite Hconn.
  cbn [connection outbox currentDownloadHandler isDownloading downloadedFiles
       downloadErrors verifiedFiles].
  assert (String.eqb A B = false) as Hneq by (apply String.eqb_neq; exact Hne).
  conjuncts.
  - cbn [outbox send setHandler setIsDownloading].
    rewrite <- app_assoc. reflexivity.
  - eexists. split; reflexivity.
  - cbn [connectionData]. unfold handleFileChunk.
    cbn [currentDownloadHandler handler fileName send setHandler setIsDownloading].
    rewrite Hneq. reflexivity.
  - cbn [connectionData]. unfold handleFileChunk.
    cbn [currentDownloadHandler handler fileName send setHandler setIsDownloading].
    rewrite Hneq. reflexivity.
Qed.

(** C9 does not hold of this code.  The "Download All Files" button
    requests ["a.txt"] and ["b.txt"] over one connection; the first chunk
    of ["a.txt"] then arrives.  It is dropped: the receiver's state is
    unchanged, so the chunk is not stored, and no [chunk-ack] for it is
    sent. *)
Theorem download_all_drops_first_file :
  let requested := downloadAllFiles ["a.txt"; "b.txt"]%string connected in
  let chunk := file_chunk "a.txt" 0 1 (Bytes [Byte.x68; Byte.x69]) true in
  outbox requested = [request_file "a.txt"; request_file "b.txt"] /\
  connectionData chunk requested = requested /\
  ~ In (chunk_ack "a.txt" 0) (outbox (connectionData chunk requested)).
Proof.
  cbv zeta.
  destruct (second_download_silences_first
              "a.txt" "b.txt" 0 1 (Bytes [Byte.x68; Byte.x69]) true 2 EmptyString EmptyString
              connected ltac:(discriminate) eq_refl)
    as (Hout & _ & Hchunk & _).
  change (downloadAllFiles ["a.txt"; "b.txt"]%string connected)
    with (downloadFile "b.txt" (downloadFile "a.txt" connected)).
  conjuncts.
  - exact Hout.
  - exact Hchunk.
  - rewrite Hchunk, Hout. cbn. intros [H | [H | []]]; discriminate H.
Qed.

End ReceiverFacts.

Module ManagerFacts.

Import JS JSFacts Wire TransferSessionManager.
Local Open Scope Z_scope.

(** ** The remaining chunks *)

Lemma seqZ_sorted (k : nat) (m : Z) :
  StronglySorted Z.lt (seqZ m (Z.of_nat k)).
Proof.
  revert m. induction k as [| k IH]; intros m.
  - constructor.
  - rewrite seqZ_cons by lia.
    replace (Z.pred (Z.of_nat (S k))) with (Z.of_nat k) by lia.
    constructor; [apply IH |].
    apply List.Forall_forall. intros i Hi.
    apply list_elem_of_In, elem_of_seqZ in Hi. lia.
Qed.

Lemma filter_sorted {A} (R : A -> A -> Prop) (p : A -> bool) (l : list A) :
  StronglySorted R l -> StronglySorted R (List.filter p l).
Proof.
  induction 1 as [| x l Hsorted IH Hall]; cbn; [constructor |].
  destruct (p x); [| exact IH].
  constructor; [exact IH |].
  apply List.Forall_forall. intros y Hy. apply filter_In in Hy.
  rewrite List.Forall_forall in Hall. apply Hall, Hy.
Qed.

Lemma remainingChunks_spec (session : LargeFileStorage.FileTransferSession) :
  let remaining := remainingChunks session in
  (forall i,
      In i remaining <->
      0 <= i < LargeFileStorage.totalChunks session /\
      ~ In i (LargeFileStorage.completedChunks session)) /\
  StronglySorted Z.lt remaining /\
  NoDup remaining.
Proof.
  intros remaining. subst remaining. unfold remainingChunks. cbv zeta.
  assert (StronglySorted Z.lt
            (seqZ 0 (LargeFileStorage.totalChunks session))) as Hsorted.
  { destruct (Z.le_gt_cases 0 (LargeFileStorage.totalChunks session)) as [Hge | Hlt].
    - replace (LargeFileStorage.totalChunks session)
        with (Z.of_nat (Z.to_nat (LargeFileStorage.totalChunks session))) by lia.
      apply seqZ_sorted.
    - unfold seqZ. replace (Z.to_nat (LargeFileStorage.totalChunks session))
        with 0%nat by lia. constructor. }
  conjuncts.
  - intros i. rewrite filter_In, negb_true_iff, bool_decide_eq_false.
    rewrite elem_of_list_to_set, <- !list_elem_of_In, elem_of_seqZ.
    split; intros [Hrange Hnot]; (split; [lia | exact Hnot]).
  - apply filter_sorted, Hsorted.
  - apply NoDup_ListNoDup. apply List.NoDup_filter. apply NoDup_ListNoDup.
    apply NoDup_seqZ.
Qed.

Lemma remainingChunks_nil (session : LargeFileStorage.FileTransferSession) :
  (forall i, 0 <= i < LargeFileStorage.totalChunks session ->
             In i (LargeFileStorage.completedChunks session)) ->
  remainingChunks session = [].
Proof.
  intros Hall. destruct (remainingChunks session) as [| i rest] eqn:Hr;
    [reflexivity |].
  destruct (remainingChunks_spec session) as (Hin & _).
  rewrite Hr in Hin. destruct (proj1 (Hin i) ltac:(left; reflexivity)) as (Hi & Hnot).
  exfalso. apply Hnot, Hall, Hi.
Qed.

(** ** The transfer loop *)

Lemma withCompleted_same (session : LargeFileStorage.FileTransferSession) :
  withCompleted session (LargeFileStorage.completedChunks session ++ [])
                (LargeFileStorage.isComplete session)
  = session.
Proof. destruct session. cbn. rewrite app_nil_r. reflexivity. Qed.

Lemma call_frame (present : bool) (c : callback) (mgr : manager) :
  storage (call present c mgr) = storage mgr /\
  activeSessions (call present c mgr) = activeSessions mgr /\
  transferControllers (call present c mgr) = transferControllers mgr /\
  outbox (call present c mgr) = outbox mgr.
Proof. destruct present; conjuncts; reflexivity. Qed.

Section Resume.

Variable options : ResumeOptions.
Variable env : environment.

Local Abbreviation fid := (resumeFileId options).

(** The [large-file-chunk] message that carries chunk [i] of a session. *)
Definition chunkMessage (session : LargeFileStorage.FileTransferSession)
           (st : LargeFileStorage.store) (i : Z) : message :=
  let data := default [] (LargeFileStorage.chunks st !! (fid, i)) in
  large_file_chunk (LargeFileStorage.fileId session)
                   (LargeFileStorage.fileName session) i
                   (LargeFileStorage.totalChunks session)
                   data (size data) (LargeFileStorage.fileHash session).

(** Chunk [i] is in the store, no pause precedes it, and the peer
    acknowledges it. *)
Definition cooperative_at (st : LargeFileStorage.store) (i : Z) : Prop :=
  replies env i = AckSuccess /\
  pausedBefore env i = false /\
  is_Some (LargeFileStorage.chunks st !! (fid, i)).

Lemma transfer_loop_spec (rest : list Z) :
  forall mgr session ts,
    LargeFileStorage.db (storage mgr) = true ->
    LargeFileStorage.sessions (storage mgr) !! fid = Some session ->
    LargeFileStorage.fileId session = fid ->
    activeSessions mgr !! fileId ts = Some ts ->
    let after := transfer_loop options env rest mgr session ts in
    exists k a : nat,
      (a <= k <= a + 1)%nat /\ (k <= length rest)%nat /\
      outbox (mgr_ after)
      = outbox mgr ++ map (chunkMessage session (storage mgr)) (take k rest) /\
      session_ after
      = withCompleted session
                      (LargeFileStorage.completedChunks session ++ take a rest)
                      (LargeFileStorage.isComplete session) /\
      LargeFileStorage.sessions (storage (mgr_ after))
      = <[fid := session_ after]> (LargeFileStorage.sessions (storage mgr)) /\
      LargeFileStorage.db (storage (mgr_ after)) = true /\
      LargeFileStorage.chunks (storage (mgr_ after))
      = LargeFileStorage.chunks (storage mgr) /\
      fileId (transferState_ after) = fileId ts /\
      activeSessions (mgr_ after)
      = <[fileId ts := transferState_ after]> (activeSessions mgr) /\
      transferControllers (mgr_ after) = transferControllers mgr /\
      (thrown after = None ->
       k = length rest /\ a = length rest /\
       transferState_ after
       = withStatus ts (status ts) (transferredChunks ts + Z.of_nat a)
                    (canResume ts) (errorMessage ts)) /\
      ((forall i, In i rest -> cooperative_at (storage mgr) i) ->
       thrown after = None).
Proof.
  induction rest as [| i rest IH]; intros mgr session ts Hdb Hsess Hkey Hts after.
  - exists 0%nat, 0%nat. subst after.
    cbn [transfer_loop mgr_ session_ transferState_ thrown take length map app].
    rewrite app_nil_r, withCompleted_same.
    conjuncts; try reflexivity; try lia; try assumption.
    + symmetry. apply insert_id. exact Hsess.
    + symmetry. apply insert_id. exact Hts.
    + intros _. conjuncts; try reflexivity.
      destruct ts. cbn. rewrite Z.add_0_r. reflexivity.
  - subst after. cbn [transfer_loop].
    destruct (pausedBefore env i) eqn:Hpaused.
    { (* paused before chunk [i] *)
      exists 0%nat, 0%nat.
      cbn [mgr_ session_ transferState_ thrown take length map app outbox send
           setState storage activeSessions transferControllers].
      rewrite app_nil_r, withCompleted_same.
      conjuncts; try reflexivity; try lia; try assumption.
      - symmetry. apply insert_id. exact Hsess.
      - discriminate.
      - intros Hcoop. destruct (Hcoop i ltac:(left; reflexivity)) as (_ & Hp & _).
        congruence. }
    unfold transferChunk, LargeFileStorage.getSession, LargeFileStorage.getChunk.
    rewrite Hdb, Hsess.
    destruct (LargeFileStorage.chunks (storage mgr) !! (fid, i)) as [data |] eqn:Hdata.
    2:{ (* the chunk is not in the store *)
      exists 0%nat, 0%nat.
      cbn [mgr_ session_ transferState_ thrown take length map app outbox send
           setState storage activeSessions transferControllers].
      rewrite app_nil_r, withCompleted_same.
      conjuncts; try reflexivity; try lia; try assumption.
      - symmetry. apply insert_id. exact Hsess.
      - symmetry. apply insert_id. exact Hts.
      - discriminate.
      - intros Hcoop. destruct (Hcoop i ltac:(left; reflexivity)) as (_ & _ & Hs).
        destruct Hs as (x & Hx). congruence. }
    assert (large_file_chunk (LargeFileStorage.fileId session)
                             (LargeFileStorage.fileName session) i
                             (LargeFileStorage.totalChunks session)
                             data (size data) (LargeFileStorage.fileHash session)
            = chunkMessage session (storage mgr) i) as Hmsg.
    { unfold chunkMessage. rewrite Hdata. reflexivity. }
    cbv zeta. rewrite Hmsg.
    destruct (replies env i) eqn:Hreply.
    + (* acknowledged *)
      unfold LargeFileStorage.saveSession.
      cbn [storage setState send]. rewrite Hdb.
      cbn [LargeFileStorage.fileId withCompleted]. rewrite Hkey.
      set (ts' := withStatus ts (status ts) (transferredChunks ts + 1)
                             (canResume ts) (errorMessage ts)).
      set (session' := withCompleted session
                         (LargeFileStorage.completedChunks session ++ [i])
                         (LargeFileStorage.isComplete session)).
      set (st' := LargeFileStorage.MkStore _ _ _).
      set (mgr' := call (onProgress options) (progressed ts') _).
      destruct (call_frame (onProgress options) (progressed ts')
                  (withStorage st' (setState ts' (send (chunkMessage session (storage mgr) i) mgr))))
        as (Hst & Hact & Hctl & Hout).
      fold mgr' in Hst, Hact, Hctl, Hout.
      cbn [storage activeSessions transferControllers outbox withStorage setState send]
        in Hst, Hact, Hctl, Hout.
      destruct (IH mgr' session' ts') as (k & a & Hka & Hk & Ho & Hs & Hl & Hd & Hc & Hf & Ha & Ht & Hnone & Hcoop).
      * rewrite Hst. reflexivity.
      * rewrite Hst. cbn. apply lookup_insert_eq.
      * exact Hkey.
      * rewrite Hact. apply lookup_insert_eq.
      * exists (S k), (S a).
        assert (forall j, chunkMessage session' (storage mgr') j
                          = chunkMessage session (storage mgr) j) as Hsame
            by (intros j; unfold chunkMessage; rewrite Hst; reflexivity).
        conjuncts; try lia.
        -- cbn [length]. lia.
        -- rewrite Ho, Hout. cbn [take map]. rewrite <- app_assoc. cbn [app].
           do 2 f_equal. apply map_ext. exact Hsame.
        -- rewrite Hs. unfold session'. cbn [withCompleted LargeFileStorage.completedChunks
             LargeFileStorage.isComplete LargeFileStorage.fileId LargeFileStorage.fileName
             LargeFileStorage.fileSize LargeFileStorage.fileType LargeFileStorage.totalChunks
             LargeFileStorage.fileHash take].
           rewrite <- app_assoc. reflexivity.
        -- rewrite Hl, Hst. cbn [LargeFileStorage.sessions st'].
           apply insert_insert_eq.
        -- exact Hd.
        -- rewrite Hc, Hst. reflexivity.
        -- exact Hf.
        -- rewrite Ha, Hact. apply insert_insert_eq.
        -- rewrite Ht, Hctl. reflexivity.
        -- intros Hn. destruct (Hnone Hn) as (-> & -> & Hstate).
           conjuncts; try reflexivity. rewrite Hstate. unfold ts', withStatus. cbn.
           f_equal. lia.
        -- intros Hall. apply Hcoop. intros j Hj.
           destruct (Hall j ltac:(right; exact Hj)) as (H1 & H2 & H3).
           unfold cooperative_at. rewrite Hst. conjuncts; assumption.
    + (* refused *)
      exists 1%nat, 0%nat.
      cbn [mgr_ session_ transferState_ thrown take length map app outbox send
           setState storage activeSessions transferControllers].
      rewrite withCompleted_same.
      conjuncts; try reflexivity; try lia; try assumption.
      * symmetry. apply insert_id. exact Hsess.
      * symmetry. apply insert_id. exact Hts.
      * discriminate.
      * intros Hcoop. destruct (Hcoop i ltac:(left; reflexivity)) as (Hr & _).
        congruence.
    + (* the 30 s timer *)
      exists 1%nat, 0%nat.
      cbn [mgr_ session_ transferState_ thrown take length map app outbox send
           setState storage activeSessions transferControllers].
      rewrite withCompleted_same.
      conjuncts; try reflexivity; try lia; try assumption.
      * symmetry. apply insert_id. exact Hsess.
      * symmetry. apply insert_id. exact Hts.
      * discriminate.
      * intros Hcoop. destruct (Hcoop i ltac:(left; reflexivity)) as (Hr & _).
        congruence.
Qed.

(** ** [resumeTransfer] *)

(** The session is persisted under its own id and the transfer state has
    been initialized ([initializeSession]). *)
Definition ready (mgr : manager) (session : LargeFileStorage.FileTransferSession)
           (ts : TransferState) : Prop :=
  LargeFileStorage.db (storage mgr) = true /\
  LargeFileStorage.sessions (storage mgr) !! fid = Some session /\
  LargeFileStorage.fileId session = fid /\
  activeSessions mgr !! fid = Some ts /\
  fileId ts = fid.

Lemma store_eta (st : LargeFileStorage.store) :
  st = LargeFileStorage.MkStore (LargeFileStorage.db st)
                                (LargeFileStorage.chunks st)
                                (LargeFileStorage.sessions st).
Proof. destruct st. reflexivity. Qed.

Lemma resume_spec (mgr : manager) (session : LargeFileStorage.FileTransferSession)
      (ts : TransferState) :
  ready mgr session ts ->
  let remaining := remainingChunks session in
  let result := resumeTransfer options env mgr in
  exists (k a : nat) (flag : bool) (ts' : TransferState),
    fst result = Resolved tt /\
    (a <= k <= a + 1)%nat /\ (k <= length remaining)%nat /\
    outbox (snd result)
    = outbox mgr ++ map (chunkMessage session (storage mgr)) (take k remaining) /\
    storage (snd result)
    = LargeFileStorage.MkStore
        true (LargeFileStorage.chunks (storage mgr))
        (<[fid := withCompleted
                    session
                    (LargeFileStorage.completedChunks session ++ take a remaining)
                    flag]>
           (LargeFileStorage.sessions (storage mgr))) /\
    activeSessions (snd result) = <[fid := ts']> (activeSessions mgr) /\
    transferControllers (snd result) = transferControllers mgr ∖ {[fid]} /\
    (ts' = withStatus ts complete (transferredChunks ts + Z.of_nat a)
                      (canResume ts) (errorMessage ts) /\
     flag = true /\ k = length remaining /\ a = length remaining
     \/
     status ts' = error /\ fileId ts' = fid /\
     flag = LargeFileStorage.isComplete session) /\
    ((forall i, In i remaining -> cooperative_at (storage mgr) i) ->
     status ts' = complete).
Proof.
  intros (Hdb & Hsess & Hkey & Hstate & Hts) remaining result.
  subst result. unfold resumeTransfer, LargeFileStorage.getSession.
  rewrite Hdb, Hsess, Hstate. cbv zeta. fold remaining.
  set (ts1 := withStatus ts transferring (transferredChunks ts) (canResume ts)
                         (errorMessage ts)).
  set (mgr1 := setState ts1 (setController fid true mgr)).
  assert (fileId ts1 = fid) as Hts1 by exact Hts.
  destruct (transfer_loop_spec remaining mgr1 session ts1)
    as (k & a & Hka & Hk & Ho & Hs & Hl & Hd & Hc & Hf & Ha & Ht & Hnone & Hcoop).
  { exact Hdb. }
  { exact Hsess. }
  { exact Hkey. }
  { unfold mgr1. cbn [activeSessions setState]. apply lookup_insert_eq. }
  set (after := transfer_loop options env remaining mgr1 session ts1) in *.
  rewrite Hts1 in Ha.
  assert (activeSessions (mgr_ after)
          = <[fid := transferState_ after]> (activeSessions mgr)) as Ha'.
  { rewrite Ha. unfold mgr1. cbn [activeSessions setState setController].
    rewrite Hts1. apply insert_insert_eq. }
  assert (({[fid]} ∪ transferControllers mgr) ∖ {[fid]}
          = transferControllers mgr ∖ {[fid]}) as Hctl by set_solver.
  destruct (thrown after) as [message |] eqn:Hthrown.
  - (* the loop threw: the [catch] block *)
    exists k, a, (LargeFileStorage.isComplete session),
      (withStatus (transferState_ after) error
                  (transferredChunks (transferState_ after))
                  (canResume (transferState_ after)) (Some message)).
    unfold caught. cbv zeta.
    destruct (call_frame (onError options) (failed message)
                (setState
                   (withStatus (transferState_ after) error
                               (transferredChunks (transferState_ after))
                               (canResume (transferState_ after)) (Some message))
                   (mgr_ after))) as (Hst & Hact & Hctl' & Hout).
    cbn [fst snd outbox storage activeSessions transferControllers setController].
    rewrite Hst, Hact, Hctl', Hout.
    cbn [outbox storage activeSessions transferControllers setState withStatus fileId].
    conjuncts; try reflexivity; try lia.
    + exact Ho.
    + rewrite (store_eta (storage (mgr_ after))), Hd, Hc, Hl, Hs. reflexivity.
    + rewrite Ha', Hf, Hts1. apply insert_insert_eq.
    + rewrite Ht. exact Hctl.
    + right. conjuncts; try reflexivity. rewrite Hf. exact Hts1.
    + intros Hall. specialize (Hcoop Hall). congruence.
  - (* every remaining chunk went through *)
    destruct (Hnone eq_refl) as (-> & -> & Hstate').
    set (tsC := withStatus (transferState_ after) complete
                           (transferredChunks (transferState_ after))
                           (canResume (transferState_ after))
                           (errorMessage (transferState_ after))).
    exists (length remaining), (length remaining), true, tsC.
    unfold LargeFileStorage.saveSession.
    cbn [storage setState]. rewrite Hd.
    match goal with
    | |- context [call ?p ?c ?m] =>
        destruct (call_frame p c m) as (Hst & Hact & Hctl' & Hout)
    end.
    cbn [fst snd outbox storage activeSessions transferControllers setController].
    rewrite Hst, Hact, Hctl', Hout.
    cbn [outbox storage activeSessions transferControllers setState withStorage
         withStatus fileId].
    conjuncts; try reflexivity; try lia.
    + exact Ho.
    + rewrite Hc, Hl, Hs.
      cbn [withCompleted LargeFileStorage.fileId LargeFileStorage.completedChunks].
      rewrite Hkey, insert_insert_eq. reflexivity.
    + rewrite Ha'. change (fileId tsC) with (fileId (transferState_ after)).
      rewrite Hf, Hts1. apply insert_insert_eq.
    + rewrite Ht. exact Hctl.
    + left. conjuncts; try reflexivity.
      unfold tsC. rewrite Hstate'. reflexivity.
Qed.

End Resume.

Lemma resume_keeps_ready (options : ResumeOptions) (mgr mgr' : manager)
      (session session' : LargeFileStorage.FileTransferSession)
      (ts ts' : TransferState) :
  ready options mgr session ts ->
  LargeFileStorage.fileId session' = resumeFileId options ->
  fileId ts' = resumeFileId options ->
  storage mgr'
  = LargeFileStorage.MkStore
      true (LargeFileStorage.chunks (storage mgr))
      (<[resumeFileId options := session']>
         (LargeFileStorage.sessions (storage mgr))) ->
  activeSessions mgr' = <[resumeFileId options := ts']> (activeSessions mgr) ->
  ready options mgr' session' ts'.
Proof.
  intros _ Hkey Hts Hst Hact. unfold ready. rewrite Hst, Hact. cbn.
  conjuncts; try assumption; try reflexivity; apply lookup_insert_eq.
Qed.

(** C4: for a persisted session whose transfer state is initialized,
    [resumeTransfer] (1) takes as remaining the indices of
    [0 .. totalChunks-1] that are not in [completedChunks], in increasing
    order; (2) in every run sends the chunks of a prefix of them, in that
    order, and has persisted the session with the acknowledged ones
    appended to [completedChunks], all of those sent but possibly the
    last; (3) when each remaining chunk is in the store and acknowledged
    with no pause, sends exactly the remaining chunks, persists them all and
    marks the session and the transfer complete; (4) when nothing remains,
    sends nothing and marks both complete, and a second call changes
    neither the outbox, the store nor the transfer states. *)
Theorem resumeTransfer_sends_remaining
        (options : ResumeOptions) (env : environment) (mgr : manager)
        (session : LargeFileStorage.FileTransferSession) (ts : TransferState) :
  ready options mgr session ts ->
  let file := resumeFileId options in
  let remaining := remainingChunks session in
  let done := LargeFileStorage.completedChunks session in
  let message := chunkMessage options session (storage mgr) in
  let mgr' := snd (resumeTransfer options env mgr) in
  ((forall i,
       In i remaining <->
       0 <= i < LargeFileStorage.totalChunks session /\ ~ In i done) /\
   StronglySorted Z.lt remaining) /\
  (exists (k a : nat) (flag : bool),
      (a <= k <= a + 1)%nat /\ (k <= length remaining)%nat /\
      outbox mgr' = outbox mgr ++ map message (take k remaining) /\
      LargeFileStorage.sessions (storage mgr') !! file
      = Some (withCompleted session (done ++ take a remaining) flag)) /\
  ((forall i, In i remaining -> cooperative_at options env (storage mgr) i) ->
   outbox mgr' = outbox mgr ++ map message remaining /\
   LargeFileStorage.sessions (storage mgr') !! file
   = Some (withCompleted session (done ++ remaining) true) /\
   status <$> activeSessions mgr' !! file = Some complete) /\
  ((forall i, 0 <= i < LargeFileStorage.totalChunks session -> In i done) ->
   outbox mgr' = outbox mgr /\
   LargeFileStorage.sessions (storage mgr') !! file
   = Some (withCompleted session done true) /\
   status <$> activeSessions mgr' !! file = Some complete /\
   forall env2,
     let mgr'' := snd (resumeTransfer options env2 mgr') in
     outbox mgr'' = outbox mgr' /\
     storage mgr'' = storage mgr' /\
     activeSessions mgr'' = activeSessions mgr').
Proof.
  intros Hready file remaining done message mgr'.
  destruct (remainingChunks_spec session) as (Hin & Hsorted & _).
  destruct (resume_spec options env mgr session ts Hready)
    as (k & a & flag & ts' & _ & Hka & Hk & Hout & Hst & Hact & _ & Hcases & Hcoop).
  fold remaining mgr' in Hk, Hout, Hst, Hact. fold done in Hst. fold message in Hout.
  assert (forall i, In i remaining -> cooperative_at options env (storage mgr) i ->
                    True) as _ by trivial.
  assert ((forall i, In i remaining -> cooperative_at options env (storage mgr) i) ->
          outbox mgr' = outbox mgr ++ map message remaining /\
          LargeFileStorage.sessions (storage mgr') !! file
          = Some (withCompleted session (done ++ remaining) true) /\
          status <$> activeSessions mgr' !! file = Some complete /\
          ts' = withStatus ts complete (transferredChunks ts + Z.of_nat a)
                           (canResume ts) (errorMessage ts) /\
          flag = true /\ a = length remaining) as Hall.
  { intros Hc. specialize (Hcoop Hc).
    destruct Hcases as [(Hts' & -> & -> & ->) | (Herr & _)]; [| congruence].
    rewrite firstn_all in Hout, Hst. rewrite Hst, Hact. cbn.
    rewrite !lookup_insert_eq. cbn. rewrite Hcoop.
    conjuncts; try reflexivity; assumption. }
  conjuncts.
  - exact Hin.
  - exact Hsorted.
  - exists k, a, flag. conjuncts; try lia; try exact Hout.
    rewrite Hst. cbn. apply lookup_insert_eq.
  - intros Hc. destruct (Hall Hc) as (H1 & H2 & H3 & _). conjuncts; assumption.
  - intros Hcovered.
    assert (remaining = []) as Hnil by (apply remainingChunks_nil; exact Hcovered).
    destruct Hall as (H1 & H2 & H3 & Hts' & Hflag & Ha).
    { rewrite Hnil. intros i []. }
    rewrite Hnil in H1, H2, Ha. cbn in H1, Ha. rewrite app_nil_r in H1, H2.
    subst a flag. rewrite Hnil in Hst. cbn [take] in Hst.
    rewrite app_nil_r in Hst.
    conjuncts; try assumption.
    intros env2 mgr''.
    set (session' := withCompleted session done true) in *.
    assert (ready options mgr' session' ts') as Hready'.
    { pose proof Hready as (_ & _ & Hkey & _ & Hfile).
      eapply (resume_keeps_ready options mgr mgr' session session' ts ts').
      - exact Hready.
      - exact Hkey.
      - rewrite Hts'. exact Hfile.
      - exact Hst.
      - exact Hact. }
    destruct (resume_spec options env2 mgr' session' ts' Hready')
      as (k2 & a2 & flag2 & ts2 & _ & Hka2 & Hk2 & Hout2 & Hst2 & Hact2 & _ & Hcases2 & Hcoop2).
    fold mgr'' in Hout2, Hst2, Hact2.
    assert (remainingChunks session' = []) as Hnil2
        by (apply remainingChunks_nil; exact Hcovered).
    rewrite Hnil2 in *. cbn [length] in Hk2.
    assert (k2 = 0%nat) as -> by lia. assert (a2 = 0%nat) as -> by lia.
    specialize (Hcoop2 ltac:(intros i [])).
    destruct Hcases2 as [(Hts2 & -> & _) | (Herr & _)]; [| congruence].
    cbn [take map] in Hout2, Hst2. rewrite app_nil_r in Hout2.
    conjuncts.
    + exact Hout2.
    + rewrite Hst2, Hst. cbn [LargeFileStorage.chunks LargeFileStorage.sessions].
      rewrite insert_insert_eq. f_equal. f_equal.
      unfold session'. cbn. rewrite app_nil_r. reflexivity.
    + rewrite Hact2, Hact, insert_insert_eq. f_equal.
      rewrite Hts2, Hts'. unfold withStatus. cbn. rewrite !Z.add_0_r. reflexivity.
Qed.

(** A five-chunk session with chunks 0, 1 and 3 already acknowledged, all
    five chunks in the store, and a peer that acknowledges everything. *)
Definition demo_options : ResumeOptions := MkResumeOptions "f1" true true true.

Definition demo_session : LargeFileStorage.FileTransferSession :=
  LargeFileStorage.MkSession "f1" "movie.bin" 5 "video/mp4" 5 [0; 1; 3] "abcd" false.

Definition demo_manager : manager :=
  MkManager
    (LargeFileStorage.MkStore
       true
       (list_to_map
          [(("f1"%string, 0), [Byte.x10]); (("f1"%string, 1), [Byte.x11]);
           (("f1"%string, 2), [Byte.x12]); (("f1"%string, 3), [Byte.x13]);
           (("f1"%string, 4), [Byte.x14])])
       {["f1"%string := demo_session]})
    {["f1"%string := MkTransferState "f1" idle 3 5 true None]}
    ∅ [] [].

Definition polite : environment :=
  MkEnvironment (fun _ => AckSuccess) (fun _ => false).

Lemma resumeTransfer_sends_remaining_witness :
  let mgr' := snd (resumeTransfer demo_options polite demo_manager) in
  outbox mgr'
  = [large_file_chunk "f1" "movie.bin" 2 5 [Byte.x12] 1 "abcd";
     large_file_chunk "f1" "movie.bin" 4 5 [Byte.x14] 1 "abcd"] /\
  LargeFileStorage.sessions (storage mgr') !! "f1"%string
  = Some (LargeFileStorage.MkSession "f1" "movie.bin" 5 "video/mp4" 5
                                     [0; 1; 3; 2; 4] "abcd" true) /\
  status <$> activeSessions mgr' !! "f1"%string = Some complete.
Proof.
  assert (ready demo_options demo_manager demo_session
                (MkTransferState "f1" idle 3 5 true None)) as Hready
      by (unfold ready; conjuncts; reflexivity).
  destruct (resumeTransfer_sends_remaining demo_options polite demo_manager
              demo_session _ Hready) as (_ & _ & Hall & _).
  destruct Hall as (Hout & Hsession & Hstatus).
  { intros i Hi. vm_compute in Hi.
    destruct Hi as [<- | [<- | []]];
      (split; [reflexivity | split; [reflexivity | eexists; reflexivity]]). }
  change (resumeFileId demo_options) with "f1"%string in Hsession, Hstatus.
  cbv zeta. rewrite Hout, Hsession, Hstatus.
  conjuncts; vm_compute; reflexivity.
Defined.

End ManagerFacts.

(* ================================================================== *)
(** * Further properties of the chunker and its checks *)
(* ================================================================== *)

Module CheckFacts.

Import JS JSFacts MemoryOptimizedFileProcessor ProcessorChecks.
Local Open Scope Z_scope.

Lemma length_append (s t : string) :
  String.length (s +:+ t) = (String.length s + String.length t)%nat.
Proof.
  induction s as [| a s IH]; [reflexivity |].
  change (S (String.length (s +:+ t)) = S (String.length s + String.length t)).
  rewrite IH. reflexivity.
Qed.

Lemma hex_string_length (buf : list byte) :
  String.length (hex_string buf) = (2 * length buf)%nat.
Proof.
  induction buf as [| b buf IH]; cbn [hex_string fold_right length].
  - reflexivity.
  - fold (hex_string buf). rewrite length_append, hex_byte_length, IH. lia.
Qed.

(** A fingerprint is 64 hexadecimal digits. *)
Lemma hex_length (buf : list byte) : String.length (SHA256.hex buf) = 64%nat.
Proof.
  unfold SHA256.hex. rewrite hex_string_length, SHA256Facts.digest_length.
  reflexivity.
Qed.

(** X1: [verifyChunkHash] checks nothing when no hash, or the empty
    string, is expected; a chunk passes against its own digest; against
    any other expected text it passes exactly when that text is the
    digest, so never when the text is not 64 characters long. *)
Theorem verifyChunkHash_accepts (chunkData : list byte) :
  verifyChunkHash chunkData None = true /\
  verifyChunkHash chunkData (Some EmptyString) = true /\
  verifyChunkHash chunkData (Some (SHA256.hex chunkData)) = true /\
  (forall expected,
      expected <> EmptyString ->
      (verifyChunkHash chunkData (Some expected) = true
       <-> SHA256.hex chunkData = expected)) /\
  (forall expected,
      expected <> EmptyString -> String.length expected <> 64%nat ->
      verifyChunkHash chunkData (Some expected) = false).
Proof.
  assert (forall expected,
             expected <> EmptyString ->
             verifyChunkHash chunkData (Some expected)
             = String.eqb (SHA256.hex chunkData) expected) as Hcheck.
  { intros expected Hne. unfold verifyChunkHash.
    destruct (String.eqb_spec expected EmptyString); [contradiction | reflexivity]. }
  split; [reflexivity |]. split; [reflexivity |]. split; [| split].
  - unfold verifyChunkHash.
    destruct (String.eqb _ EmptyString); [reflexivity | apply String.eqb_refl].
  - intros expected Hne. rewrite (Hcheck expected Hne). apply String.eqb_eq.
  - intros expected Hne Hlen. rewrite (Hcheck expected Hne).
    apply String.eqb_neq. intros Heq. apply Hlen. rewrite <- Heq. apply hex_length.
Qed.

(** The chunk counts of the five bands of [getOptimalChunkSize]. *)
Lemma optimal_chunks (fileSize : Z) :
  0 <= fileSize ->
  let c := getOptimalChunkSize fileSize in
  let n := ceil_div fileSize c in
  262144 <= c <= 4194304 /\ 0 <= n /\ (n - 1) * c < fileSize <= n * c /\
  (fileSize < 10737418240 -> n <= 5120) /\
  (10737418240 <= fileSize -> c = 4194304).
Proof.
  intros Hsize c n. subst n c. unfold getOptimalChunkSize.
  repeat match goal with
         | |- context [?x <? ?y] => destruct (Z.ltb_spec x y)
         end;
    match goal with
    | |- context [ceil_div fileSize ?c] =>
        pose proof (ceil_div_bounds fileSize c ltac:(lia));
        pose proof (ceil_div_nonneg fileSize c ltac:(lia) Hsize)
    end; conjuncts; lia.
Qed.

(** X2: without [performance.memory], [canProcessFile] assumes 512 MB
    and accepts a file exactly when it is at most 8224767 chunks of 4 MiB
    long (about 31 TiB); up to 100 GiB the estimate stays under 6 MiB.  It
    always recommends the chunk size of [getOptimalChunkSize].  With a
    reported heap limit of 2.5 MiB or less it accepts no file at all. *)
Theorem canProcessFile_threshold (fileSize : Z) :
  0 <= fileSize ->
  let verdict := canProcessFile None fileSize in
  recommendedChunkSize verdict = getOptimalChunkSize fileSize /\
  (canProcess verdict = true <-> fileSize <= 8224767 * 4194304) /\
  (fileSize <= 100 * 1024 * 1024 * 1024 ->
   estimatedMemoryUsage verdict <= 6062080) /\
  (forall limit,
      limit <= 2621440 ->
      canProcess (canProcessFile (Some limit) fileSize) = false).
Proof.
  intros Hsize verdict. subst verdict.
  destruct (optimal_chunks fileSize Hsize) as (Hc & Hn0 & Hn & Hsmall & Hbig).
  unfold canProcessFile, getMemoryRequirement.
  cbn [canProcess recommendedChunkSize estimatedMemoryUsage estimatedPeakUsage].
  set (c := getOptimalChunkSize fileSize) in *.
  set (n := ceil_div fileSize c) in *.
  assert (fileSize < 10737418240 \/ c = 4194304) as Hband
      by (destruct (Z.lt_ge_cases fileSize 10737418240); auto).
  split; [reflexivity |].
  split; [| split].
  - rewrite Z.ltb_lt. destruct Hband as [Hlt | Hc4]; [specialize (Hsmall Hlt) |]; lia.
  - intros Hle. destruct Hband as [Hlt | Hc4]; [specialize (Hsmall Hlt) |]; lia.
  - intros limit Hlimit. apply Z.ltb_ge. lia.
Qed.

(** 100 GB passes on a device that reports nothing. *)
Lemma canProcessFile_threshold_witness :
  canProcess (canProcessFile None 100000000000) = true /\
  recommendedChunkSize (canProcessFile None 100000000000) = 4194304.
Proof.
  destruct (canProcessFile_threshold 100000000000 ltac:(lia))
    as (Hsize & Hcan & _).
  split.
  - apply Hcan. lia.
  - rewrite Hsize. reflexivity.
Defined.

End CheckFacts.

Module StreamFacts.

Import JS JSFacts MemoryOptimizedFileProcessor.
Local Open Scope Z_scope.

(** The size of a clamped slice. *)
Lemma size_slice_clamped {A} (l : list A) (start c : Z) :
  0 <= start -> 0 < c ->
  size (slice l start (Z.min (start + c) (size l)))
  = Z.max 0 (Z.min c (size l - start)).
Proof.
  intros Hs Hc. rewrite slice_clamped by assumption.
  unfold size. rewrite length_take, length_drop. lia.
Qed.

(** X3: the sizes of the chunks.  With [n = ceil(size / chunkSize)]
    chunks, every chunk but the last holds exactly [chunkSize] bytes, the
    last one holds the remaining [size - (n-1) * chunkSize] bytes, between
    1 and [chunkSize], and an index from [n] on reads nothing. *)
Theorem readFileChunk_sizes (file : File) (chunkSize i : Z) :
  0 < chunkSize ->
  0 <= i ->
  let total := size (content file) in
  let n := ceil_div total chunkSize in
  let chunk := readFileChunk file i chunkSize in
  (i < n - 1 -> size chunk = chunkSize) /\
  (i = n - 1 ->
   size chunk = total - (n - 1) * chunkSize /\ 1 <= size chunk <= chunkSize) /\
  (n <= i -> chunk = []).
Proof.
  intros Hc Hi total n chunk.
  pose proof (ceil_div_bounds total chunkSize Hc) as Hn. fold n in Hn.
  assert (size chunk = Z.max 0 (Z.min chunkSize (total - i * chunkSize))) as Hsize.
  { unfold chunk, readFileChunk. cbv zeta. fold total.
    apply size_slice_clamped; [nia | exact Hc]. }
  conjuncts.
  - intros Hlt. rewrite Hsize. nia.
  - intros Hlast. rewrite Hsize. nia.
  - intros Hge. assert (size chunk = 0) as Hzero by (rewrite Hsize; nia).
    unfold size in Hzero. destruct chunk; [reflexivity | cbn in Hzero; lia].
Qed.

Lemma readFileChunk_sizes_witness :
  size (readFileChunk ChunkerFacts.notes_txt 0 4) = 4 /\
  size (readFileChunk ChunkerFacts.notes_txt 2 4) = 2 /\
  readFileChunk ChunkerFacts.notes_txt 3 4 = [].
Proof.
  assert (ceil_div (size (content ChunkerFacts.notes_txt)) 4 = 3) as Hn
      by reflexivity.
  conjuncts.
  - apply (readFileChunk_sizes ChunkerFacts.notes_txt 4 0); [lia | lia |].
    rewrite Hn. lia.
  - destruct (readFileChunk_sizes ChunkerFacts.notes_txt 4 2 ltac:(lia) ltac:(lia))
      as (_ & Hlast & _).
    rewrite (proj1 (Hlast ltac:(rewrite Hn; lia))). reflexivity.
  - apply (readFileChunk_sizes ChunkerFacts.notes_txt 4 3); [lia | lia |].
    rewrite Hn. lia.
Defined.

(** The loop up to the first index at which the signal reads aborted. *)
Lemma chunk_loop_aborted (file : File) (options : ProcessingOptions)
      (before after : list Z) (k : Z) (st : loop_state) :
  (forall i, In i before -> aborted (signal options) i = false) ->
  aborted (signal options) k = true ->
  chunk_loop file options (before ++ k :: after) st
  = (fold_left (process_chunk file options) before st,
     Some "File processing aborted"%string).
Proof.
  revert st. induction before as [| i before IH]; intros st Hbefore Hk.
  - cbn. rewrite Hk. reflexivity.
  - cbn. rewrite (Hbefore i) by (left; reflexivity).
    apply IH; [| exact Hk]. intros j Hj. apply Hbefore. right. exact Hj.
Qed.

(** X4: when the abort signal is first seen set at the top of
    iteration [k], [processFileStream] rejects with ["File processing
    aborted"]; [onChunkProcessed] has then been called for the chunks
    [0 .. k-1], in order, and for no other. *)
Theorem processFileStream_aborted
        (file : File) (chunkSize k : Z) (sg : Z -> bool) :
  0 < chunkSize ->
  0 <= k < ceil_div (size (content file)) chunkSize ->
  sg k = true ->
  (forall i, 0 <= i < k -> sg i = false) ->
  processFileStream file (MkOptions chunkSize true (Some sg))
  = (Rejected "File processing aborted",
     map (fun i => (i, readFileChunk file i chunkSize)) (seqZ 0 k)).
Proof.
  intros Hc Hk Hset Hclear. unfold processFileStream.
  cbn [MemoryOptimizedFileProcessor.chunkSize signal].
  set (n := ceil_div (size (content file)) chunkSize) in *.
  replace n with (k + (1 + (n - k - 1))) by lia.
  rewrite seqZ_app by lia. rewrite (seqZ_app (0 + k) 1) by lia.
  assert (seqZ (0 + k) 1 = [k]) as -> by (unfold seqZ; cbn; f_equal; lia).
  cbn [app].
  rewrite chunk_loop_aborted.
  - set (options := MkOptions chunkSize true (Some sg)).
    assert (forall indices st,
               delivered (fold_left (process_chunk file options) indices st)
               = delivered st
                 ++ map (fun i => (i, readFileChunk file i chunkSize)) indices)
      as Hlog.
    { induction indices as [| i indices IH]; intros st; cbn [fold_left map].
      - rewrite app_nil_r. reflexivity.
      - rewrite IH. cbn [process_chunk delivered onChunkProcessed options].
        rewrite <- app_assoc. reflexivity. }
    rewrite Hlog. reflexivity.
  - intros i Hi. apply list_elem_of_In, elem_of_seqZ in Hi.
    cbn [aborted signal]. apply Hclear. lia.
  - exact Hset.
Qed.

Lemma processFileStream_aborted_witness :
  processFileStream ChunkerFacts.notes_txt
                    (MkOptions 4 true (Some (fun i => 1 <=? i)))
  = (Rejected "File processing aborted",
     [(0, [Byte.x7a; Byte.x61; Byte.x70; Byte.x64])]).
Proof.
  rewrite (processFileStream_aborted ChunkerFacts.notes_txt 4 1 (fun i => 1 <=? i)).
  - reflexivity.
  - lia.
  - split; [lia | reflexivity].
  - reflexivity.
  - intros i Hi. apply Z.leb_gt. lia.
Defined.

(** X5: an empty file has no chunk.  [processFileStream] resolves
    without reading the abort signal or calling [onChunkProcessed], with
    [totalChunks = 0], and its fingerprint is the SHA-256 digest of the
    empty buffer. *)
Theorem processFileStream_empty_file
        (fileName fileType : string) (options : ProcessingOptions) :
  0 < chunkSize options ->
  processFileStream (MkFile fileName fileType []) options
  = (Resolved
       (MkResult
          "e3b0c44298fc1c149afbf4c8996fb92427ae41e4649b934ca495991b7852b855"
          0 0),
     []).
Proof.
  intros Hc. unfold processFileStream. cbn [content].
  change (size []) with 0.
  assert (ceil_div 0 (chunkSize options) = 0) as ->
      by (apply ceil_div_unique; lia).
  cbn [seqZ chunk_loop combinedHashes delivered combine_hashes].
  rewrite <- SHA256Facts.digest_empty. reflexivity.
Qed.

Lemma processFileStream_empty_file_witness :
  fst (processFileStream (MkFile "empty.bin" "application/octet-stream" [])
                         (MkOptions 262144 true (Some (fun _ => true))))
  = Resolved
      (MkResult
         "e3b0c44298fc1c149afbf4c8996fb92427ae41e4649b934ca495991b7852b855" 0 0).
Proof.
  rewrite (processFileStream_empty_file
             "empty.bin" "application/octet-stream"
             (MkOptions 262144 true (Some (fun _ => true)))).
  - reflexivity.
  - cbn. lia.
Defined.

End StreamFacts.

(* ================================================================== *)
(** * The chunk store *)
(* ================================================================== *)

Module StorageFacts.

Import JS JSFacts LargeFileStorage StoredFiles.
Local Open Scope Z_scope.

#[local] Instance by_index_total : Total by_index.
Proof. intros a b. unfold by_index. lia. Qed.

#[local] Instance by_index_transitive : Transitive by_index.
Proof. intros a b c. unfold by_index. lia. Qed.

(** Chunk [i] of [file] as stored, empty when there is none. *)
Definition chunk_of (st : store) (file : string) (i : Z) : list byte :=
  default [] (chunks st !! (file, i)).

(** Strictly increasing chunk indices. *)
Definition ascending : relation (Z * list byte) := fun a b => a.1 < b.1.

(** ** [storeChunk] and [getChunk] *)

(** X6: what [storeChunk] puts, [getChunk] gets.  On an opened store,
    a stored chunk is read back under its file and index, storing again
    under the same key replaces it, every other key reads as before and
    the sessions are untouched; on a store that was never opened both
    reject with ["Database not initialized"]. *)
Theorem storeChunk_getChunk
        (file : string) (chunkIndex : Z) (data : list byte) (st : store) :
  (db st = true ->
   exists st',
     storeChunk file chunkIndex data st = Resolved st' /\
     getChunk file chunkIndex st' = Resolved (Some data) /\
     (forall other index,
         (other, index) <> (file, chunkIndex) ->
         getChunk other index st' = getChunk other index st) /\
     (forall again,
         exists st'',
           storeChunk file chunkIndex again st' = Resolved st'' /\
           getChunk file chunkIndex st'' = Resolved (Some again) /\
           st'' = MkStore true (<[(file, chunkIndex) := again]> (chunks st))
                          (sessions st)) /\
     sessions st' = sessions st /\ db st' = true) /\
  (db st = false ->
   storeChunk file chunkIndex data st = Rejected "Database not initialized" /\
   getChunk file chunkIndex st = Rejected "Database not initialized").
Proof.
  split; intros Hdb.
  - unfold storeChunk, getChunk. rewrite Hdb. eexists. split; [reflexivity |].
    cbn [db chunks sessions]. conjuncts; try reflexivity.
    + rewrite lookup_insert_eq. reflexivity.
    + intros other index Hne. rewrite lookup_insert_ne by congruence. reflexivity.
    + intros again. eexists. split; [reflexivity |]. cbn [db chunks sessions].
      split; [rewrite lookup_insert_eq; reflexivity |].
      rewrite insert_insert_eq. reflexivity.
  - unfold storeChunk, getChunk. rewrite Hdb. split; reflexivity.
Qed.

Lemma storeChunk_getChunk_witness :
  exists st',
    storeChunk "f1" 7 [Byte.x2a] (MkStore true ∅ ∅) = Resolved st' /\
    getChunk "f1" 7 st' = Resolved (Some [Byte.x2a]) /\
    getChunk "f1" 8 st' = Resolved None.
Proof.
  destruct (proj1 (storeChunk_getChunk "f1" 7 [Byte.x2a] (MkStore true ∅ ∅)) eq_refl)
    as (st' & Hput & Hget & Hother & _).
  exists st'. split; [exact Hput |]. split; [exact Hget |].
  rewrite (Hother "f1"%string 8) by congruence. reflexivity.
Defined.

(** ** [getAllChunks] *)

Lemma elem_of_records (file : string) (st : store) (i : Z) (data : list byte) :
  (i, data) ∈ records file st <-> chunks st !! (file, i) = Some data.
Proof.
  unfold records. rewrite list_elem_of_omap. split.
  - intros ([[f j] d] & Hin & Hsome). cbn in Hsome.
    destruct (decide (f = file)) as [-> |]; [| discriminate].
    injection Hsome as -> ->. apply elem_of_map_to_list. exact Hin.
  - intros Hlook. exists ((file, i), data). split.
    + apply elem_of_map_to_list. exact Hlook.
    + cbn. rewrite decide_True by reflexivity. reflexivity.
Qed.

Lemma records_keys (file : string) (st : store) : NoDup (records file st).*1.
Proof.
  unfold records. pose proof (NoDup_fst_map_to_list (chunks st)) as Hkeys.
  induction (map_to_list (chunks st)) as [| [[f i] d] l IH]; cbn.
  - constructor.
  - cbn in Hkeys. apply NoDup_cons in Hkeys as [Hfresh Hkeys].
    destruct (decide (f = file)) as [-> |]; [| exact (IH Hkeys)].
    cbn. apply NoDup_cons. split; [| exact (IH Hkeys)].
    intros Hin. apply Hfresh.
    apply list_elem_of_fmap in Hin as ([j d'] & Hj & Hin). cbn in Hj. subst j.
    apply list_elem_of_omap in Hin as ([[f' j'] d''] & Hin & Hsome).
    cbn in Hsome. destruct (decide (f' = file)) as [-> |]; [| discriminate].
    injection Hsome as -> ->.
    apply list_elem_of_fmap. exists ((file, i), d'). split; [reflexivity | exact Hin].
Qed.

Lemma same_key {A} (l : list (Z * A)) (x y : Z * A) :
  NoDup l.*1 -> x ∈ l -> y ∈ l -> x.1 = y.1 -> x = y.
Proof.
  induction l as [| z l IH]; intros Hkeys Hx Hy Heq.
  - apply elem_of_nil in Hx. destruct Hx.
  - cbn in Hkeys. apply NoDup_cons in Hkeys as [Hfresh Hkeys].
    apply elem_of_cons in Hx as [-> | Hx]; apply elem_of_cons in Hy as [-> | Hy].
    + reflexivity.
    + exfalso. apply Hfresh. rewrite Heq. apply list_elem_of_fmap.
      exists y. split; [reflexivity | exact Hy].
    + exfalso. apply Hfresh. rewrite <- Heq. apply list_elem_of_fmap.
      exists x. split; [reflexivity | exact Hx].
    + exact (IH Hkeys Hx Hy Heq).
Qed.

Lemma sorted_ascending (l : list (Z * list byte)) :
  StronglySorted by_index l -> NoDup l.*1 -> StronglySorted ascending l.
Proof.
  induction 1 as [| a l Hsorted IH Hall]; intros Hkeys; constructor.
  - apply IH. cbn in Hkeys. apply NoDup_cons in Hkeys. apply Hkeys.
  - cbn in Hkeys. apply NoDup_cons in Hkeys as [Hfresh _].
    rewrite List.Forall_forall in Hall. apply List.Forall_forall. intros b Hb.
    specialize (Hall b Hb). unfold by_index in Hall. unfold ascending.
    assert (a.1 <> b.1) as Hne.
    { intros Heq. apply Hfresh. rewrite Heq. apply list_elem_of_fmap.
      exists b. split; [reflexivity | apply list_elem_of_In; exact Hb]. }
    lia.
Qed.

Lemma ascending_sorted (l : list (Z * list byte)) :
  StronglySorted ascending l -> StronglySorted by_index l /\ NoDup l.*1.
Proof.
  induction 1 as [| a l Hsorted (IH1 & IH2) Hall].
  - split; constructor.
  - rewrite List.Forall_forall in Hall. split.
    + constructor; [exact IH1 |]. apply List.Forall_forall. intros b Hb.
      specialize (Hall b Hb). unfold ascending in Hall. unfold by_index. lia.
    + cbn. apply NoDup_cons. split; [| exact IH2].
      intros Hin. apply list_elem_of_fmap in Hin as (b & Hb & Hin).
      apply list_elem_of_In in Hin. specialize (Hall b Hin).
      unfold ascending in Hall. lia.
Qed.

(** Two lists of chunk records in index order with the same records are
    the same list. *)
Lemma sorted_unique (l1 l2 : list (Z * list byte)) :
  StronglySorted by_index l1 -> StronglySorted by_index l2 ->
  NoDup l1.*1 -> l1 ≡ₚ l2 -> l1 = l2.
Proof.
  intros H1 H2 Hkeys Hperm.
  apply (StronglySorted_unique_strong by_index); try assumption.
  intros x1 x2 Hx1 Hx2 Hle Hge. unfold by_index in Hle, Hge.
  apply (same_key l1); try assumption; [| lia].
  rewrite Hperm. exact Hx2.
Qed.

(** Sorting again changes nothing. *)
Lemma sort_sorted (l : list (Z * list byte)) :
  StronglySorted by_index l -> NoDup l.*1 -> merge_sort by_index l = l.
Proof.
  intros Hsorted Hkeys. apply sorted_unique.
  - apply StronglySorted_merge_sort; apply _.
  - exact Hsorted.
  - rewrite merge_sort_Permutation. exact Hkeys.
  - apply merge_sort_Permutation.
Qed.

Lemma sorted_records (file : string) (st : store) :
  let sorted := merge_sort by_index (records file st) in
  (forall i data, In (i, data) sorted <-> chunks st !! (file, i) = Some data) /\
  StronglySorted by_index sorted /\
  NoDup sorted.*1 /\
  StronglySorted ascending sorted.
Proof.
  intros sorted.
  assert (StronglySorted by_index sorted) as Hsorted
      by (apply StronglySorted_merge_sort; apply _).
  assert (NoDup sorted.*1) as Hkeys.
  { unfold sorted. rewrite merge_sort_Permutation. apply records_keys. }
  conjuncts; try assumption.
  - intros i data. rewrite <- list_elem_of_In. unfold sorted.
    rewrite merge_sort_Permutation. apply elem_of_records.
  - apply sorted_ascending; assumption.
Qed.

(** X7: [getAllChunks(fileId)] on an opened store yields exactly the
    chunks stored under [fileId], each once, in strictly increasing order
    of [chunkIndex]; chunks of other files are not among them. *)
Theorem getAllChunks_sorted (file : string) (st : store) :
  db st = true ->
  exists found,
    getAllChunks file st = Resolved found /\
    (forall i data, In (i, data) found <-> getChunk file i st = Resolved (Some data)) /\
    StronglySorted (fun a b => a.1 < b.1) found /\
    size found = size (records file st).
Proof.
  intros Hdb. unfold getAllChunks, getChunk. rewrite Hdb.
  destruct (sorted_records file st) as (Hin & _ & _ & Hasc).
  eexists. split; [reflexivity |]. conjuncts.
  - intros i data. rewrite Hin. split; [intros -> | intros H; injection H as H]; auto.
  - exact Hasc.
  - unfold size. rewrite merge_sort_Permutation. reflexivity.
Qed.

(** Three chunks stored out of order, and one of another file. *)
Definition shelf : store :=
  MkStore true
          (<[("f1"%string, 2) := [Byte.x63]]>
             (<[("f2"%string, 0) := [Byte.x7a]]>
                (<[("f1"%string, 0) := [Byte.x61]]>
                   (<[("f1"%string, 1) := [Byte.x62]]> ∅))))
          {["f1"%string := MkSession "f1" "abc.txt" 3 "text/plain" 3 [] "00" false]}.

Lemma getAllChunks_sorted_witness :
  getAllChunks "f1" shelf
  = Resolved [(0, [Byte.x61]); (1, [Byte.x62]); (2, [Byte.x63])].
Proof.
  destruct (getAllChunks_sorted "f1" shelf eq_refl) as (found & Hrun & _).
  rewrite Hrun. vm_compute in Hrun. injection Hrun as <-. reflexivity.
Defined.

(** ** [assembleFile] *)

(** The stored indices of [file] are exactly those of [indices]. *)
Definition stored_at (st : store) (file : string) (indices : list Z) : Prop :=
  forall i, is_Some (chunks st !! (file, i)) <-> In i indices.

Lemma records_at (st : store) (file : string) (indices : list Z) :
  StronglySorted Z.lt indices ->
  stored_at st file indices ->
  merge_sort by_index (records file st)
  = map (fun i => (i, chunk_of st file i)) indices.
Proof.
  intros Hsorted Hstored.
  destruct (sorted_records file st) as (Hin & Hby & Hkeys & _).
  apply sorted_unique; try assumption.
  - apply (StronglySorted_fmap _ Z.lt); [| exact Hsorted].
    intros x y Hlt. unfold by_index. cbn. lia.
  - apply NoDup_Permutation.
    + eapply NoDup_fmap_1. exact Hkeys.
    + apply NoDup_fmap_2; [intros x y Heq; congruence |].
      apply NoDup_ListNoDup.
      clear -Hsorted. induction Hsorted as [| a l _ IH Hall]; constructor.
      * intros Ha. rewrite List.Forall_forall in Hall. specialize (Hall a Ha). lia.
      * exact IH.
    + intros [i data]. rewrite list_elem_of_In, Hin.
      change (map ?f ?l) with (f <$> l). rewrite list_elem_of_fmap. split.
      * intros Hlook. exists i. split.
        -- unfold chunk_of. rewrite Hlook. reflexivity.
        -- apply list_elem_of_In, Hstored. eexists. exact Hlook.
      * intros (j & Heq & Hj). injection Heq as -> ->.
        apply list_elem_of_In, Hstored in Hj. destruct Hj as (data & Hdata).
        unfold chunk_of. rewrite Hdata. reflexivity.
Qed.

(** What [assembleFile] yields when the count matches. *)
Lemma assemble_at
      (file : string) (st : store) (session : FileTransferSession)
      (indices : list Z) :
  db st = true ->
  sessions st !! file = Some session ->
  StronglySorted Z.lt indices ->
  stored_at st file indices ->
  size indices = totalChunks session ->
  assembleFile file st
  = Resolved (concat (map (chunk_of st file) indices), fileType session).
Proof.
  intros Hdb Hsession Hsorted Hstored Hcount.
  unfold assembleFile, getAllChunks, getSession. rewrite Hdb, Hsession.
  rewrite (records_at st file indices Hsorted Hstored). cbv zeta.
  replace (size (map (fun i => (i, chunk_of st file i)) indices)
           =? totalChunks session) with true
    by (symmetry; apply Z.eqb_eq; unfold size in *; rewrite length_map; exact Hcount).
  cbn [negb].
  rewrite <- (records_at st file indices Hsorted Hstored).
  destruct (sorted_records file st) as (_ & Hby & Hkeys & _).
  rewrite (sort_sorted _ Hby Hkeys).
  rewrite (records_at st file indices Hsorted Hstored).
  rewrite map_map. reflexivity.
Qed.

(** X8: [assembleFile] checks the number of stored chunks, not their
    indices.  When the chunks stored under [fileId] sit at the strictly
    increasing indices [indices], and there are [session.totalChunks] of
    them, it resolves with their concatenation in that order, typed with
    [session.fileType], whatever the indices are: a file with a gap is
    assembled without complaint when a stray chunk makes up the count. *)
Theorem assembleFile_by_count
        (file : string) (st : store) (session : FileTransferSession)
        (indices : list Z) :
  db st = true ->
  sessions st !! file = Some session ->
  StronglySorted Z.lt indices ->
  (forall i, is_Some (chunks st !! (file, i)) <-> In i indices) ->
  size indices = totalChunks session ->
  assembleFile file st
  = Resolved (concat (map (fun i => default [] (chunks st !! (file, i))) indices),
              fileType session) /\
  (indices = seqZ 0 (totalChunks session) \/
   exists missing,
     0 <= missing < totalChunks session /\ chunks st !! (file, missing) = None).
Proof.
  intros Hdb Hsession Hsorted Hstored Hcount.
  split; [apply (assemble_at file st session indices); assumption |].
  set (n := totalChunks session) in *.
  destruct (decide (Forall (fun i => i ∈ indices) (seqZ 0 n))) as [Hall | Hnot].
  - left.
    assert (0 <= n) as Hn0 by (unfold size in Hcount; lia).
    assert (NoDup indices) as Hnd.
    { apply NoDup_ListNoDup.
      clear -Hsorted. induction Hsorted as [| a l _ IH Hall]; constructor.
      - intros Ha. rewrite List.Forall_forall in Hall. specialize (Hall a Ha). lia.
      - exact IH. }
    assert (seqZ 0 n ⊆+ indices) as Hsub.
    { apply NoDup_submseteq; [apply NoDup_seqZ |].
      intros i Hi. rewrite Forall_forall in Hall. apply Hall. exact Hi. }
    assert (seqZ 0 n ≡ₚ indices) as Hperm.
    { apply submseteq_length_Permutation; [exact Hsub |].
      rewrite length_seqZ. unfold size in Hcount. lia. }
    symmetry. apply (StronglySorted_unique_strong Z.lt).
    + intros x1 x2 _ _ H1 H2. lia.
    + replace n with (Z.of_nat (Z.to_nat n)) by lia. apply ManagerFacts.seqZ_sorted.
    + exact Hsorted.
    + exact Hperm.
  - right. apply not_Forall_Exists in Hnot; [| intros i; apply _].
    apply Exists_exists in Hnot as (missing & Hin & Hout).
    exists missing. apply elem_of_seqZ in Hin. split; [lia |].
    destruct (chunks st !! (file, missing)) as [data |] eqn:Hdata; [| reflexivity].
    exfalso. apply Hout, list_elem_of_In, Hstored. eexists. exact Hdata.
Qed.

(** The same three chunks, the middle one lost, under a session that
    announces two chunks: the gap goes unnoticed. *)
Definition gapped : store :=
  MkStore true
          (<[("f1"%string, 2) := [Byte.x63]]>
             (<[("f1"%string, 0) := [Byte.x61]]> ∅))
          {["f1"%string := MkSession "f1" "abc.txt" 3 "text/plain" 2 [] "00" false]}.

Lemma assembleFile_by_count_witness :
  assembleFile "f1" gapped = Resolved ([Byte.x61; Byte.x63], "text/plain"%string).
Proof.
  destruct (assembleFile_by_count
              "f1" gapped (MkSession "f1" "abc.txt" 3 "text/plain" 2 [] "00" false)
              [0; 2]) as (Hrun & _).
  - reflexivity.
  - reflexivity.
  - repeat constructor; lia.
  - intros i. unfold gapped. cbn [chunks]. split.
    + intros (data & Hdata).
      apply lookup_insert_Some in Hdata as [[Hkey _] | [_ Hdata]];
        [injection Hkey as <-; right; left; reflexivity |].
      apply lookup_insert_Some in Hdata as [[Hkey _] | [_ Hdata]];
        [injection Hkey as <-; left; reflexivity |].
      rewrite lookup_empty in Hdata. discriminate Hdata.
    + intros [<- | [<- | []]]; eexists; reflexivity.
  - reflexivity.
  - rewrite Hrun. reflexivity.
Defined.

(** X9: the refusals of [assembleFile] on an opened store.  Without a
    session for [fileId] it rejects with ["Session not found for file
    assembly"]; with a session whose [totalChunks] differs from the number
    of chunks stored under [fileId] it rejects with ["Missing chunks:
    expected N, got M"]. *)
Theorem assembleFile_rejects (file : string) (st : store) :
  db st = true ->
  let stored := size (records file st) in
  (sessions st !! file = None ->
   assembleFile file st = Rejected "Session not found for file assembly") /\
  (forall session,
      sessions st !! file = Some session ->
      totalChunks session <> stored ->
      assembleFile file st
      = Rejected ("Missing chunks: expected " +:+ pretty (totalChunks session)
                  +:+ ", got " +:+ pretty stored)).
Proof.
  intros Hdb stored.
  assert (size (merge_sort by_index (records file st)) = stored) as Hsize
      by (unfold stored, size; rewrite merge_sort_Permutation; reflexivity).
  unfold assembleFile, getAllChunks, getSession. rewrite Hdb. split.
  - intros ->. reflexivity.
  - intros session -> Hne. cbv zeta. rewrite Hsize.
    replace (stored =? totalChunks session) with false
      by (symmetry; apply Z.eqb_neq; congruence).
    reflexivity.
Qed.

Lemma assembleFile_rejects_witness :
  assembleFile "f1" shelf = Resolved ([Byte.x61; Byte.x62; Byte.x63], "text/plain"%string) /\
  assembleFile "f2" shelf = Rejected "Session not found for file assembly" /\
  assembleFile "f1" (MkStore true (delete ("f1"%string, 1) (chunks shelf)) (sessions shelf))
  = Rejected "Missing chunks: expected 3, got 2".
Proof.
  split; [vm_compute; reflexivity |]. split.
  - apply (assembleFile_rejects "f2" shelf eq_refl). reflexivity.
  - set (st := MkStore true (delete ("f1"%string, 1) (chunks shelf)) (sessions shelf)).
    destruct (assembleFile_rejects "f1" st eq_refl) as (_ & Hcount).
    rewrite (Hcount (MkSession "f1" "abc.txt" 3 "text/plain" 3 [] "00" false)).
    + vm_compute. reflexivity.
    + reflexivity.
    + vm_compute. discriminate.
Defined.

(** ** [deleteFileData] *)

(** X10: [deleteFileData(fileId)] removes the session and every chunk
    of that file and nothing else: afterwards the file has no session and
    no chunk at any index, [getAllChunks] finds none, and the chunks and
    sessions of every other file read as before. *)
Theorem deleteFileData_removes (file : string) (st : store) :
  db st = true ->
  exists st',
    deleteFileData file st = Resolved st' /\
    getSession file st' = Resolved None /\
    (forall i, getChunk file i st' = Resolved None) /\
    getAllChunks file st' = Resolved [] /\
    (forall other, other <> file ->
        getSession other st' = getSession other st /\
        getAllChunks other st' = getAllChunks other st /\
        forall i, getChunk other i st' = getChunk other i st).
Proof.
  intros Hdb. unfold deleteFileData. rewrite Hdb. eexists. split; [reflexivity |].
  set (kept := filter (fun entry : string * Z * list byte => entry.1.1 <> file)
                      (chunks st)).
  assert (forall i, kept !! (file, i) = None) as Hgone.
  { intros i. apply map_lookup_filter_None. right. intros data _ Hne.
    apply Hne. reflexivity. }
  assert (forall other i, other <> file -> kept !! (other, i) = chunks st !! (other, i))
    as Hkept.
  { intros other i Hne. destruct (chunks st !! (other, i)) as [data |] eqn:Hlook.
    - apply map_lookup_filter_Some. split; [exact Hlook | exact Hne].
    - apply map_lookup_filter_None. left. exact Hlook. }
  unfold getSession, getChunk, getAllChunks. cbn [db chunks sessions].
  conjuncts.
  - rewrite lookup_delete_eq. reflexivity.
  - intros i. rewrite Hgone. reflexivity.
  - assert (records file (MkStore true kept (delete file (sessions st))) = []) as ->;
      [| reflexivity].
    destruct (records file _) as [| [i data] rest] eqn:Hrec; [reflexivity |].
    assert ((i, data) ∈ records file (MkStore true kept (delete file (sessions st))))
      as Hin by (rewrite Hrec; left).
    apply elem_of_records in Hin. cbn [chunks] in Hin. rewrite Hgone in Hin.
    discriminate Hin.
  - intros other Hne. rewrite Hdb. conjuncts.
    + rewrite lookup_delete_ne by congruence. reflexivity.
    + f_equal. apply sorted_unique.
      * apply StronglySorted_merge_sort; apply _.
      * apply StronglySorted_merge_sort; apply _.
      * rewrite merge_sort_Permutation. apply records_keys.
      * rewrite !merge_sort_Permutation. apply NoDup_Permutation.
        -- eapply NoDup_fmap_1. apply records_keys.
        -- eapply NoDup_fmap_1. apply records_keys.
        -- intros [i data]. rewrite !elem_of_records. cbn [chunks].
           rewrite Hkept by exact Hne. reflexivity.
    + intros i. rewrite Hkept by exact Hne. reflexivity.
Qed.

Lemma deleteFileData_removes_witness :
  exists st',
    deleteFileData "f1" shelf = Resolved st' /\
    getAllChunks "f1" st' = Resolved [] /\
    getAllChunks "f2" st' = Resolved [(0, [Byte.x7a])].
Proof.
  destruct (deleteFileData_removes "f1" shelf eq_refl)
    as (st' & Hrun & _ & _ & Hnone & Hother).
  exists st'. split; [exact Hrun |]. split; [exact Hnone |].
  destruct (Hother "f2"%string ltac:(discriminate)) as (_ & Hsame & _).
  rewrite Hsame. vm_compute. reflexivity.
Defined.

End StorageFacts.

(* ================================================================== *)
(** * [processLargeFile] *)
(* ================================================================== *)

Module LargeFileFacts.

Import JS JSFacts LargeFileStorage StoredFiles LargeFileProcessing StorageFacts.
Local Open Scope Z_scope.

(** The chunks of a file concatenate to the file. *)
Lemma chunks_concat (file : File) (c : Z) :
  0 < c ->
  concat (map (fun i => MemoryOptimizedFileProcessor.readFileChunk file i c)
              (seqZ 0 (ceil_div (size (content file)) c)))
  = content file.
Proof.
  intros Hc.
  pose proof (ceil_div_bounds (size (content file)) c Hc) as Hn.
  assert (0 <= ceil_div (size (content file)) c) as Hn0
      by (apply ceil_div_nonneg; unfold size; lia).
  set (n := ceil_div (size (content file)) c) in *.
  erewrite map_ext by (intros i; apply ChunkerFacts.readFileChunk_slice).
  replace n with (Z.of_nat (Z.to_nat n)) by lia.
  rewrite concat_slices by exact Hc.
  apply take_ge. unfold size in Hn. nia.
Qed.

Lemma optimal_positive (fileSize : Z) :
  0 < MemoryOptimizedFileProcessor.getOptimalChunkSize fileSize.
Proof.
  unfold MemoryOptimizedFileProcessor.getOptimalChunkSize.
  repeat match goal with
         | |- context [?x <? ?y] => destruct (x <? y)
         end; lia.
Qed.

(** One [put] per delivered chunk. *)
Definition put (file_id : string) (m : gmap (string * Z) (list byte))
           (entry : Z * list byte) : gmap (string * Z) (list byte) :=
  <[(file_id, entry.1) := entry.2]> m.

Lemma store_chunks_open (file_id : string) (delivered : list (Z * list byte))
      (st : store) :
  db st = true ->
  store_chunks file_id delivered st
  = (MkStore true (fold_left (put file_id) delivered (chunks st)) (sessions st),
     None).
Proof.
  revert st. induction delivered as [| [i data] rest IH]; intros st Hdb.
  - cbn. destruct st. cbn in Hdb. subst. reflexivity.
  - cbn [store_chunks]. unfold storeChunk. rewrite Hdb. rewrite IH by reflexivity.
    reflexivity.
Qed.

Lemma store_chunks_closed (file_id : string) (delivered : list (Z * list byte))
      (st : store) :
  db st = false ->
  store_chunks file_id delivered st
  = (st, match delivered with
         | [] => None
         | _ => Some "Database not initialized"%string
         end).
Proof.
  intros Hdb. destruct delivered as [| [i data] rest]; [reflexivity |].
  cbn [store_chunks]. unfold storeChunk. rewrite Hdb. reflexivity.
Qed.

(** The store after the chunks [0 .. k-1] have been put. *)
Lemma put_lookup (file_id : string) (chunk : Z -> list byte) (n : Z)
      (m : gmap (string * Z) (list byte)) (other : string) (i : Z) :
  0 <= n ->
  fold_left (put file_id) (map (fun i => (i, chunk i)) (seqZ 0 n)) m
  !! (other, i)
  = if decide (other = file_id /\ 0 <= i < n)
    then Some (chunk i)
    else m !! (other, i).
Proof.
  intros Hn. replace n with (Z.of_nat (Z.to_nat n)) by lia.
  generalize (Z.to_nat n) as k. clear Hn n. intros k.
  induction k as [| k IH].
  - cbn. rewrite decide_False by lia. reflexivity.
  - replace (Z.of_nat (S k)) with (Z.of_nat k + 1) by lia.
    rewrite seqZ_app by lia. rewrite map_app, fold_left_app.
    assert (seqZ (0 + Z.of_nat k) 1 = [Z.of_nat k]) as ->
        by (unfold seqZ; cbn; f_equal; lia).
    cbn [map fold_left]. unfold put at 1. cbn [fst snd].
    destruct (decide ((other, i) = (file_id, Z.of_nat k))) as [Heq | Hne].
    + injection Heq as -> ->. rewrite lookup_insert_eq.
      rewrite decide_True by (split; [reflexivity | lia]). reflexivity.
    + rewrite lookup_insert_ne by congruence. rewrite IH.
      destruct (decide (other = file_id /\ 0 <= i < Z.of_nat k)) as [Hin | Hout].
      * rewrite decide_True by (split; [apply Hin | lia]). reflexivity.
      * rewrite decide_False; [reflexivity |].
        intros (-> & Hrange). apply Hout. split; [reflexivity |].
        assert (i <> Z.of_nat k) by congruence. lia.
Qed.

Section Processing.

Variable jsHeapSizeLimit : option Z.
Variable file_id : string.
Variable file : File.
Variable s : state.

Let bytes := content file.
Let c := MemoryOptimizedFileProcessor.getOptimalChunkSize (size bytes).
Let n := ceil_div (size bytes) c.
Let verdict := ProcessorChecks.canProcessFile jsHeapSizeLimit (size bytes).

(** The session that [processLargeFile] saves. *)
Definition processed_session : FileTransferSession :=
  MkSession file_id (name file)
            (size (content file)) (type file)
            (ceil_div (size (content file))
                      (MemoryOptimizedFileProcessor.getOptimalChunkSize
                         (size (content file))))
            (seqZ 0 (ceil_div (size (content file))
                              (MemoryOptimizedFileProcessor.getOptimalChunkSize
                                 (size (content file)))))
            (SHA256.hex
               (MemoryOptimizedFileProcessor.combine_hashes
                  (map (fun i =>
                          SHA256.digest
                            (MemoryOptimizedFileProcessor.readFileChunk
                               file i
                               (MemoryOptimizedFileProcessor.getOptimalChunkSize
                                  (size (content file)))))
                       (seqZ 0 (ceil_div
                                  (size (content file))
                                  (MemoryOptimizedFileProcessor.getOptimalChunkSize
                                     (size (content file))))))))
            true.

Lemma n_nonneg : 0 <= n.
Proof. apply ceil_div_nonneg; [apply optimal_positive | unfold size; lia]. Qed.

(** What [processLargeFile] does on an opened store when the device can
    take the file. *)
Lemma processLargeFile_stores :
  db (storage s) = true ->
  ProcessorChecks.canProcess verdict = true ->
  processLargeFile jsHeapSizeLimit file_id file s
  = (Resolved file_id,
     MkState
       (MkStore true
                (fold_left (put file_id)
                           (map (fun i =>
                                   (i, MemoryOptimizedFileProcessor.readFileChunk
                                         file i c))
                                (seqZ 0 n))
                           (chunks (storage s)))
                (<[file_id := processed_session]> (sessions (storage s))))
       (({[name file]} ∪ processingFiles s) ∖ {[name file]})
       (transferErrors s)).
Proof.
  intros Hdb Hcan. unfold processLargeFile. cbv zeta.
  fold bytes verdict. rewrite Hcan. cbn [negb].
  change (ProcessorChecks.recommendedChunkSize verdict) with c.
  rewrite ChunkerFacts.processFileStream_completes by reflexivity.
  cbv zeta. fold bytes n. cbn [storage].
  rewrite store_chunks_open by exact Hdb.
  unfold saveSession. cbn [db chunks sessions fileId
    MemoryOptimizedFileProcessor.totalChunks MemoryOptimizedFileProcessor.fileHash
    processingFiles transferErrors].
  reflexivity.
Qed.

(** X11: [processLargeFile] and [assembleFile] are a round trip.  On an
    opened store, for a file the device can take and an id under which no
    chunk is stored yet, [processLargeFile] resolves with the id, takes
    the file name out of [processingFiles] again and records no error, and
    afterwards [assembleFile] of that id yields the bytes and the type of
    the file; the session it saves counts
    [ceil(size / getOptimalChunkSize(size))] chunks, lists every one of
    them as completed and is marked complete; the chunks and sessions of
    other ids are untouched. *)
Theorem processLargeFile_round_trip :
  db (storage s) = true ->
  ProcessorChecks.canProcess verdict = true ->
  (forall i, chunks (storage s) !! (file_id, i) = None) ->
  let run := processLargeFile jsHeapSizeLimit file_id file s in
  let st' := storage (snd run) in
  fst run = Resolved file_id /\
  assembleFile file_id st' = Resolved (content file, type file) /\
  getSession file_id st' = Resolved (Some processed_session) /\
  totalChunks processed_session = n /\
  completedChunks processed_session = seqZ 0 n /\
  isComplete processed_session = true /\
  (forall i, 0 <= i < n ->
     getChunk file_id i st'
     = Resolved (Some (MemoryOptimizedFileProcessor.readFileChunk file i c))) /\
  (forall other, other <> file_id ->
     getSession other st' = getSession other (storage s) /\
     forall i, getChunk other i st' = getChunk other i (storage s)) /\
  (name file ∉ processingFiles (snd run)) /\
  transferErrors (snd run) = transferErrors s.
Proof.
  intros Hdb Hcan Hfresh run st'. subst st' run.
  rewrite (processLargeFile_stores Hdb Hcan). cbn [fst snd storage].
  set (stored := fold_left _ _ _).
  pose proof n_nonneg as Hn0.
  assert (forall other i,
             stored !! (other, i)
             = if decide (other = file_id /\ 0 <= i < n)
               then Some (MemoryOptimizedFileProcessor.readFileChunk file i c)
               else chunks (storage s) !! (other, i)) as Hlook.
  { intros other i. unfold stored.
    apply (put_lookup file_id
             (fun i => MemoryOptimizedFileProcessor.readFileChunk file i c)).
    exact Hn0. }
  set (st' := MkStore true stored _).
  conjuncts; try reflexivity.
  - rewrite (assemble_at file_id st' processed_session (seqZ 0 n)).
    + assert (concat (map (chunk_of st' file_id) (seqZ 0 n)) = content file) as ->;
        [| reflexivity].
      transitivity
        (concat (map (fun i => MemoryOptimizedFileProcessor.readFileChunk file i c)
                     (seqZ 0 n)));
        [| apply chunks_concat, optimal_positive].
      f_equal. apply map_ext_in. intros i Hi.
      apply list_elem_of_In, elem_of_seqZ in Hi.
      unfold chunk_of, st'. cbn [chunks]. rewrite Hlook.
      rewrite decide_True by (split; [reflexivity | lia]). reflexivity.
    + reflexivity.
    + unfold st'. cbn [sessions]. apply lookup_insert_eq.
    + replace n with (Z.of_nat (Z.to_nat n)) by lia. apply ManagerFacts.seqZ_sorted.
    + intros i. unfold st'. cbn [chunks]. rewrite Hlook.
      rewrite <- list_elem_of_In, elem_of_seqZ. split.
      * intros Hsome. destruct (decide _) as [(_ & Hi) | _]; [lia |].
        rewrite Hfresh in Hsome. destruct Hsome as (x & Hx). discriminate Hx.
      * intros Hi. rewrite decide_True by (split; [reflexivity | lia]).
        eexists. reflexivity.
    + unfold size. rewrite length_seqZ. unfold processed_session. cbn [totalChunks].
      fold bytes c n. lia.
  - unfold getSession, st'. cbn [db sessions]. rewrite lookup_insert_eq. reflexivity.
  - intros i Hi. unfold getChunk, st'. cbn [db chunks]. rewrite Hlook.
    rewrite decide_True by (split; [reflexivity | lia]). reflexivity.
  - intros other Hne. unfold getSession, getChunk, st'. cbn [db chunks sessions].
    rewrite Hdb. split.
    + rewrite lookup_insert_ne by congruence. reflexivity.
    + intros i. rewrite Hlook. rewrite decide_False; [reflexivity |].
      intros (Heq & _). contradiction.
  - cbn [processingFiles]. set_solver.
Qed.

(** X12: how [processLargeFile] fails.  When [canProcessFile] refuses
    the file, it rejects with ["File too large for this device. Estimated
    memory needed: NMB"] before anything is read; on a store that was
    never opened it rejects with ["Database not initialized"].  Either
    way the store is unchanged, the message is recorded in
    [transferErrors] under the file name, and the name is no longer in
    [processingFiles]. *)
Theorem processLargeFile_rejects :
  let run := processLargeFile jsHeapSizeLimit file_id file s in
  let failed_with message :=
    fst run = Rejected message /\
    storage (snd run) = storage s /\
    transferErrors (snd run) !! name file = Some message /\
    (name file ∉ processingFiles (snd run)) in
  (ProcessorChecks.canProcess verdict = false ->
   failed_with
     ("File too large for this device. Estimated memory needed: "
      +:+ pretty (megabytes (ProcessorChecks.estimatedMemoryUsage verdict))
      +:+ "MB")) /\
  (ProcessorChecks.canProcess verdict = true ->
   db (storage s) = false ->
   failed_with "Database not initialized").
Proof.
  intros run failed_with. subst failed_with run. split.
  - intros Hcan. unfold processLargeFile. cbv zeta. fold bytes verdict.
    rewrite Hcan. cbn [negb caught fst snd storage transferErrors processingFiles].
    conjuncts; try reflexivity; [apply lookup_insert_eq | set_solver].
  - intros Hcan Hdb. unfold processLargeFile. cbv zeta. fold bytes verdict.
    rewrite Hcan. cbn [negb].
    change (ProcessorChecks.recommendedChunkSize verdict) with c.
    rewrite ChunkerFacts.processFileStream_completes by reflexivity.
    cbv zeta. fold bytes n. cbn [storage].
    rewrite store_chunks_closed by exact Hdb.
    destruct (map (fun i => (i, MemoryOptimizedFileProcessor.readFileChunk file i c))
                  (seqZ 0 n)) as [| first rest].
    + unfold saveSession. rewrite Hdb.
      cbn [caught fst snd storage transferErrors processingFiles].
      conjuncts; try reflexivity; [apply lookup_insert_eq | set_solver].
    + cbn [caught fst snd storage transferErrors processingFiles].
      conjuncts; try reflexivity; [apply lookup_insert_eq | set_solver].
Qed.

End Processing.

(** The 10-byte file on an empty opened store, on a device that reports
    no heap limit. *)
Lemma processLargeFile_round_trip_witness :
  let run :=
    processLargeFile None "id-1" ChunkerFacts.notes_txt
                     (MkState (MkStore true ∅ ∅) ∅ ∅) in
  fst run = Resolved "id-1"%string /\
  assembleFile "id-1" (storage (snd run))
  = Resolved (content ChunkerFacts.notes_txt, "text/plain"%string).
Proof.
  destruct (processLargeFile_round_trip
              None "id-1" ChunkerFacts.notes_txt (MkState (MkStore true ∅ ∅) ∅ ∅)
              eq_refl eq_refl ltac:(intros i; apply lookup_empty))
    as (Hrun & Hback & _).
  split; [exact Hrun | exact Hback].
Defined.

(** A device reporting a 2 MiB heap refuses even the 10-byte file; a
    store that was never opened fails it. *)
Lemma processLargeFile_rejects_witness :
  fst (processLargeFile (Some 2097152) "id-1" ChunkerFacts.notes_txt
                        (MkState (MkStore true ∅ ∅) ∅ ∅))
  = Rejected "File too large for this device. Estimated memory needed: 1MB" /\
  fst (processLargeFile None "id-1" ChunkerFacts.notes_txt
                        (MkState (MkStore false ∅ ∅) ∅ ∅))
  = Rejected "Database not initialized".
Proof.
  split.
  - destruct (processLargeFile_rejects
                (Some 2097152) "id-1" ChunkerFacts.notes_txt
                (MkState (MkStore true ∅ ∅) ∅ ∅)) as (Hlarge & _).
    destruct (Hlarge eq_refl) as (Hrun & _). rewrite Hrun. reflexivity.
  - destruct (processLargeFile_rejects
                None "id-1" ChunkerFacts.notes_txt
                (MkState (MkStore false ∅ ∅) ∅ ∅)) as (_ & Hclosed).
    destruct (Hclosed eq_refl eq_refl) as (Hrun & _). exact Hrun.
Defined.

End LargeFileFacts.

(* ================================================================== *)
(** * Sessions: initialize, interrupt, resume, cancel *)
(* ================================================================== *)

Module SessionFacts.

Import JS JSFacts Wire TransferSessionManager Sessions ManagerFacts.
Local Open Scope Z_scope.

(** ** [initializeSession] *)

(** The transfer state that [initializeSession] derives from a session. *)
Definition initial_state (file_id : string)
           (session : LargeFileStorage.FileTransferSession) : TransferState :=
  MkTransferState file_id idle
                  (size (LargeFileStorage.completedChunks session))
                  (LargeFileStorage.totalChunks session)
                  (0 <? size (LargeFileStorage.completedChunks session))
                  None.

(** The session that [initializeSession] creates for a file without one. *)
Definition fresh_session (file_id : string) (file : File)
  : LargeFileStorage.FileTransferSession :=
  LargeFileStorage.MkSession
    file_id (name file) (size (content file)) (type file)
    (ceil_div (size (content file))
              (MemoryOptimizedFileProcessor.getOptimalChunkSize
                 (size (content file))))
    [] EmptyString false.

(** [initializeSession] on an opened store. *)
Lemma initializeSession_open (file_id : string) (file : File) (mgr : manager) :
  LargeFileStorage.db (storage mgr) = true ->
  let session :=
    default (fresh_session file_id file)
            (LargeFileStorage.sessions (storage mgr) !! file_id) in
  initializeSession file_id file mgr
  = (Resolved (initial_state file_id session),
     MkManager
       (LargeFileStorage.MkStore
          true (LargeFileStorage.chunks (storage mgr))
          (<[file_id := session]> (LargeFileStorage.sessions (storage mgr))))
       (<[file_id := initial_state file_id session]> (activeSessions mgr))
       (transferControllers mgr) (outbox mgr) (calls mgr)).
Proof.
  intros Hdb session.
  unfold initializeSession, LargeFileStorage.getSession. rewrite Hdb.
  subst session.
  destruct (LargeFileStorage.sessions (storage mgr) !! file_id)
    as [session |] eqn:Hfound; cbn [default].
  - cbv zeta. unfold initial_state. do 2 f_equal.
    rewrite (store_eta (storage mgr)) at 1. rewrite Hdb.
    f_equal. symmetry. apply insert_id. exact Hfound.
  - unfold LargeFileStorage.saveSession. rewrite Hdb. reflexivity.
Qed.

Lemma initializeSession_ready (file_id : string) (file : File) (mgr : manager)
      (options : ResumeOptions) :
  LargeFileStorage.db (storage mgr) = true ->
  resumeFileId options = file_id ->
  let session :=
    default (fresh_session file_id file)
            (LargeFileStorage.sessions (storage mgr) !! file_id) in
  LargeFileStorage.fileId session = file_id ->
  ready options (snd (initializeSession file_id file mgr)) session
        (initial_state file_id session).
Proof.
  intros Hdb Hfile session Hkey.
  rewrite (initializeSession_open file_id file mgr Hdb). fold session.
  unfold ready. rewrite Hfile. cbn.
  conjuncts; try reflexivity; try assumption; apply lookup_insert_eq.
Qed.

(** X13: [initializeSession] keeps a persisted session and creates the
    missing one.  On an opened store, a session already persisted under
    the id is left as it is, and the transfer state counts its completed
    chunks, resumable when there is at least one; without a persisted
    session a new one is saved with [ceil(size / getOptimalChunkSize(size))]
    chunks, none completed.  In both cases the state starts [idle] and a
    [resumeTransfer] that follows finds what it needs: it resolves.  On a
    store that was never opened [initializeSession] rejects and changes
    nothing. *)
Theorem initializeSession_prepares
        (file_id : string) (file : File) (mgr : manager) :
  let run := initializeSession file_id file mgr in
  (LargeFileStorage.db (storage mgr) = true ->
   let session :=
     default (fresh_session file_id file)
             (LargeFileStorage.sessions (storage mgr) !! file_id) in
   fst run = Resolved (initial_state file_id session) /\
   getTransferState file_id (snd run) = Some (initial_state file_id session) /\
   LargeFileStorage.getSession file_id (storage (snd run)) = Resolved (Some session) /\
   (is_Some (LargeFileStorage.sessions (storage mgr) !! file_id) ->
    storage (snd run) = storage mgr) /\
   LargeFileStorage.chunks (storage (snd run))
   = LargeFileStorage.chunks (storage mgr) /\
   outbox (snd run) = outbox mgr /\
   (LargeFileStorage.fileId session = file_id ->
    forall options env,
      resumeFileId options = file_id ->
      fst (resumeTransfer options env (snd run)) = Resolved tt)) /\
  (LargeFileStorage.db (storage mgr) = false ->
   run = (Rejected "Database not initialized", mgr)).
Proof.
  intros run. subst run. split.
  - intros Hdb session.
    pose proof (initializeSession_open file_id file mgr Hdb) as Hrun.
    fold session in Hrun.
    rewrite Hrun. cbn [fst snd storage outbox].
    conjuncts; try reflexivity.
    + unfold getTransferState. cbn [activeSessions]. apply lookup_insert_eq.
    + unfold LargeFileStorage.getSession. cbn. rewrite lookup_insert_eq. reflexivity.
    + intros (found & Hfound). subst session. rewrite Hfound.
      cbn [default from_option]. unfold id.
      rewrite insert_id by exact Hfound. rewrite <- Hdb. symmetry. apply store_eta.
    + intros Hkey options env Hfile.
      match goal with
      | |- fst (resumeTransfer _ _ ?m) = _ =>
          destruct (resume_spec options env m session
                                (initial_state file_id session))
            as (k & a & flag & ts' & Hres & _); [| exact Hres]
      end.
      unfold ready. rewrite Hfile. cbn.
      conjuncts; try reflexivity; try assumption; apply lookup_insert_eq.
  - intros Hdb. unfold initializeSession, LargeFileStorage.getSession.
    rewrite Hdb. reflexivity.
Qed.

Lemma initializeSession_prepares_witness :
  fst (initializeSession "f1" ChunkerFacts.notes_txt demo_manager)
  = Resolved (MkTransferState "f1" idle 3 5 true None) /\
  fst (initializeSession "f9" ChunkerFacts.notes_txt demo_manager)
  = Resolved (MkTransferState "f9" idle 0 1 false None) /\
  fst (resumeTransfer demo_options polite
         (snd (initializeSession "f1" ChunkerFacts.notes_txt demo_manager)))
  = Resolved tt.
Proof.
  destruct (initializeSession_prepares "f1" ChunkerFacts.notes_txt demo_manager)
    as (Hopen & _).
  destruct (Hopen eq_refl) as (Hrun & _ & _ & _ & _ & _ & Hresume).
  split; [exact Hrun |]. split; [reflexivity |].
  apply Hresume; reflexivity.
Defined.

(** ** Where [resumeTransfer] stops *)

Section Interrupted.

Variable options : ResumeOptions.
Variable env : environment.

Local Abbreviation fid := (resumeFileId options).

Lemma transfer_loop_app (pre rest : list Z) :
  forall mgr session ts,
    thrown (transfer_loop options env pre mgr session ts) = None ->
    transfer_loop options env (pre ++ rest) mgr session ts
    = transfer_loop options env rest
                    (mgr_ (transfer_loop options env pre mgr session ts))
                    (session_ (transfer_loop options env pre mgr session ts))
                    (transferState_ (transfer_loop options env pre mgr session ts)).
Proof.
  induction pre as [| i pre IH]; intros mgr session ts Hnone.
  - reflexivity.
  - cbn [app transfer_loop] in *.
    destruct (pausedBefore env i); [discriminate Hnone |].
    destruct (transferChunk options env i mgr) as [mgr1 [message |]];
      [discriminate Hnone |].
    cbv zeta in *.
    destruct (LargeFileStorage.saveSession _ _); [| discriminate Hnone].
    apply IH. exact Hnone.
Qed.

(** What can stop the loop before chunk [j]: [pauseTransfer] has run, the
    chunk is not in the store, the peer answers with a failure, or the
    30 s timer fires. *)
Inductive obstacle :=
| Paused
| Missing
| Refused (reason : string)
| TimedOut.

Definition obstructed (st : LargeFileStorage.store) (j : Z) (o : obstacle) : Prop :=
  match o with
  | Paused => pausedBefore env j = true
  | Missing =>
      pausedBefore env j = false /\ LargeFileStorage.chunks st !! (fid, j) = None
  | Refused reason =>
      pausedBefore env j = false /\
      is_Some (LargeFileStorage.chunks st !! (fid, j)) /\
      replies env j = AckFailure reason
  | TimedOut =>
      pausedBefore env j = false /\
      is_Some (LargeFileStorage.chunks st !! (fid, j)) /\
      replies env j = SendTimeout
  end.

(** The message of the error that is caught. *)
Definition complaint (j : Z) (o : obstacle) : string :=
  match o with
  | Paused => "Transfer aborted"
  | Missing => "Chunk data not available - file may need to be reprocessed"
  | Refused reason => "Chunk " +:+ pretty j +:+ " failed: " +:+ reason
  | TimedOut => "Chunk " +:+ pretty j +:+ " send timeout"
  end.

(** Whether chunk [j] itself went out. *)
Definition attempted (o : obstacle) : bool :=
  match o with
  | Refused _ | TimedOut => true
  | Paused | Missing => false
  end.

Lemma loop_obstructed (j : Z) (rest : list Z) (o : obstacle)
      (mgr : manager) (session : LargeFileStorage.FileTransferSession)
      (ts : TransferState) :
  LargeFileStorage.db (storage mgr) = true ->
  LargeFileStorage.sessions (storage mgr) !! fid = Some session ->
  obstructed (storage mgr) j o ->
  let after := transfer_loop options env (j :: rest) mgr session ts in
  thrown after = Some (complaint j o) /\
  session_ after = session /\
  storage (mgr_ after) = storage mgr /\
  transferControllers (mgr_ after) = transferControllers mgr /\
  outbox (mgr_ after)
  = outbox mgr ++ (if attempted o
                   then [chunkMessage options session (storage mgr) j]
                   else []) /\
  transferState_ after
  = (match o with
     | Paused => withStatus ts paused (transferredChunks ts) true (errorMessage ts)
     | _ => ts
     end) /\
  activeSessions (mgr_ after)
  = (match o with
     | Paused =>
         <[fileId ts := withStatus ts paused (transferredChunks ts) true
                                   (errorMessage ts)]> (activeSessions mgr)
     | _ => activeSessions mgr
     end).
Proof.
  intros Hdb Hsession Hob after. subst after. cbn [transfer_loop].
  destruct o as [| | reason |]; cbn [obstructed complaint attempted] in *.
  - rewrite Hob. cbn. rewrite app_nil_r. conjuncts; reflexivity.
  - destruct Hob as (Hrun & Hnone). rewrite Hrun.
    unfold transferChunk, LargeFileStorage.getSession, LargeFileStorage.getChunk.
    rewrite Hdb, Hsession, Hnone. cbn. rewrite app_nil_r. conjuncts; reflexivity.
  - destruct Hob as (Hrun & (data & Hdata) & Hreply). rewrite Hrun.
    unfold transferChunk, LargeFileStorage.getSession, LargeFileStorage.getChunk.
    rewrite Hdb, Hsession, Hdata. cbv zeta. rewrite Hreply.
    unfold chunkMessage. rewrite Hdata. cbn. conjuncts; reflexivity.
  - destruct Hob as (Hrun & (data & Hdata) & Hreply). rewrite Hrun.
    unfold transferChunk, LargeFileStorage.getSession, LargeFileStorage.getChunk.
    rewrite Hdb, Hsession, Hdata. cbv zeta. rewrite Hreply.
    unfold chunkMessage. rewrite Hdata. cbn. conjuncts; reflexivity.
Qed.

(** The state in which an interrupted [resumeTransfer] leaves the
    manager. *)
Lemma resume_interrupted
      (mgr : manager) (session : LargeFileStorage.FileTransferSession)
      (ts : TransferState) (pre rest : list Z) (j : Z) (o : obstacle) :
  ready options mgr session ts ->
  remainingChunks session = pre ++ j :: rest ->
  (forall i, In i pre -> cooperative_at options env (storage mgr) i) ->
  obstructed (storage mgr) j o ->
  let mgr' := snd (resumeTransfer options env mgr) in
  let session' :=
    withCompleted session (LargeFileStorage.completedChunks session ++ pre)
                  (LargeFileStorage.isComplete session) in
  let ts' :=
    MkTransferState fid error (transferredChunks ts + size pre) (totalChunks ts)
                    (match o with Paused => true | _ => canResume ts end)
                    (Some (complaint j o)) in
  fst (resumeTransfer options env mgr) = Resolved tt /\
  outbox mgr'
  = outbox mgr ++ map (chunkMessage options session (storage mgr)) pre
    ++ (if attempted o then [chunkMessage options session (storage mgr) j] else []) /\
  storage mgr'
  = LargeFileStorage.MkStore
      true (LargeFileStorage.chunks (storage mgr))
      (<[fid := session']> (LargeFileStorage.sessions (storage mgr))) /\
  activeSessions mgr' = <[fid := ts']> (activeSessions mgr) /\
  transferControllers mgr' = transferControllers mgr ∖ {[fid]}.
Proof.
  intros (Hdb & Hsess & Hkey & Hstate & Hts) Hremaining Hpre Hob mgr' session' ts'.
  subst mgr'. unfold resumeTransfer, LargeFileStorage.getSession.
  rewrite Hdb, Hsess, Hstate. cbv zeta. rewrite Hremaining.
  set (ts1 := withStatus ts transferring (transferredChunks ts) (canResume ts)
                         (errorMessage ts)).
  set (mgr1 := setState ts1 (setController fid true mgr)).
  assert (fileId ts1 = fid) as Hts1 by exact Hts.
  destruct (transfer_loop_spec options env pre mgr1 session ts1)
    as (k & a & _ & _ & Ho & Hs & Hl & Hd & Hc & Hf & Ha & Ht & Hnone & Hcoop).
  { exact Hdb. }
  { exact Hsess. }
  { exact Hkey. }
  { unfold mgr1. cbn [activeSessions setState]. apply lookup_insert_eq. }
  specialize (Hcoop Hpre). destruct (Hnone Hcoop) as (-> & -> & Hstate').
  rewrite firstn_all in Ho, Hs.
  rewrite (transfer_loop_app pre (j :: rest) mgr1 session ts1 Hcoop).
  set (after := transfer_loop options env pre mgr1 session ts1) in *.
  assert (storage (mgr_ after)
          = LargeFileStorage.MkStore
              true (LargeFileStorage.chunks (storage mgr))
              (<[fid := session']> (LargeFileStorage.sessions (storage mgr))))
    as Hstore.
  { rewrite (store_eta (storage (mgr_ after))), Hd, Hc, Hl, Hs. reflexivity. }
  destruct (loop_obstructed j rest o (mgr_ after) (session_ after)
                            (transferState_ after)) as
      (Hthrown & Hsession2 & Hstore2 & Hctl2 & Hout2 & Hts2 & Hact2).
  { exact Hd. }
  { rewrite Hl. apply lookup_insert_eq. }
  { rewrite Hstore. destruct o; exact Hob. }
  set (final := transfer_loop options env (j :: rest) _ _ _) in *.
  rewrite Hthrown. unfold caught. cbv zeta.
  match goal with
  | |- context [call ?p ?c ?m] =>
      destruct (call_frame p c m) as (Hst & Hact & Hctl' & Hout)
  end.
  cbn [fst snd outbox storage activeSessions transferControllers setController].
  rewrite Hst, Hact, Hctl', Hout.
  cbn [outbox storage activeSessions transferControllers setState withStatus fileId].
  assert (chunkMessage options (session_ after) (storage (mgr_ after)) j
          = chunkMessage options session (storage mgr) j) as Hmsg.
  { unfold chunkMessage. rewrite Hstore, Hs. reflexivity. }
  conjuncts.
  - reflexivity.
  - rewrite Hout2, Ho, Hmsg. unfold mgr1. cbn [outbox setState setController storage].
    rewrite <- app_assoc. reflexivity.
  - rewrite Hstore2. exact Hstore.
  - assert (fileId (transferState_ final) = fid) as Hfinal.
    { rewrite Hts2. destruct o; cbn [withStatus fileId]; congruence. }
    rewrite Hfinal, Hact2, Ha, Hts1, Hf, Hts1.
    unfold mgr1. cbn [activeSessions setState setController]. rewrite Hts1.
    unfold ts'. rewrite Hts2, Hstate'.
    destruct o; rewrite ?insert_insert_eq; f_equal;
      unfold ts1, withStatus, size;
      cbn [fileId status transferredChunks totalChunks canResume errorMessage];
      rewrite Hts; reflexivity.
  - rewrite Hctl2, Ht. unfold mgr1. cbn [transferControllers setState setController].
    set_solver.
Qed.

(** X14: where [resumeTransfer] stops, and in what state.  When the
    remaining chunks up to [j] are in the store and acknowledged and
    something stops the loop at [j] (a pause, a chunk missing from the
    store, a refusal by the peer, the 30 s timer), exactly the chunks
    before [j] have been sent and persisted as completed, [j] itself has
    gone out only if the peer refused it or let it time out, and the
    transfer ends with [status = 'error'] and the message of that obstacle:
    a pause too ends as an error, ["Transfer aborted"], not as ['paused'].
    The promise resolves all the same.  The session is then listed by
    [getResumableTransfers] exactly when it is not marked complete and at
    least one chunk is recorded. *)
Theorem resumeTransfer_interrupted
        (mgr : manager) (session : LargeFileStorage.FileTransferSession)
        (ts : TransferState) (pre rest : list Z) (j : Z) (o : obstacle) :
  ready options mgr session ts ->
  remainingChunks session = pre ++ j :: rest ->
  (forall i, In i pre -> cooperative_at options env (storage mgr) i) ->
  obstructed (storage mgr) j o ->
  let run := resumeTransfer options env mgr in
  let message := chunkMessage options session (storage mgr) in
  let recorded := LargeFileStorage.completedChunks session ++ pre in
  let session' :=
    withCompleted session recorded (LargeFileStorage.isComplete session) in
  fst run = Resolved tt /\
  outbox (snd run)
  = outbox mgr ++ map message pre ++ (if attempted o then [message j] else []) /\
  LargeFileStorage.getSession fid (storage (snd run)) = Resolved (Some session') /\
  getTransferState fid (snd run)
  = Some (MkTransferState fid error (transferredChunks ts + size pre)
                          (totalChunks ts)
                          (match o with Paused => true | _ => canResume ts end)
                          (Some (complaint j o))) /\
  exists listed,
    getResumableTransfers (snd run) = Resolved listed /\
    (In session' listed <->
     LargeFileStorage.isComplete session = false /\ recorded <> []).
Proof.
  intros Hready Hremaining Hpre Hob run message recorded session'.
  destruct (resume_interrupted mgr session ts pre rest j o
                               Hready Hremaining Hpre Hob)
    as (Hres & Hout & Hst & Hact & _).
  subst run. conjuncts.
  - exact Hres.
  - exact Hout.
  - rewrite Hst. unfold LargeFileStorage.getSession. cbn.
    rewrite lookup_insert_eq. reflexivity.
  - unfold getTransferState. rewrite Hact. apply lookup_insert_eq.
  - unfold getResumableTransfers, StoredFiles.getAllSessions. rewrite Hst.
    cbn [LargeFileStorage.db LargeFileStorage.sessions].
    eexists. split; [reflexivity |].
    rewrite filter_In, andb_true_iff, negb_true_iff, Z.ltb_lt.
    rewrite <- list_elem_of_In.
    change (LargeFileStorage.isComplete session')
      with (LargeFileStorage.isComplete session).
    change (LargeFileStorage.completedChunks session') with recorded.
    assert (session' ∈ (map_to_list
                          (<[fid := session']>
                             (LargeFileStorage.sessions (storage mgr)))).*2)
      as Hin.
    { apply list_elem_of_fmap. exists (fid, session'). split; [reflexivity |].
      apply elem_of_map_to_list, lookup_insert_eq. }
    assert (0 < size recorded <-> recorded <> []) as Hsize.
    { unfold size. destruct recorded; cbn; split; intros H; try lia; congruence. }
    rewrite Hsize. tauto.
Qed.

End Interrupted.

(** ** The chunks that remain after some were recorded *)

Lemma filter_filter {A} (p q : A -> bool) (l : list A) :
  List.filter p (List.filter q l) = List.filter (fun x => q x && p x) l.
Proof.
  induction l as [| x l IH]; cbn; [reflexivity |].
  destruct (q x); cbn; [destruct (p x) |]; rewrite IH; reflexivity.
Qed.

Lemma filter_listed (pre l : list Z) :
  (forall i, In i l -> i ∈ pre) ->
  List.filter (fun i => negb (bool_decide (i ∈ pre))) l = [].
Proof.
  induction l as [| i l IH]; intros Hall; cbn; [reflexivity |].
  rewrite bool_decide_eq_true_2 by (apply Hall; left; reflexivity).
  cbn. apply IH. intros k Hk. apply Hall. right. exact Hk.
Qed.

Lemma filter_unlisted (pre l : list Z) :
  (forall i, In i l -> i ∉ pre) ->
  List.filter (fun i => negb (bool_decide (i ∈ pre))) l = l.
Proof.
  induction l as [| i l IH]; intros Hall; cbn; [reflexivity |].
  rewrite bool_decide_eq_false_2 by (apply Hall; left; reflexivity).
  cbn. f_equal. apply IH. intros k Hk. apply Hall. right. exact Hk.
Qed.

Lemma remaining_after (session : LargeFileStorage.FileTransferSession)
      (pre tail : list Z) (flag : bool) :
  remainingChunks session = pre ++ tail ->
  remainingChunks
    (withCompleted session (LargeFileStorage.completedChunks session ++ pre) flag)
  = tail.
Proof.
  intros Hremaining.
  destruct (remainingChunks_spec session) as (_ & _ & Hnodup).
  rewrite Hremaining in Hnodup.
  unfold remainingChunks in *. cbv zeta in *.
  cbn [withCompleted LargeFileStorage.completedChunks LargeFileStorage.totalChunks].
  set (l := seqZ 0 (LargeFileStorage.totalChunks session)) in *.
  set (done := LargeFileStorage.completedChunks session) in *.
  assert (List.filter
            (fun i => negb (bool_decide (i ∈ (list_to_set (done ++ pre) : gset Z)))) l
          = List.filter (fun i => negb (bool_decide (i ∈ pre)))
                        (List.filter
                           (fun i => negb (bool_decide (i ∈ (list_to_set done : gset Z))))
                           l)) as ->.
  { rewrite filter_filter. apply List.filter_ext. intros i.
    rewrite list_to_set_app_L.
    destruct (bool_decide_reflect (i ∈ (list_to_set done : gset Z))) as [Hd | Hd];
      destruct (bool_decide_reflect (i ∈ pre)) as [Hp | Hp]; cbn;
      [apply negb_false_iff | apply negb_false_iff | apply negb_false_iff
       | apply negb_true_iff];
      (apply bool_decide_eq_true_2 || apply bool_decide_eq_false_2); set_solver. }
  rewrite Hremaining. rewrite List.filter_app.
  apply NoDup_app in Hnodup as (_ & Hdisjoint & _).
  rewrite filter_listed by (intros i Hi; apply list_elem_of_In; exact Hi).
  cbn [app].
  apply filter_unlisted. intros i Hi Hp. apply (Hdisjoint i Hp).
  apply list_elem_of_In. exact Hi.
Qed.

(** A pause requested while chunk 2 of the five-chunk session is on its
    way: chunk 2 is sent and recorded, chunk 4 is not sent, and the
    transfer ends as an error. *)
Definition pause_before_4 : environment :=
  MkEnvironment (fun _ => AckSuccess) (fun i => i =? 4).

Lemma demo_ready :
  ready demo_options demo_manager demo_session
        (MkTransferState "f1" idle 3 5 true None).
Proof. unfold ready. conjuncts; reflexivity. Qed.

Lemma resumeTransfer_interrupted_witness :
  let run := resumeTransfer demo_options pause_before_4 demo_manager in
  outbox (snd run) = [large_file_chunk "f1" "movie.bin" 2 5 [Byte.x12] 1 "abcd"] /\
  getTransferState "f1" (snd run)
  = Some (MkTransferState "f1" error 4 5 true (Some "Transfer aborted"%string)).
Proof.
  destruct (resumeTransfer_interrupted
              demo_options pause_before_4 demo_manager demo_session
              (MkTransferState "f1" idle 3 5 true None) [2] [] 4 Paused
              demo_ready eq_refl) as (_ & Hout & _ & Hstate & _).
  - intros i [<- | []].
    split; [reflexivity | split; [reflexivity | eexists; reflexivity]].
  - reflexivity.
  - split; [exact Hout | exact Hstate].
Defined.

(** X15: resuming after an interruption picks up where it stopped.
    After a [resumeTransfer] that was stopped at chunk [j], a second one
    with a peer that acknowledges every chunk sends exactly [j] and the
    chunks after it, in order; over both runs every chunk acknowledged in
    the first is sent once and never again, [j] is sent twice only if it
    had gone out unacknowledged.  The session ends complete with every
    remaining chunk recorded, and the transfer state ends ['complete'],
    still carrying the message of the earlier error. *)
Theorem resume_after_interruption
        (options : ResumeOptions) (env env2 : environment) (mgr : manager)
        (session : LargeFileStorage.FileTransferSession) (ts : TransferState)
        (pre rest : list Z) (j : Z) (o : obstacle) :
  ready options mgr session ts ->
  remainingChunks session = pre ++ j :: rest ->
  (forall i, In i pre -> cooperative_at options env (storage mgr) i) ->
  obstructed options env (storage mgr) j o ->
  (forall i, In i (j :: rest) -> cooperative_at options env2 (storage mgr) i) ->
  let file := resumeFileId options in
  let message := chunkMessage options session (storage mgr) in
  let first := snd (resumeTransfer options env mgr) in
  let second := snd (resumeTransfer options env2 first) in
  outbox second = outbox first ++ map message (j :: rest) /\
  outbox second
  = outbox mgr ++ map message pre
    ++ (if attempted o then [message j] else []) ++ map message (j :: rest) /\
  LargeFileStorage.getSession file (storage second)
  = Resolved
      (Some (withCompleted session
               (LargeFileStorage.completedChunks session ++ pre ++ j :: rest)
               true)) /\
  getTransferState file second
  = Some (MkTransferState
            file complete
            (transferredChunks ts + size (pre ++ j :: rest)) (totalChunks ts)
            (match o with Paused => true | _ => canResume ts end)
            (Some (complaint j o))).
Proof.
  intros Hready Hremaining Hpre Hob Hrest file message first second.
  destruct (resume_interrupted options env mgr session ts pre rest j o
                               Hready Hremaining Hpre Hob)
    as (_ & Hout1 & Hst1 & Hact1 & _).
  fold first file in Hout1, Hst1, Hact1. fold message in Hout1.
  set (session' := withCompleted session
                     (LargeFileStorage.completedChunks session ++ pre)
                     (LargeFileStorage.isComplete session)) in *.
  set (ts' := MkTransferState file error (transferredChunks ts + size pre)
                              (totalChunks ts)
                              (match o with Paused => true | _ => canResume ts end)
                              (Some (complaint j o))) in *.
  pose proof Hready as (_ & _ & Hkey & _ & _).
  assert (ready options first session' ts') as Hready'.
  { eapply (resume_keeps_ready options mgr first session session' ts ts').
    - exact Hready.
    - exact Hkey.
    - reflexivity.
    - exact Hst1.
    - exact Hact1. }
  assert (remainingChunks session' = j :: rest) as Hremaining'
      by (apply remaining_after; exact Hremaining).
  destruct (resume_spec options env2 first session' ts' Hready')
    as (k & a & flag & ts2 & _ & _ & _ & Hout & Hst & Hact & _ & Hcases & Hcoop).
  fold second in Hout, Hst, Hact. rewrite Hremaining' in *.
  assert (forall i, chunkMessage options session' (storage first) i = message i)
    as Hsame.
  { intros i. unfold chunkMessage, message, chunkMessage. rewrite Hst1. reflexivity. }
  assert (status ts2 = complete) as Hdone.
  { apply Hcoop. intros i Hi. destruct (Hrest i Hi) as (H1 & H2 & H3).
    unfold cooperative_at. rewrite Hst1. conjuncts; assumption. }
  destruct Hcases as [(Hts2 & -> & -> & ->) | (Herr & _)]; [| congruence].
  rewrite firstn_all in Hout, Hst.
  rewrite (map_ext _ _ Hsame) in Hout.
  conjuncts.
  - exact Hout.
  - rewrite Hout, Hout1. rewrite <- !app_assoc. reflexivity.
  - rewrite Hst. unfold LargeFileStorage.getSession.
    cbn [LargeFileStorage.db LargeFileStorage.sessions]. fold file.
    rewrite lookup_insert_eq. unfold session'.
    cbn [withCompleted LargeFileStorage.completedChunks LargeFileStorage.fileId
         LargeFileStorage.fileName LargeFileStorage.fileSize
         LargeFileStorage.fileType LargeFileStorage.totalChunks
         LargeFileStorage.fileHash].
    rewrite <- app_assoc. reflexivity.
  - unfold getTransferState. rewrite Hact. fold file. rewrite lookup_insert_eq.
    rewrite Hts2. unfold ts', withStatus, size.
    cbn [fileId transferredChunks totalChunks canResume errorMessage].
    rewrite length_app. do 2 f_equal. lia.
Qed.

(** After the pause above, the next [resumeTransfer] sends chunk 4 and
    completes. *)
Lemma resume_after_interruption_witness :
  let first := snd (resumeTransfer demo_options pause_before_4 demo_manager) in
  let second := snd (resumeTransfer demo_options polite first) in
  outbox second
  = [large_file_chunk "f1" "movie.bin" 2 5 [Byte.x12] 1 "abcd";
     large_file_chunk "f1" "movie.bin" 4 5 [Byte.x14] 1 "abcd"] /\
  getTransferState "f1" second
  = Some (MkTransferState "f1" complete 5 5 true (Some "Transfer aborted"%string)).
Proof.
  destruct (resume_after_interruption
              demo_options pause_before_4 polite demo_manager demo_session
              (MkTransferState "f1" idle 3 5 true None) [2] [] 4 Paused
              demo_ready eq_refl) as (_ & Hout & _ & Hstate).
  - intros i [<- | []].
    split; [reflexivity | split; [reflexivity | eexists; reflexivity]].
  - reflexivity.
  - intros i [<- | []].
    split; [reflexivity | split; [reflexivity | eexists; reflexivity]].
  - split; [exact Hout | exact Hstate].
Defined.

(** ** Sessions without chunks, sessions with all of them *)

Lemma remaining_all (session : LargeFileStorage.FileTransferSession) :
  LargeFileStorage.completedChunks session = [] ->
  remainingChunks session = seqZ 0 (LargeFileStorage.totalChunks session).
Proof.
  intros Hnone. unfold remainingChunks. cbv zeta. rewrite Hnone.
  apply (filter_unlisted []). intros i _ Hi. apply elem_of_nil in Hi. exact Hi.
Qed.

(** X16: [initializeSession] alone does not make a file transferable.
    For an id without a persisted session and without stored chunks,
    [initializeSession] then [resumeTransfer] sends nothing: for a file
    that is not empty the transfer ends in error with ["Chunk data not
    available - file may need to be reprocessed"], nothing is recorded and
    the session is not listed as resumable; an empty file has no chunk
    and the transfer completes at once. *)
Theorem resume_without_chunks
        (file_id : string) (file : File) (mgr : manager)
        (options : ResumeOptions) (env : environment) :
  LargeFileStorage.db (storage mgr) = true ->
  LargeFileStorage.sessions (storage mgr) !! file_id = None ->
  LargeFileStorage.chunks (storage mgr) !! (file_id, 0) = None ->
  resumeFileId options = file_id ->
  pausedBefore env 0 = false ->
  let run := resumeTransfer options env (snd (initializeSession file_id file mgr)) in
  let n := ceil_div (size (content file))
                    (MemoryOptimizedFileProcessor.getOptimalChunkSize
                       (size (content file))) in
  fst run = Resolved tt /\
  outbox (snd run) = outbox mgr /\
  (content file <> [] ->
   getTransferState file_id (snd run)
   = Some (MkTransferState
             file_id error 0 n false
             (Some "Chunk data not available - file may need to be reprocessed"%string))
   /\
   LargeFileStorage.getSession file_id (storage (snd run))
   = Resolved (Some (fresh_session file_id file)) /\
   exists listed,
     getResumableTransfers (snd run) = Resolved listed /\
     ~ In (fresh_session file_id file) listed) /\
  (content file = [] ->
   n = 0 /\
   getTransferState file_id (snd run)
   = Some (MkTransferState file_id complete 0 0 false None) /\
   LargeFileStorage.getSession file_id (storage (snd run))
   = Resolved (Some (withCompleted (fresh_session file_id file) [] true))).
Proof.
  intros Hdb Hnone Hchunk Hfile Hrun run n.
  pose proof (initializeSession_open file_id file mgr Hdb) as Hinit.
  pose proof (initializeSession_ready file_id file mgr options Hdb Hfile) as Hready.
  rewrite Hnone in Hinit, Hready. cbn [default from_option] in Hinit, Hready.
  cbv zeta in Hinit, Hready. specialize (Hready eq_refl).
  set (prepared := snd (initializeSession file_id file mgr)) in *.
  assert (storage prepared
          = LargeFileStorage.MkStore
              true (LargeFileStorage.chunks (storage mgr))
              (<[file_id := fresh_session file_id file]>
                 (LargeFileStorage.sessions (storage mgr)))) as Hstore
      by (unfold prepared; rewrite Hinit; reflexivity).
  assert (outbox prepared = outbox mgr) as Hout0
      by (unfold prepared; rewrite Hinit; reflexivity).
  assert (remainingChunks (fresh_session file_id file) = seqZ 0 n) as Hremaining
      by (apply remaining_all; reflexivity).
  pose proof (LargeFileFacts.optimal_positive (size (content file))) as Hc.
  pose proof (ceil_div_bounds (size (content file)) _ Hc) as Hn. fold n in Hn.
  destruct (resume_spec options env prepared _ _ Hready)
    as (k & a & flag & ts' & Hres & Hka & Hk & Hout & Hst & Hact & _ & Hcases & Hcoop).
  fold run in Hres, Hout, Hst, Hact. rewrite Hfile in Hst, Hact.
  split; [exact Hres |].
  destruct (content file) as [| b bytes] eqn:Hbytes.
  - (* the empty file *)
    assert (n = 0) as Hn0 by (change (size (@nil byte)) with 0 in Hn; nia).
    rewrite Hremaining, Hn0 in *. change (seqZ 0 0) with (@nil Z) in *.
    cbn [length] in Hk.
    assert (k = 0%nat) as -> by lia. assert (a = 0%nat) as -> by lia.
    specialize (Hcoop ltac:(intros i [])).
    destruct Hcases as [(Hts' & -> & _) | (Herr & _)]; [| congruence].
    cbn [take map] in Hout, Hst. rewrite app_nil_r in Hout.
    conjuncts.
    + rewrite Hout. exact Hout0.
    + intros Habs. contradiction.
    + intros _. conjuncts.
      * reflexivity.
      * unfold getTransferState. rewrite Hact, lookup_insert_eq, Hts'.
        unfold initial_state, withStatus, fresh_session. cbn. rewrite Hbytes.
        unfold n in Hn0. rewrite Hn0. reflexivity.
      * rewrite Hst. unfold LargeFileStorage.getSession. cbn.
        rewrite lookup_insert_eq. reflexivity.
  - (* at least one chunk, and chunk 0 is not in the store *)
    assert (1 <= n) as Hn1.
    { assert (1 <= size (b :: bytes)) by (unfold size; cbn; lia). nia. }
    assert (seqZ 0 n = [] ++ 0 :: seqZ 1 (n - 1)) as Hsplit.
    { replace n with (1 + (n - 1)) at 1 by lia.
      rewrite seqZ_app by lia. reflexivity. }
    rewrite Hsplit in Hremaining.
    destruct (resume_interrupted options env prepared _ _ [] (seqZ 1 (n - 1)) 0 Missing
                                 Hready Hremaining)
      as (_ & Hout' & Hst' & Hact' & _).
    { intros i []. }
    { cbn [obstructed]. rewrite Hstore, Hfile. split; [exact Hrun | exact Hchunk]. }
    fold run in Hout', Hst', Hact'. rewrite Hfile in Hst', Hact'.
    cbn [map attempted app] in Hout'. rewrite app_nil_r in Hout'.
    conjuncts.
    + rewrite Hout'. exact Hout0.
    + intros _. conjuncts.
      * unfold getTransferState. rewrite Hact', lookup_insert_eq.
        unfold initial_state, fresh_session. cbn. rewrite Hbytes. reflexivity.
      * rewrite Hst'. unfold LargeFileStorage.getSession. cbn.
        rewrite lookup_insert_eq. unfold withCompleted, fresh_session. cbn.
        reflexivity.
      * unfold getResumableTransfers, StoredFiles.getAllSessions. rewrite Hst'.
        cbn [LargeFileStorage.db]. eexists. split; [reflexivity |].
        rewrite filter_In. intros (_ & Hlisted). cbn in Hlisted. discriminate Hlisted.
    + intros Habs. discriminate Habs.
Qed.

Lemma resume_without_chunks_witness :
  let run :=
    resumeTransfer
      (MkResumeOptions "f9" true true true) polite
      (snd (initializeSession "f9" ChunkerFacts.notes_txt demo_manager)) in
  outbox (snd run) = [] /\
  getTransferState "f9" (snd run)
  = Some (MkTransferState
            "f9" error 0 1 false
            (Some "Chunk data not available - file may need to be reprocessed"%string)).
Proof.
  destruct (resume_without_chunks
              "f9" ChunkerFacts.notes_txt demo_manager
              (MkResumeOptions "f9" true true true) polite
              eq_refl eq_refl eq_refl eq_refl eq_refl)
    as (_ & Hout & Hfull & _).
  destruct (Hfull ltac:(discriminate)) as (Hstate & _).
  split; [exact Hout | exact Hstate].
Defined.

(** X17: a file that [processLargeFile] has stored is recorded as
    already transferred.  Its session lists every chunk as completed and is
    marked complete, so [initializeSession] reports all [n] chunks
    transferred, a [resumeTransfer] that follows sends no chunk at all and
    ends ['complete'], and [getResumableTransfers] does not list the
    session. *)
Theorem processed_file_sends_nothing
        (jsHeapSizeLimit : option Z) (file_id : string) (file : File)
        (s : LargeFileProcessing.state) (mgr : manager)
        (options : ResumeOptions) (env : environment) :
  LargeFileStorage.db (LargeFileProcessing.storage s) = true ->
  ProcessorChecks.canProcess
    (ProcessorChecks.canProcessFile jsHeapSizeLimit (size (content file))) = true ->
  storage mgr
  = LargeFileProcessing.storage
      (snd (LargeFileProcessing.processLargeFile jsHeapSizeLimit file_id file s)) ->
  resumeFileId options = file_id ->
  let n := ceil_div (size (content file))
                    (MemoryOptimizedFileProcessor.getOptimalChunkSize
                       (size (content file))) in
  let prepared := initializeSession file_id file mgr in
  let run := resumeTransfer options env (snd prepared) in
  fst prepared = Resolved (MkTransferState file_id idle n n (0 <? n) None) /\
  fst run = Resolved tt /\
  outbox (snd run) = outbox mgr /\
  status <$> getTransferState file_id (snd run) = Some complete /\
  exists listed,
    getResumableTransfers (snd run) = Resolved listed /\
    forall session,
      LargeFileStorage.getSession file_id (storage (snd run))
      = Resolved (Some session) ->
      ~ In session listed.
Proof.
  intros Hdb Hcan Hstorage Hfile n prepared run.
  rewrite (LargeFileFacts.processLargeFile_stores
             jsHeapSizeLimit file_id file s Hdb Hcan) in Hstorage.
  cbn [snd LargeFileProcessing.storage] in Hstorage.
  set (session := LargeFileFacts.processed_session file_id file) in *.
  assert (LargeFileStorage.db (storage mgr) = true) as Hopen
      by (rewrite Hstorage; reflexivity).
  assert (LargeFileStorage.sessions (storage mgr) !! file_id = Some session)
    as Hsession by (rewrite Hstorage; cbn; apply lookup_insert_eq).
  pose proof (initializeSession_open file_id file mgr Hopen) as Hinit.
  pose proof (initializeSession_ready file_id file mgr options Hopen Hfile) as Hready.
  rewrite Hsession in Hinit, Hready. cbn [default from_option] in Hinit, Hready.
  unfold id in Hinit, Hready. cbv zeta in Hinit, Hready. specialize (Hready eq_refl).
  fold prepared in Hinit, Hready.
  assert (0 <= n) as Hn0
      by (apply ceil_div_nonneg;
          [apply LargeFileFacts.optimal_positive | unfold size; lia]).
  assert (size (LargeFileStorage.completedChunks session) = n) as Hcount.
  { unfold session, LargeFileFacts.processed_session.
    cbn [LargeFileStorage.completedChunks]. fold n.
    unfold size. rewrite length_seqZ. lia. }
  assert (remainingChunks session = []) as Hnil.
  { apply remainingChunks_nil. intros i Hi.
    unfold session, LargeFileFacts.processed_session. cbn.
    apply list_elem_of_In, elem_of_seqZ. exact Hi. }
  destruct (resume_spec options env (snd prepared) _ _ Hready)
    as (k & a & flag & ts' & Hres & Hka & Hk & Hout & Hst & Hact & _ & Hcases & Hcoop).
  fold run in Hres, Hout, Hst, Hact. rewrite Hfile in Hst, Hact.
  rewrite Hnil in *. cbn [length] in Hk.
  assert (k = 0%nat) as -> by lia.
  specialize (Hcoop ltac:(intros i [])).
  destruct Hcases as [(Hts' & -> & _) | (Herr & _)]; [| congruence].
  cbn [take map] in Hout. rewrite app_nil_r in Hout.
  conjuncts.
  - rewrite Hinit. unfold initial_state. rewrite Hcount. reflexivity.
  - exact Hres.
  - rewrite Hout, Hinit. reflexivity.
  - unfold getTransferState. rewrite Hact, lookup_insert_eq. cbn. rewrite Hcoop.
    reflexivity.
  - unfold getResumableTransfers, StoredFiles.getAllSessions. rewrite Hst.
    cbn [LargeFileStorage.db LargeFileStorage.sessions].
    eexists. split; [reflexivity |].
    intros found Hfound. unfold LargeFileStorage.getSession in Hfound.
    cbn in Hfound. rewrite lookup_insert_eq in Hfound.
    injection Hfound as <-.
    rewrite filter_In. intros (_ & Hlisted). cbn in Hlisted. discriminate Hlisted.
Qed.

Lemma processed_file_sends_nothing_witness :
  let stored :=
    LargeFileProcessing.storage
      (snd (LargeFileProcessing.processLargeFile
              None "id-1" ChunkerFacts.notes_txt
              (LargeFileProcessing.MkState (LargeFileStorage.MkStore true ∅ ∅) ∅ ∅))) in
  let mgr := MkManager stored ∅ ∅ [] [] in
  let prepared := initializeSession "id-1" ChunkerFacts.notes_txt mgr in
  fst prepared = Resolved (MkTransferState "id-1" idle 1 1 true None) /\
  outbox (snd (resumeTransfer (MkResumeOptions "id-1" true true true) polite
                              (snd prepared))) = [].
Proof.
  cbv zeta.
  destruct (processed_file_sends_nothing
              None "id-1" ChunkerFacts.notes_txt
              (LargeFileProcessing.MkState (LargeFileStorage.MkStore true ∅ ∅) ∅ ∅)
              (MkManager
                 (LargeFileProcessing.storage
                    (snd (LargeFileProcessing.processLargeFile
                            None "id-1" ChunkerFacts.notes_txt
                            (LargeFileProcessing.MkState
                               (LargeFileStorage.MkStore true ∅ ∅) ∅ ∅))))
                 ∅ ∅ [] [])
              (MkResumeOptions "id-1" true true true) polite
              eq_refl eq_refl eq_refl eq_refl)
    as (Hstate & _ & Hout & _).
  split; [exact Hstate | exact Hout].
Defined.

(** ** [cancelTransfer] and [getResumableTransfers] *)

(** X18: [cancelTransfer] forgets the transfer.  Keeping the data, it
    drops the transfer state of that id only and leaves the store alone; a
    [resumeTransfer] of the persisted session then rejects with ["Transfer
    state not initialized"].  Deleting the data, on an opened store, it
    also removes the session and every chunk of that id, those of other
    ids staying, and [resumeTransfer] rejects with ["Session not found for
    resume"].  A rejected [resumeTransfer] changes nothing. *)
Theorem cancelTransfer_forgets
        (file_id : string) (mgr : manager)
        (options : ResumeOptions) (env : environment) :
  LargeFileStorage.db (storage mgr) = true ->
  resumeFileId options = file_id ->
  let kept := cancelTransfer file_id false mgr in
  let wiped := cancelTransfer file_id true mgr in
  (fst kept = Resolved tt /\
   storage (snd kept) = storage mgr /\
   getTransferState file_id (snd kept) = None /\
   (forall other, other <> file_id ->
      getTransferState other (snd kept) = getTransferState other mgr) /\
   (is_Some (LargeFileStorage.sessions (storage mgr) !! file_id) ->
    resumeTransfer options env (snd kept)
    = (Rejected "Transfer state not initialized", snd kept))) /\
  (fst wiped = Resolved tt /\
   getTransferState file_id (snd wiped) = None /\
   LargeFileStorage.getSession file_id (storage (snd wiped)) = Resolved None /\
   (forall i, LargeFileStorage.getChunk file_id i (storage (snd wiped))
              = Resolved None) /\
   (forall other, other <> file_id ->
      LargeFileStorage.getSession other (storage (snd wiped))
      = LargeFileStorage.getSession other (storage mgr) /\
      forall i, LargeFileStorage.getChunk other i (storage (snd wiped))
                = LargeFileStorage.getChunk other i (storage mgr)) /\
   resumeTransfer options env (snd wiped)
   = (Rejected "Session not found for resume", snd wiped)).
Proof.
  intros Hdb Hfile kept wiped. subst kept wiped.
  unfold cancelTransfer, StoredFiles.deleteFileData. cbn [storage]. rewrite Hdb.
  cbn [fst snd storage withStorage activeSessions].
  split; conjuncts; try reflexivity.
  - unfold getTransferState. cbn. apply lookup_delete_eq.
  - intros other Hne. unfold getTransferState. cbn.
    apply lookup_delete_ne. congruence.
  - intros (session & Hsession).
    unfold resumeTransfer, LargeFileStorage.getSession. cbn [storage activeSessions].
    rewrite Hdb, Hfile, Hsession, lookup_delete_eq. reflexivity.
  - unfold getTransferState. cbn. apply lookup_delete_eq.
  - unfold LargeFileStorage.getSession. cbn. rewrite lookup_delete_eq. reflexivity.
  - intros i. unfold LargeFileStorage.getChunk. cbn.
    match goal with
    | |- context [filter ?P ?m !! ?k] =>
        assert (filter P m !! k = None) as ->
            by (apply map_lookup_filter_None; right; intros data _ Hne;
                apply Hne; reflexivity)
    end.
    reflexivity.
  - intros other Hne. unfold LargeFileStorage.getSession, LargeFileStorage.getChunk.
    cbn. rewrite Hdb. split.
    + rewrite lookup_delete_ne by congruence. reflexivity.
    + intros i.
      destruct (LargeFileStorage.chunks (storage mgr) !! (other, i))
        as [data |] eqn:Hlook.
      * match goal with
        | |- context [filter ?P ?m !! ?k] =>
            assert (filter P m !! k = Some data) as ->
                by (apply map_lookup_filter_Some; split; [exact Hlook | exact Hne])
        end.
        reflexivity.
      * match goal with
        | |- context [filter ?P ?m !! ?k] =>
            assert (filter P m !! k = None) as ->
                by (apply map_lookup_filter_None; left; exact Hlook)
        end.
        reflexivity.
  - unfold resumeTransfer, LargeFileStorage.getSession.
    cbn [storage withStorage LargeFileStorage.db LargeFileStorage.sessions].
    rewrite Hfile, lookup_delete_eq. reflexivity.
Qed.

Lemma cancelTransfer_forgets_witness :
  fst (resumeTransfer demo_options polite (snd (cancelTransfer "f1" false demo_manager)))
  = Rejected "Transfer state not initialized" /\
  fst (resumeTransfer demo_options polite (snd (cancelTransfer "f1" true demo_manager)))
  = Rejected "Session not found for resume".
Proof.
  destruct (cancelTransfer_forgets "f1" demo_manager demo_options polite
                                   eq_refl eq_refl)
    as ((_ & _ & _ & _ & Hkept) & (_ & _ & _ & _ & _ & Hwiped)).
  rewrite Hkept by (eexists; reflexivity). rewrite Hwiped. split; reflexivity.
Defined.

(** X19: [getResumableTransfers] lists the persisted sessions that are
    not marked complete and have at least one completed chunk, and no
    other: a session without progress is not resumable, nor is a complete
    one.  On a store that was never opened it rejects. *)
Theorem getResumableTransfers_lists (mgr : manager) :
  (LargeFileStorage.db (storage mgr) = true ->
   exists listed,
     getResumableTransfers mgr = Resolved listed /\
     forall session,
       In session listed <->
       (exists key,
           LargeFileStorage.getSession key (storage mgr) = Resolved (Some session)) /\
       LargeFileStorage.isComplete session = false /\
       LargeFileStorage.completedChunks session <> []) /\
  (LargeFileStorage.db (storage mgr) = false ->
   getResumableTransfers mgr = Rejected "Database not initialized").
Proof.
  unfold getResumableTransfers, StoredFiles.getAllSessions,
    LargeFileStorage.getSession.
  split; intros Hdb; rewrite Hdb; [| reflexivity].
  eexists. split; [reflexivity |]. intros session.
  rewrite filter_In, andb_true_iff, negb_true_iff, Z.ltb_lt.
  rewrite <- list_elem_of_In, list_elem_of_fmap.
  assert (0 < size (LargeFileStorage.completedChunks session)
          <-> LargeFileStorage.completedChunks session <> []) as Hsize.
  { unfold size. destruct (LargeFileStorage.completedChunks session); cbn;
      split; intros H; try lia; congruence. }
  rewrite Hsize. split.
  - intros (([key found] & Heq & Hin) & Hrest). cbn in Heq. subst found.
    apply elem_of_map_to_list in Hin. split; [| exact Hrest].
    exists key. rewrite Hin. reflexivity.
  - intros ((key & Hkey) & Hrest). split; [| exact Hrest].
    exists (key, session). split; [reflexivity |].
    apply elem_of_map_to_list. congruence.
Qed.

Lemma getResumableTransfers_lists_witness :
  getResumableTransfers demo_manager = Resolved [demo_session] /\
  getResumableTransfers
    (snd (resumeTransfer demo_options polite demo_manager)) = Resolved [].
Proof.
  destruct (getResumableTransfers_lists demo_manager) as (Hopen & _).
  destruct (Hopen eq_refl) as (listed & Hrun & _).
  split; [rewrite Hrun; vm_compute in Hrun; injection Hrun as <-; reflexivity |].
  vm_compute. reflexivity.
Defined.

(** ** [pauseTransfer] outside a running transfer *)

(** X20: pausing a transfer that is not running only relabels it.
    [pauseTransfer] marks the state ['paused'] and resumable, touching
    neither the store nor the connection, and does nothing for an id
    without a transfer state.  The next [resumeTransfer] does not look at
    the status: with a peer that acknowledges every chunk it sends every
    remaining chunk, in order, and ends ['complete']. *)
Theorem pauseTransfer_relabels
        (options : ResumeOptions) (env : environment) (mgr : manager)
        (session : LargeFileStorage.FileTransferSession) (ts : TransferState) :
  ready options mgr session ts ->
  (forall i, In i (remainingChunks session) ->
             cooperative_at options env (storage mgr) i) ->
  let file := resumeFileId options in
  let held := pauseTransfer file mgr in
  let run := resumeTransfer options env held in
  getTransferState file held
  = Some (MkTransferState file paused (transferredChunks ts) (totalChunks ts)
                          true (errorMessage ts)) /\
  storage held = storage mgr /\
  outbox held = outbox mgr /\
  (forall other,
      getTransferState other mgr = None -> pauseTransfer other mgr = mgr) /\
  fst run = Resolved tt /\
  outbox (snd run)
  = outbox mgr
    ++ map (chunkMessage options session (storage mgr)) (remainingChunks session) /\
  getTransferState file (snd run)
  = Some (MkTransferState
            file complete
            (transferredChunks ts + size (remainingChunks session))
            (totalChunks ts) true (errorMessage ts)).
Proof.
  intros Hready Hcoop file held run.
  pose proof Hready as (Hdb & Hsess & Hkey & Hstate & Hts).
  set (label := withStatus ts paused (transferredChunks ts) true (errorMessage ts)).
  assert (held = MkManager (storage mgr) (<[file := label]> (activeSessions mgr))
                           (transferControllers mgr) (outbox mgr) (calls mgr))
    as Hheld by (unfold held, pauseTransfer, file; rewrite Hstate; reflexivity).
  assert (ready options held session label) as Hready'.
  { unfold ready. rewrite Hheld. cbn [storage activeSessions].
    conjuncts; try assumption. apply lookup_insert_eq. }
  destruct (resume_spec options env held session label Hready')
    as (k & a & flag & ts' & Hres & _ & _ & Hout & _ & Hact & _ & Hcases & Hdone).
  fold run in Hres, Hout, Hact.
  assert (status ts' = complete) as Hcomplete
      by (apply Hdone; rewrite Hheld; exact Hcoop).
  destruct Hcases as [(Hts' & _ & -> & ->) | (Herr & _)]; [| congruence].
  rewrite firstn_all in Hout.
  conjuncts.
  - rewrite Hheld. unfold getTransferState. cbn [activeSessions].
    rewrite lookup_insert_eq. unfold label, withStatus. rewrite Hts. reflexivity.
  - rewrite Hheld. reflexivity.
  - rewrite Hheld. reflexivity.
  - intros other Hnone. unfold pauseTransfer.
    unfold getTransferState in Hnone. rewrite Hnone. reflexivity.
  - exact Hres.
  - rewrite Hout, Hheld. reflexivity.
  - unfold getTransferState. rewrite Hact. fold file. rewrite lookup_insert_eq.
    rewrite Hts'. unfold label, withStatus, size.
    cbn [fileId transferredChunks totalChunks canResume errorMessage].
    rewrite Hts. reflexivity.
Qed.

Lemma pauseTransfer_relabels_witness :
  let held := pauseTransfer "f1" demo_manager in
  getTransferState "f1" held
  = Some (MkTransferState "f1" paused 3 5 true None) /\
  getTransferState "f1" (snd (resumeTransfer demo_options polite held))
  = Some (MkTransferState "f1" complete 5 5 true None).
Proof.
  destruct (pauseTransfer_relabels
              demo_options polite demo_manager demo_session
              (MkTransferState "f1" idle 3 5 true None) demo_ready)
    as (Hheld & _ & _ & _ & _ & _ & Hdone).
  - intros i Hi. vm_compute in Hi. destruct Hi as [<- | [<- | []]];
      (split; [reflexivity | split; [reflexivity | eexists; reflexivity]]).
  - split; [exact Hheld | exact Hdone].
Defined.

End SessionFacts.

(* ================================================================== *)
(** * The sharing side of a connection *)
(* ================================================================== *)

Module SharingFacts.


Import JS JSFacts Sharing.
Local Open Scope Z_scope.

(** The messages of a connection, handled in order. *)
Definition serve (messages : list Wire.message) (s : state) : state :=
  fold_left (fun s m => connectionData m s) messages s.

(** What the sender has put on the wire since [s]. *)
Definition sent_since (s s' : state) : list Wire.message :=
  skipn (length (outbox s)) (outbox s').

Definition hash_generation_failed : string :=
  "File hash generation failed: Parameter is not a File or Blob object".

(** The two notices that follow a [request-file] for a shared file. *)
Definition refusal (fileName : string) : list Wire.message :=
  [Wire.transfer_error fileName ("Transfer failed: " +:+ hash_generation_failed);
   Wire.transfer_error fileName hash_generation_failed].

Definition carries_file (m : Wire.message) : bool :=
  match m with
  | Wire.file_start _ _ _ _ _ | Wire.file_chunk _ _ _ _ _ => true
  | _ => false
  end.

Definition answer (secret supplied : string) : Wire.message :=
  if negb (String.eqb secret EmptyString) && negb (String.eqb supplied secret)
  then Wire.auth_failed
  else Wire.auth_success.

Lemma find_name (fileName : string) (l : list UploadedFile) :
  match List.find (fun f => String.eqb (name f) fileName) l with
  | Some file => name file = fileName /\ In file l
  | None => ~ In fileName (map name l)
  end.
Proof.
  induction l as [| f l IH]; cbn; [tauto |].
  destruct (String.eqb_spec (name f) fileName) as [Heq | Hne].
  - split; [exact Heq | left; reflexivity].
  - destruct (List.find _ l) as [file |].
    + split; [apply IH | right; apply IH].
    + intros [Heq | Hin]; [contradiction | exact (IH Hin)].
Qed.

(** One message: what it leaves alone and what it sends. *)
Lemma connectionData_sends (data : Wire.message) (s : state) :
  let s' := connectionData data s in
  files s' = files s /\ password s' = password s /\
  exists sent,
    outbox s' = outbox s ++ sent /\
    Forall (fun m => carries_file m = false) sent /\
    sent =
    match data with
    | Wire.request_info =>
        [Wire.file_list (map (fun f => (name f, size f, type f)) (files s))
                        (negb (String.eqb (password s) EmptyString))]
    | Wire.password supplied => [answer (password s) supplied]
    | Wire.request_file fileName =>
        if bool_decide (fileName ∈ map name (files s))
        then refusal fileName
        else []
    | _ => []
    end.
Proof.
  intros s'. subst s'.
  destruct data; cbn [connectionData];
    try (conjuncts; try reflexivity; exists []; conjuncts;
         [symmetry; apply app_nil_r | constructor | reflexivity]).
  - conjuncts; try reflexivity. eexists. conjuncts; try reflexivity.
    repeat constructor.
  - unfold answer. destruct (_ && _); conjuncts; try reflexivity;
      eexists; conjuncts; try reflexivity; repeat constructor.
  - pose proof (find_name fileName (files s)) as Hfind.
    destruct (List.find _ (files s)) as [file |].
    + destruct Hfind as (Hname & Hin).
      rewrite bool_decide_eq_true_2
        by (rewrite <- Hname; apply list_elem_of_In, in_map; exact Hin).
      cbn. rewrite Hname. conjuncts; try reflexivity.
      eexists. conjuncts; [| | reflexivity].
      * rewrite <- app_assoc. reflexivity.
      * repeat constructor.
    + rewrite bool_decide_eq_false_2
        by (intros Hin; apply Hfind, list_elem_of_In; exact Hin).
      conjuncts; try reflexivity. exists []. conjuncts;
        [symmetry; apply app_nil_r | constructor | reflexivity].
Qed.




(** X22: the password gates nothing on the sender.  However many
    passwords a peer has sent, right or wrong, the sender's file list and
    its handling of [request-file] are as for a peer that sent none: each
    password is answered and nothing is remembered, so a [request-info] is
    still answered with every file's name, size and type, and a
    [request-file] is still handled.  [passwordRequired] in the file list
    is set exactly when the password is not empty. *)
Theorem password_gates_nothing
        (s : state) (attempts : list string) (request : Wire.message) :
  let tried := serve (map Wire.password attempts) s in
  outbox tried = outbox s ++ map (answer (password s)) attempts /\
  files tried = files s /\
  password tried = password s /\
  sent_since tried (connectionData request tried)
  = sent_since s (connectionData request s) /\
  sent_since tried (connectionData Wire.request_info tried)
  = [Wire.file_list (map (fun f => (name f, size f, type f)) (files s))
                    (negb (String.eqb (password s) EmptyString))].
Proof.
  intros tried.
  assert (outbox tried = outbox s ++ map (answer (password s)) attempts /\
          files tried = files s /\ password tried = password s) as (Hout & Hfiles & Hpw).
  { subst tried. revert s. induction attempts as [| p attempts IH]; intros s.
    - cbn. rewrite app_nil_r. conjuncts; reflexivity.
    - cbn [map].
      change (serve (Wire.password p :: map Wire.password attempts) s)
        with (serve (map Wire.password attempts)
                    (connectionData (Wire.password p) s)).
      destruct (connectionData_sends (Wire.password p) s)
        as (Hf & Hp & sent & Hout & _ & ->).
      destruct (IH (connectionData (Wire.password p) s)) as (IHout & IHf & IHp).
      rewrite IHout, IHf, IHp, Hout, Hf, Hp, <- app_assoc. conjuncts; reflexivity. }
  assert (forall s0 m,
             sent_since s0 (connectionData m s0)
             = match m with
               | Wire.request_info =>
                   [Wire.file_list (map (fun f => (name f, size f, type f)) (files s0))
                                   (negb (String.eqb (password s0) EmptyString))]
               | Wire.password supplied => [answer (password s0) supplied]
               | Wire.request_file fileName =>
                   if bool_decide (fileName ∈ map name (files s0))
                   then refusal fileName
                   else []
               | _ => []
               end) as Hsent.
  { intros s0 m. destruct (connectionData_sends m s0) as (_ & _ & sent & Ho & _ & ->).
    unfold sent_since. rewrite Ho. apply drop_app_length. }
  conjuncts; try assumption.
  - rewrite !Hsent, Hfiles, Hpw. reflexivity.
  - rewrite Hsent, Hfiles, Hpw. reflexivity.
Qed.

End SharingFacts.

(* ================================================================== *)
(** * The password exchange between the two components *)
(* ================================================================== *)

Module LobbyFacts.

Import JS JSFacts.
Local Open Scope Z_scope.

(** The receiver connects, the sender answers its [request-info]; the
    user types a password and submits it, the sender answers. *)
Definition listed (sender : Sharing.state) : Lobby.state :=
  let receiver := Lobby.connectionOpen Lobby.mounted in
  let sender' := Sharing.connectionData Wire.request_info sender in
  fold_left (fun r m => Lobby.connectionData m r)
            (SharingFacts.sent_since sender sender') receiver.

Definition submitted (sender : Sharing.state) (typed : string) : Lobby.state :=
  let receiver := Lobby.submitPassword (Lobby.setPassword typed (listed sender)) in
  let sender' := Sharing.connectionData (Wire.password typed) sender in
  fold_left (fun r m => Lobby.connectionData m r)
            (SharingFacts.sent_since sender sender') receiver.

(** X23: the password exchange end to end.  After connecting, the
    receiver holds the sender's file list and shows it exactly when there
    is a file and no password is set.  After submitting a password, it
    shows the list exactly when there is a file and the password is the
    sender's (or none is set); a wrong password leaves the list hidden with
    ["Incorrect password"].  The list itself is in the receiver's state
    from the first answer on, shown or not. *)
Theorem password_exchange (sender : Sharing.state) (typed : string) :
  let secret := Sharing.password sender in
  let shared :=
    map (fun f => (Sharing.name f, Sharing.size f, Sharing.type f))
        (Sharing.files sender) in
  Lobby.outbox (listed sender) = [Wire.request_info] /\
  Lobby.files (listed sender) = shared /\
  (Lobby.fileListShown (listed sender) = true
   <-> shared <> [] /\ secret = EmptyString) /\
  Lobby.outbox (submitted sender typed)
  = [Wire.request_info; Wire.password typed] /\
  Lobby.files (submitted sender typed) = shared /\
  (Lobby.fileListShown (submitted sender typed) = true
   <-> shared <> [] /\ (secret = EmptyString \/ typed = secret)) /\
  (secret <> EmptyString -> typed <> secret ->
   Lobby.authError (submitted sender typed) = "Incorrect password"%string /\
   Lobby.passwordRequired (submitted sender typed) = true).
Proof.
  intros secret shared.
  assert (forall l : list (string * Z * string),
             (0 <? size l) = true <-> l <> []) as Hsize.
  { intros l. unfold size. rewrite Z.ltb_lt.
    destruct l; cbn; split; intros H; try lia; congruence. }
  assert (listed sender
          = Lobby.MkState true [Wire.request_info] shared
                          (negb (String.eqb secret EmptyString))
                          EmptyString EmptyString) as Hlisted.
  { unfold listed, SharingFacts.sent_since. cbn [Sharing.connectionData].
    cbn [Sharing.send Sharing.outbox]. rewrite drop_app_length. reflexivity. }
  assert (submitted sender typed
          = if negb (String.eqb secret EmptyString) && negb (String.eqb typed secret)
            then Lobby.MkState true [Wire.request_info; Wire.password typed] shared
                               true typed "Incorrect password"
            else Lobby.MkState true [Wire.request_info; Wire.password typed] shared
                               false typed EmptyString) as Hsubmitted.
  { unfold submitted, SharingFacts.sent_since. rewrite Hlisted.
    cbn [Sharing.connectionData]. fold secret.
    destruct (String.eqb_spec secret EmptyString) as [Hs | Hs];
      destruct (String.eqb_spec typed secret) as [Ht | Ht];
      cbn [negb andb Sharing.send Sharing.outbox];
      rewrite drop_app_length; reflexivity. }
  rewrite Hlisted. unfold Lobby.fileListShown.
  cbn [Lobby.outbox Lobby.files Lobby.passwordRequired].
  split; [reflexivity |]. split; [reflexivity |]. split.
  { rewrite andb_true_iff, Hsize, negb_true_iff, negb_false_iff, String.eqb_eq.
    reflexivity. }
  rewrite Hsubmitted.
  destruct (String.eqb_spec secret EmptyString) as [Hs | Hs];
    destruct (String.eqb_spec typed secret) as [Ht | Ht];
    cbn [negb andb Lobby.outbox Lobby.files
         Lobby.passwordRequired Lobby.authError];
    (split; [reflexivity |]); (split; [reflexivity |]);
    rewrite ?andb_true_r, ?andb_false_r, ?Hsize; split;
    try (intros H1 H2; try contradiction; split; reflexivity);
    try (split; [intros H; split; [exact H | tauto] | intros (H & _); exact H]);
    try (split; [intros H; discriminate H | intros (_ & [H | H]); contradiction]).
Qed.

End LobbyFacts.

(* ================================================================== *)
(** * A transfer between [sendFileInChunks] and [downloadFile] *)
(* ================================================================== *)

Module TransferFacts.

Import JS JSFacts Wire.
Local Open Scope Z_scope.






Section Delivery.

Variable file : File.
Variable r : FileDownloader.state.
Hypothesis connected : FileDownloader.connection r = true.

Local Abbreviation total := (FileUploader.totalChunks file).
Local Abbreviation chunk := (FileUploader.chunk_bytes file).

(** The receiver's chunk map once the chunks below [k] have arrived. *)
Definition stored (k : Z) : gmap Z (list byte) :=
  fold_left (fun m i => <[i := chunk i]> m) (seqZ 0 k) ∅.

Definition acks (k : Z) : list message :=
  map (chunk_ack (name file)) (seqZ 0 k).













(** The receiver once the whole file has arrived and passed the checks. *)
Definition delivered : FileDownloader.state :=
  FileDownloader.MkState
    true
    (FileDownloader.outbox r
     ++ request_file (name file) :: acks total ++ [SenderFacts.confirmation file])
    (Some (FileDownloader.MkDownload
             (name file) (stored total) total (size (content file))
             (SHA256.hex (content file)) total))
    false
    (<[name file := content file]> (FileDownloader.downloadedFiles r))
    (delete (name file) (FileDownloader.downloadErrors r))
    (<[name file := true]> (FileDownloader.verifiedFiles r)).



End Delivery.


(** ** The empty file *)

Section Empty.

Variables fileName fileType : string.











End Empty.


End TransferFacts.
